(** * Auto-indentation engine and content-hover controller

    A shallow embedding of [vs/editor/common/languages/autoIndent.ts] and of
    the [ContentHoverController] class, with the properties stated about
    them.

    Conventions of the embedding:
    - a JavaScript string is a [string]: a sequence of code units (the code
      units below 256, which is what [ascii] holds);
    - a JavaScript [number] that the code uses as an integer (line numbers,
      columns, offsets, priorities, ordinals) is a [Z];
    - [null] and [undefined] are [None];
    - collaborators the two files only call into (tokens, indent rules,
      language configuration, the hover widget, anchors, participants) are
      records of functions or type-class members: the code under study is
      parametric in them. *)

From Stdlib Require Import ZArith List Bool String Ascii Lia Permutation Sorted QArith.
Import ListNotations.

Local Open Scope string_scope.
Local Open Scope Z_scope.

(* ===================================================================== *)
(** ** JavaScript string primitives *)
(* ===================================================================== *)

Module JS.

(** [s.length] *)
Definition length (s : string) : Z := Z.of_nat (String.length s).

(** Clamp an index into [0 .. s.length]. *)
Definition clamp (s : string) (i : Z) : Z := Z.max 0 (Z.min i (length s)).

(** [s.substring(a, b)]: both indices are clamped and swapped when out of
    order. *)
Definition substring (s : string) (a b : Z) : string :=
  let a' := clamp s a in
  let b' := clamp s b in
  let lo := Z.min a' b' in
  let hi := Z.max a' b' in
  String.substring (Z.to_nat lo) (Z.to_nat (hi - lo)) s.

(** [s.substring(a)] *)
Definition substring_from (s : string) (a : Z) : string :=
  substring s a (length s).

(** The start index of [s.substr(start, ...)]: a negative start counts
    from the end of the string. *)
Definition substr_start (s : string) (start : Z) : Z :=
  if start <? 0 then Z.max (length s + start) 0 else Z.min start (length s).

(** [s.substr(start, len)]: a length that is not positive gives the empty
    string. *)
Definition substr (s : string) (start len : Z) : string :=
  let st := substr_start s start in
  let n := Z.min (Z.max len 0) (length s - st) in
  String.substring (Z.to_nat st) (Z.to_nat n) s.

(** [s.substr(start)] *)
Definition substr_from (s : string) (start : Z) : string :=
  let st := substr_start s start in
  String.substring (Z.to_nat st) (Z.to_nat (length s - st)) s.

(** [s.replace(pat, rep)] with a string pattern: only the first occurrence
    is replaced (the empty pattern occurs at index 0).  The replacement is
    taken literally, which is what JavaScript does for a replacement
    without [$]. *)
Fixpoint replace (pat rep s : string) : string :=
  if String.prefix pat s
  then rep ++ String.substring (String.length pat)
                               (String.length s - String.length pat) s
  else match s with
       | EmptyString => EmptyString
       | String c s' => String c (replace pat rep s')
       end.

(** The class [\s] of regular expressions, on code units below 256. *)
Definition is_space (c : ascii) : bool :=
  let n := nat_of_ascii c in
  ((9 <=? n)%nat && (n <=? 13)%nat) || (n =? 32)%nat || (n =? 160)%nat.

Fixpoint all_space (s : string) : bool :=
  match s with
  | EmptyString => true
  | String c s' => is_space c && all_space s'
  end.

(** [/^\s*$/.test(s)] *)
Definition test_blank (s : string) : bool := all_space s.

(** [/^\s+$/.test(s)] *)
Definition test_spaces (s : string) : bool :=
  match s with
  | EmptyString => false
  | _ => all_space s
  end.

(** [ToInt32], which the bitwise operators apply to their operands. *)
Definition ToInt32 (z : Z) : Z := (z + 2 ^ 31) mod 2 ^ 32 - 2 ^ 31.

(** [a & b] *)
Definition band (a b : Z) : Z := Z.land (ToInt32 a) (ToInt32 b).

(** [a | b] *)
Definition bor (a b : Z) : Z := Z.lor (ToInt32 a) (ToInt32 b).

End JS.

(* ===================================================================== *)
(** ** Positions and ranges *)
(* ===================================================================== *)

(** [Position] *)
Record Position : Type := {
  lineNumber : Z;
  column : Z
}.

(** [Range] *)
Record Range : Type := {
  startLineNumber : Z;
  startColumn : Z;
  endLineNumber : Z;
  endColumn : Z
}.

(* ===================================================================== *)
(** ** The auto-indentation engine *)
(* ===================================================================== *)

(** [StandardTokenType] of [encodedTokenAttributes]. *)
Module StandardTokenType.
Inductive t : Set := Other | Comment | String | RegEx.

Definition eqb (a b : t) : bool :=
  match a, b with
  | Other, Other | Comment, Comment | String, String | RegEx, RegEx => true
  | _, _ => false
  end.
End StandardTokenType.

(** [IndentAction] of [languageConfiguration]. *)
Module IndentAction.
Inductive t : Set := None | Indent | IndentOutdent | Outdent.

Definition eqb (a b : t) : bool :=
  match a, b with
  | None, None | Indent, Indent
  | IndentOutdent, IndentOutdent | Outdent, Outdent => true
  | _, _ => false
  end.
End IndentAction.

Module AutoIndent.

(** What [getStrippedLineForLineAndTokens] and [getPrecedingValidLine] read
    of a [LineTokens] or [ScopedLineTokens] object. *)
Record Tokens : Type := {
  getCount : nat;
  getStandardTokenType : nat -> StandardTokenType.t;
  getStartOffset : nat -> Z;
  getEndOffset : nat -> Z
}.

(** [LineTokens]: the tokens of a whole line. *)
Record LineTokens : Type := {
  lineTokens_tokens :> Tokens;
  lineTokens_getLanguageId : nat -> string;
  lineTokens_getLineContent : string
}.

(** [ScopedLineTokens]: the tokens of the span of one language around an
    offset. *)
Record ScopedLineTokens : Type := {
  scoped_tokens :> Tokens;
  languageId : string;
  firstCharOffset : Z;
  scoped_getLineContent : string
}.

(** [IndentRulesSupport]: the four pattern tests and the metadata bits. *)
Record IndentRulesSupport : Type := {
  shouldIncrease : string -> bool;
  shouldDecrease : string -> bool;
  shouldIndentNextLine : string -> bool;
  shouldIgnore : string -> bool;
  irs_getIndentMetadata : string -> Z
}.

(** One [RichEditBracket]: the texts that open and close it. *)
Record RichEditBracket : Type := {
  open : list string;
  close : list string
}.

(** [RichEditBrackets] *)
Record RichEditBrackets : Type := {
  rich_brackets : list RichEditBracket
}.

(** [CompleteEnterAction] *)
Record CompleteEnterAction : Type := {
  indentAction : IndentAction.t;
  appendText : string;
  removeText : Z
}.

(** [ResolvedLanguageConfiguration]; [onEnter] takes the strategy, the
    previous line, the text before and the text after the cursor. *)
Record ResolvedLanguageConfiguration : Type := {
  indentRulesSupport : option IndentRulesSupport;
  brackets : option RichEditBrackets;
  onEnter : Z -> string -> string -> string -> option CompleteEnterAction
}.

(** [ILanguageConfigurationService] *)
Record ILanguageConfigurationService : Type := {
  getLanguageConfiguration : string -> ResolvedLanguageConfiguration
}.

(** [IVirtualModel] *)
Record IVirtualModel : Type := {
  tokenization_getLineTokens : Z -> LineTokens;
  tokenization_getLanguageId : string;
  tokenization_getLanguageIdAtPosition : Z -> Z -> string;
  getLineContent : Z -> string
}.

(** [IIndentConverter] *)
Record IIndentConverter : Type := {
  shiftIndent : string -> string;
  unshiftIndent : string -> string
}.

(** [ITextModel], as far as this file uses it.  It has the members of an
    [IVirtualModel] and the code passes it where one is expected. *)
Record ITextModel : Type := {
  asVirtualModel :> IVirtualModel;
  model_getLanguageId : string;
  model_getLanguageIdAtPosition : Z -> Z -> string;
  getLineCount : Z
}.

(** The collaborators that are imported from other modules:
    [EditorAutoIndentStrategy.Full], [Range.isEmpty],
    [strings.getLeadingWhitespace], [createScopedLineTokens],
    [getScopedLineTokens] and the three masks of [IndentConsts]. *)
Class Host : Type := {
  Full : Z;
  isEmpty : Range -> bool;
  getLeadingWhitespace : string -> string;
  createScopedLineTokens : LineTokens -> Z -> ScopedLineTokens;
  getScopedLineTokens : ITextModel -> Z -> Z -> ScopedLineTokens;
  INCREASE_MASK : Z;
  DECREASE_MASK : Z;
  INDENT_NEXTLINE_MASK : Z
}.

(** The result of [getInheritIndentForLine]. *)
Record InheritIndent : Type := {
  indentation : string;
  action : option IndentAction.t;
  line : option Z
}.

(** [x.action === IndentAction.Indent] *)
Definition isIndent (a : option IndentAction.t) : bool :=
  match a with
  | Some IndentAction.Indent => true
  | _ => false
  end.

(** The result of [getIndentForEnter]. *)
Record EnterIndent : Type := {
  beforeEnter : string;
  afterEnter : string
}.

(* ------------------------------------------------------------------- *)
(** *** [getStrippedLineForLineAndTokens] *)

(** [brackets?.brackets.map(b => b.open).flat()] *)
Definition bracketsOpen (b : option RichEditBrackets) : option (list string) :=
  option_map (fun bs => flat_map open (rich_brackets bs)) b.

(** [brackets?.brackets.map(b => b.close).flat()] *)
Definition bracketsClose (b : option RichEditBrackets) : option (list string) :=
  option_map (fun bs => flat_map close (rich_brackets bs)) b.

(** [list.forEach(bracket => { s = s.replace(bracket, '_') })], skipped
    when the list is undefined. *)
Definition replaceEach (l : option (list string)) (s : string) : string :=
  match l with
  | Some bs => fold_left (fun acc bracket => JS.replace bracket "_" acc) bs s
  | None => s
  end.

(** One iteration of the loop over the tokens: the state is [(res, offset)]. *)
Definition strip_step (brackets : option RichEditBrackets) (line : string)
           (tokens : Tokens) (st : string * Z) (i : nat) : string * Z :=
  let standardTokenType := getStandardTokenType tokens i in
  let st1 :=
    if StandardTokenType.eqb standardTokenType StandardTokenType.Comment then
      let '(res, offset) := st in
      let startOffset := getStartOffset tokens i in
      let endOffset := getEndOffset tokens i in
      (JS.substr res 0 (offset + startOffset) ++ JS.substr_from res (offset + endOffset),
       offset + (startOffset - endOffset))
    else st in
  if StandardTokenType.eqb standardTokenType StandardTokenType.String
     || StandardTokenType.eqb standardTokenType StandardTokenType.RegEx then
    let '(res, offset) := st1 in
    let startOffset := getStartOffset tokens i in
    let endOffset := getEndOffset tokens i in
    let substringOfToken := JS.substring line startOffset endOffset in
    let modifiedString :=
      replaceEach (bracketsClose brackets)
                  (replaceEach (bracketsOpen brackets) substringOfToken) in
    let offset' := offset + (JS.length substringOfToken - JS.length modifiedString) in
    (JS.substring res 0 (offset' + startOffset) ++ modifiedString
       ++ JS.substring_from res (offset' + endOffset),
     offset')
  else st1.

Definition getStrippedLineForLineAndTokens
           (languageConfigurationService : ILanguageConfigurationService)
           (languageId : string) (line : string) (tokens : Tokens) : string :=
  let brackets :=
    brackets (getLanguageConfiguration languageConfigurationService languageId) in
  fst (fold_left (strip_step brackets line tokens)
                 (seq 0 (getCount tokens)) (line, 0)).

Definition getStrippedLine (languageConfigurationService : ILanguageConfigurationService)
           (model : IVirtualModel) (lineNumber : Z) : string :=
  let lineContent := getLineContent model lineNumber in
  let tokens := tokenization_getLineTokens model lineNumber in
  getStrippedLineForLineAndTokens languageConfigurationService
    (tokenization_getLanguageId model) lineContent tokens.

(** The text one token contributes to the stripped line as the
    description of [getStrippedLineForLineAndTokens] has it: a comment
    gives nothing, a string or a regular expression gives its text with the
    first occurrence of every bracket text replaced by an underscore, any
    other token gives its text. *)
Definition describedPiece (brackets : option RichEditBrackets) (line : string)
           (tokens : Tokens) (i : nat) : string :=
  let text := JS.substring line (getStartOffset tokens i) (getEndOffset tokens i) in
  match getStandardTokenType tokens i with
  | StandardTokenType.Comment => ""
  | StandardTokenType.String | StandardTokenType.RegEx =>
    replaceEach (bracketsClose brackets) (replaceEach (bracketsOpen brackets) text)
  | StandardTokenType.Other => text
  end.

(** The stripped line as described: the pieces of the tokens in order. *)
Definition strippedAsDescribed (brackets : option RichEditBrackets)
           (line : string) (tokens : Tokens) : string :=
  fold_right (fun i rest => describedPiece brackets line tokens i ++ rest) ""
             (seq 0 (getCount tokens)).

(** Where token [i] has to start when the tokens follow one another from
    the start of the line. *)
Definition boundary (tokens : Tokens) (i : nat) : Z :=
  match i with
  | O => 0
  | S j => getEndOffset tokens j
  end.

(** The tokens cover the line from its start to its end without gap or
    overlap, which is how a tokenizer hands them out. *)
Definition covers (tokens : Tokens) (line : string) : Prop :=
  (forall i, (i < getCount tokens)%nat ->
             getStartOffset tokens i = boundary tokens i
             /\ boundary tokens i <= getEndOffset tokens i <= JS.length line)
  /\ boundary tokens (getCount tokens) = JS.length line.

(** Every bracket text is a single character. *)
Definition singleCharacters (brackets : option RichEditBrackets) : Prop :=
  forall bs,
    brackets = Some bs ->
    Forall (fun bracket =>
              Forall (fun text => String.length text = 1%nat) (open bracket)
              /\ Forall (fun text => String.length text = 1%nat) (close bracket))
           (rich_brackets bs).

(* ------------------------------------------------------------------- *)
(** *** [getPrecedingValidLine] *)

(** The three loops over the tokens of a line: every token has type [ty]
    (true of a line without tokens). *)
Definition entirelyIn (ty : StandardTokenType.t) (tokens : Tokens) : bool :=
  forallb (fun i => StandardTokenType.eqb (getStandardTokenType tokens i) ty)
          (seq 0 (getCount tokens)).

(** The loop [for (lastLineNumber = lineNumber - 1; lastLineNumber >= 1;
    lastLineNumber--)]; [k] is the value of [lastLineNumber].  Leaving the
    loop falls through to the final [return -1]. *)
Fixpoint getPrecedingValidLine_loop (model : IVirtualModel)
         (indentRulesSupport : IndentRulesSupport) (languageId : string)
         (k : nat) (resultLineNumber : Z) : Z :=
  match k with
  | O => -1
  | S k' =>
    let lastLineNumber := Z.of_nat (S k') in
    if negb (String.eqb (tokenization_getLanguageIdAtPosition model lastLineNumber 0)
                        languageId)
    then resultLineNumber
    else
      let text := getLineContent model lastLineNumber in
      let tokens := tokenization_getLineTokens model lastLineNumber in
      let entirelyInComment := entirelyIn StandardTokenType.Comment tokens in
      let entirelyInString := entirelyIn StandardTokenType.String tokens in
      let entirelyInRegex := entirelyIn StandardTokenType.RegEx tokens in
      if shouldIgnore indentRulesSupport text || JS.test_spaces text
         || String.eqb text "" || entirelyInComment || entirelyInString
         || entirelyInRegex
      then getPrecedingValidLine_loop model indentRulesSupport languageId k'
                                      lastLineNumber
      else lastLineNumber
  end.

Definition getPrecedingValidLine (model : IVirtualModel) (lineNumber : Z)
           (indentRulesSupport : IndentRulesSupport) : Z :=
  let languageId := tokenization_getLanguageIdAtPosition model lineNumber 0 in
  if 1 <? lineNumber
  then getPrecedingValidLine_loop model indentRulesSupport languageId
                                  (Z.to_nat (lineNumber - 1)) (-1)
  else -1.

(* ------------------------------------------------------------------- *)
(** *** [getInheritIndentForLine] *)

Section Engine.

Context {host : Host}.
Variable languageConfigurationService : ILanguageConfigurationService.

(** [{ indentation: '', action: null }] *)
Definition noIndent : InheritIndent :=
  {| indentation := ""; action := None; line := None |}.

(** The loop [for (priorLineNumber = lineNumber - 1; priorLineNumber > 0;
    priorLineNumber--)]: [true] when it returns from the function (every
    line above is empty), [false] when it breaks or ends. *)
Fixpoint firstNonBlank_loop (model : IVirtualModel) (k : nat) : bool :=
  match k with
  | O => false
  | S k' =>
    if negb (String.eqb (getLineContent model (Z.of_nat (S k'))) "") then false
    else if Z.of_nat (S k') =? 1 then true
    else firstNonBlank_loop model k'
  end.

(** The loop [for (i = previousLine - 1; i > 0; i--)] that looks for the
    line where a run of indent-next-line lines starts: the value of
    [stopLine] after it. *)
Fixpoint stopLine_loop (model : IVirtualModel)
         (indentRulesSupport : IndentRulesSupport) (k : nat) : Z :=
  match k with
  | O => 0
  | S k' =>
    let lineContent :=
      getStrippedLine languageConfigurationService model (Z.of_nat (S k')) in
    if shouldIndentNextLine indentRulesSupport lineContent
    then stopLine_loop model indentRulesSupport k'
    else Z.of_nat (S k')
  end.

(** The loop [for (j = i - 1; j > 0; j--)] inside the search below: it
    strips line [i] at every iteration, not line [j]. *)
Fixpoint stopLine_loop_at (model : IVirtualModel)
         (indentRulesSupport : IndentRulesSupport) (i : Z) (k : nat) : Z :=
  match k with
  | O => 0
  | S k' =>
    let lineContent := getStrippedLine languageConfigurationService model i in
    if shouldIndentNextLine indentRulesSupport lineContent
    then stopLine_loop_at model indentRulesSupport i k'
    else Z.of_nat (S k')
  end.

(** The loop [for (i = precedingUnIgnoredLine; i > 0; i--)] of the branch
    where [honorIntentialIndent] is false, with the [return] that follows
    it. *)
Fixpoint notTemporary_loop (model : IVirtualModel)
         (indentRulesSupport : IndentRulesSupport) (k : nat) : InheritIndent :=
  match k with
  | O =>
    {| indentation := getLeadingWhitespace (getLineContent model 1);
       action := None;
       line := Some 1 |}
  | S k' =>
    let i := Z.of_nat (S k') in
    let lineContent := getStrippedLine languageConfigurationService model i in
    if shouldIncrease indentRulesSupport lineContent then
      {| indentation := getLeadingWhitespace lineContent;
         action := Some IndentAction.Indent;
         line := Some i |}
    else if shouldIndentNextLine indentRulesSupport lineContent then
      let stopLine :=
        stopLine_loop_at model indentRulesSupport i (Z.to_nat (i - 1)) in
      let lineContent :=
        getStrippedLine languageConfigurationService model (stopLine + 1) in
      {| indentation := getLeadingWhitespace lineContent;
         action := None;
         line := Some (stopLine + 1) |}
    else if shouldDecrease indentRulesSupport lineContent then
      {| indentation := getLeadingWhitespace lineContent;
         action := None;
         line := Some i |}
    else notTemporary_loop model indentRulesSupport k'
  end.

Definition getInheritIndentForLine (autoIndent : Z) (model : IVirtualModel)
           (lineNumber : Z) (honorIntentialIndent : bool)
  : option InheritIndent :=
  if autoIndent <? Full then None else
  match indentRulesSupport
          (getLanguageConfiguration languageConfigurationService
                                    (tokenization_getLanguageId model)) with
  | None => None
  | Some indentRulesSupport =>
    if lineNumber <=? 1 then Some noIndent
    else if firstNonBlank_loop model (Z.to_nat (lineNumber - 1)) then Some noIndent
    else
      let precedingUnIgnoredLine :=
        getPrecedingValidLine model lineNumber indentRulesSupport in
      if precedingUnIgnoredLine <? 0 then None
      else if precedingUnIgnoredLine <? 1 then Some noIndent
      else
        let precedingUnIgnoredLineContent :=
          getStrippedLine languageConfigurationService model
                          precedingUnIgnoredLine in
        if shouldIncrease indentRulesSupport precedingUnIgnoredLineContent
           || shouldIndentNextLine indentRulesSupport precedingUnIgnoredLineContent
        then Some {| indentation := getLeadingWhitespace precedingUnIgnoredLineContent;
                     action := Some IndentAction.Indent;
                     line := Some precedingUnIgnoredLine |}
        else if shouldDecrease indentRulesSupport precedingUnIgnoredLineContent
        then Some {| indentation := getLeadingWhitespace precedingUnIgnoredLineContent;
                     action := None;
                     line := Some precedingUnIgnoredLine |}
        else if precedingUnIgnoredLine =? 1
        then Some {| indentation :=
                       getLeadingWhitespace (getLineContent model precedingUnIgnoredLine);
                     action := None;
                     line := Some precedingUnIgnoredLine |}
        else
          let previousLine := precedingUnIgnoredLine - 1 in
          let previousLineIndentMetadata :=
            irs_getIndentMetadata indentRulesSupport
                                  (getLineContent model previousLine) in
          if (JS.band previousLineIndentMetadata
                      (JS.bor INCREASE_MASK DECREASE_MASK) =? 0)
             && negb (JS.band previousLineIndentMetadata INDENT_NEXTLINE_MASK =? 0)
          then
            let stopLine :=
              stopLine_loop model indentRulesSupport (Z.to_nat (previousLine - 1)) in
            Some {| indentation :=
                      getLeadingWhitespace (getLineContent model (stopLine + 1));
                    action := None;
                    line := Some (stopLine + 1) |}
          else if honorIntentialIndent
          then Some {| indentation :=
                         getLeadingWhitespace
                           (getLineContent model precedingUnIgnoredLine);
                       action := None;
                       line := Some precedingUnIgnoredLine |}
          else Some (notTemporary_loop model indentRulesSupport
                                       (Z.to_nat precedingUnIgnoredLine))
  end.

(* ----------------------------------------------------------------- *)
(** *** [getGoodIndentForLine] *)

(** The loop [for (inBetweenLine = inheritLine; inBetweenLine <
    lineNumber - 1; inBetweenLine++)]: the value of
    [shouldApplyEnterRules] after it. *)
Definition shouldApplyEnterRules (virtualModel : IVirtualModel)
           (inheritLine lineNumber : Z) : bool :=
  forallb (fun d =>
             JS.test_blank
               (getStrippedLine languageConfigurationService virtualModel
                                (inheritLine + Z.of_nat d)))
          (seq 0 (Z.to_nat (lineNumber - 1 - inheritLine))).

(** The indentation computed from a non-null [enterResult]. *)
Definition enterIndentation (indentConverter : IIndentConverter)
           (indentRulesSupport : IndentRulesSupport)
           (enterResult : CompleteEnterAction)
           (inheritedLineContent lineContent : string) : string :=
  let indentation := getLeadingWhitespace inheritedLineContent in
  let indentation :=
    if negb (removeText enterResult =? 0)
    then JS.substring indentation 0 (JS.length indentation - removeText enterResult)
    else indentation in
  let indentation :=
    if IndentAction.eqb (indentAction enterResult) IndentAction.Indent
       || IndentAction.eqb (indentAction enterResult) IndentAction.IndentOutdent
    then shiftIndent indentConverter indentation
    else if IndentAction.eqb (indentAction enterResult) IndentAction.Outdent
    then unshiftIndent indentConverter indentation
    else indentation in
  let indentation :=
    if shouldDecrease indentRulesSupport lineContent
    then unshiftIndent indentConverter indentation
    else indentation in
  let indentation :=
    if negb (String.eqb (appendText enterResult) "")
    then indentation ++ appendText enterResult
    else indentation in
  getLeadingWhitespace indentation.

(** The part of [getGoodIndentForLine] guarded by [inheritLine !==
    undefined]: [Some] when it returns from the function. *)
Definition applyEnterRules (autoIndent : Z) (virtualModel : IVirtualModel)
           (richEditSupport : ResolvedLanguageConfiguration)
           (indentRulesSupport : IndentRulesSupport)
           (indentConverter : IIndentConverter)
           (indent : InheritIndent) (lineNumber : Z) (lineContent : string)
  : option string :=
  match line indent with
  | None => None
  | Some inheritLine =>
    if shouldApplyEnterRules virtualModel inheritLine lineNumber then
      let inheritedLineContent :=
        getStrippedLine languageConfigurationService virtualModel inheritLine in
      match onEnter richEditSupport autoIndent "" inheritedLineContent "" with
      | Some enterResult =>
        Some (enterIndentation indentConverter indentRulesSupport enterResult
                               inheritedLineContent lineContent)
      | None => None
      end
    else None
  end.

(** [getLanguageConfiguration] always returns an object, so the test
    [!richEditSupport] never fires and is left out. *)
Definition getGoodIndentForLine (autoIndent : Z) (virtualModel : IVirtualModel)
           (languageId : string) (lineNumber : Z)
           (indentConverter : IIndentConverter) : option string :=
  if autoIndent <? Full then None else
  let richEditSupport :=
    getLanguageConfiguration languageConfigurationService languageId in
  match indentRulesSupport richEditSupport with
  | None => None
  | Some indentRulesSupport =>
    let indent := getInheritIndentForLine autoIndent virtualModel lineNumber true in
    let lineContent :=
      getStrippedLine languageConfigurationService virtualModel lineNumber in
    match indent with
    | None => None
    | Some indent =>
      match applyEnterRules autoIndent virtualModel richEditSupport
                            indentRulesSupport indentConverter indent
                            lineNumber lineContent with
      | Some result => Some result
      | None =>
        if shouldDecrease indentRulesSupport lineContent then
          if isIndent (action indent) then Some (indentation indent)
          else Some (unshiftIndent indentConverter (indentation indent))
        else
          if isIndent (action indent)
          then Some (shiftIndent indentConverter (indentation indent))
          else Some (indentation indent)
      end
    end
  end.

(* ----------------------------------------------------------------- *)
(** *** [getIndentForEnter] *)

(** The test that sets [embeddedLanguage]. *)
Definition inEmbeddedLanguage (lineTokens : LineTokens)
           (scopedLineTokens : ScopedLineTokens) : bool :=
  (0 <? firstCharOffset scopedLineTokens)
  && negb (String.eqb (lineTokens_getLanguageId lineTokens 0)
                      (languageId scopedLineTokens)).

(** The object literal [virtualModel]: the model with the text before the
    cursor in place of the line of the cursor. *)
Definition enterVirtualModel (model : ITextModel) (range : Range)
           (beforeEnterResult : string) : IVirtualModel :=
  {| tokenization_getLineTokens :=
       fun lineNumber => tokenization_getLineTokens model lineNumber;
     tokenization_getLanguageId := model_getLanguageId model;
     tokenization_getLanguageIdAtPosition :=
       fun lineNumber column => model_getLanguageIdAtPosition model lineNumber column;
     getLineContent :=
       fun lineNumber =>
         if lineNumber =? startLineNumber range then beforeEnterResult
         else getLineContent model lineNumber |}.

(** [forceTokenization] only brings the tokens up to date; the model here
    always answers with up-to-date tokens. *)
Definition getIndentForEnter (autoIndent : Z) (model : ITextModel) (range : Range)
           (indentConverter : IIndentConverter) : option EnterIndent :=
  if autoIndent <? Full then None else
  let lineTokens := tokenization_getLineTokens model (startLineNumber range) in
  let scopedLineTokens := createScopedLineTokens lineTokens (startColumn range - 1) in
  let scopedLineText := scoped_getLineContent scopedLineTokens in
  let embeddedLanguage := inEmbeddedLanguage lineTokens scopedLineTokens in
  let beforeEnterText :=
    if embeddedLanguage
    then JS.substr scopedLineText 0
                   (startColumn range - 1 - firstCharOffset scopedLineTokens)
    else JS.substring (lineTokens_getLineContent lineTokens) 0
                      (startColumn range - 1) in
  let afterEnterText :=
    if isEmpty range
    then JS.substr_from scopedLineText
                        (startColumn range - 1 - firstCharOffset scopedLineTokens)
    else
      let endScopedLineTokens :=
        getScopedLineTokens model (endLineNumber range) (endColumn range) in
      JS.substr_from (scoped_getLineContent endScopedLineTokens)
                     (endColumn range - 1 - firstCharOffset scopedLineTokens) in
  match indentRulesSupport
          (getLanguageConfiguration languageConfigurationService
                                    (languageId scopedLineTokens)) with
  | None => None
  | Some indentRulesSupport =>
    let beforeEnterResult := beforeEnterText in
    let beforeEnterIndent := getLeadingWhitespace beforeEnterText in
    let virtualModel := enterVirtualModel model range beforeEnterResult in
    let currentLineIndent :=
      getLeadingWhitespace (lineTokens_getLineContent lineTokens) in
    let afterEnterAction :=
      getInheritIndentForLine autoIndent virtualModel
                              (startLineNumber range + 1) true in
    match afterEnterAction with
    | None =>
      let beforeEnter :=
        if embeddedLanguage then currentLineIndent else beforeEnterIndent in
      Some {| beforeEnter := beforeEnter; afterEnter := beforeEnter |}
    | Some afterEnterAction =>
      let afterEnterIndent :=
        if embeddedLanguage then currentLineIndent
        else indentation afterEnterAction in
      let afterEnterIndent :=
        if isIndent (action afterEnterAction)
        then shiftIndent indentConverter afterEnterIndent
        else afterEnterIndent in
      let afterEnterIndent :=
        if shouldDecrease indentRulesSupport afterEnterText
        then unshiftIndent indentConverter afterEnterIndent
        else afterEnterIndent in
      Some {| beforeEnter :=
                if embeddedLanguage then currentLineIndent else beforeEnterIndent;
              afterEnter := afterEnterIndent |}
    end
  end.

(* ----------------------------------------------------------------- *)
(** *** [getIndentActionForType] *)

(** [beforeTypeText] *)
Definition beforeTypeText (scopedLineTokens : ScopedLineTokens) (range : Range)
  : string :=
  JS.substr (scoped_getLineContent scopedLineTokens) 0
            (startColumn range - 1 - firstCharOffset scopedLineTokens).

(** [afterTypeText], with its selection support. *)
Definition afterTypeText (model : ITextModel)
           (scopedLineTokens : ScopedLineTokens) (range : Range) : string :=
  if isEmpty range
  then JS.substr_from (scoped_getLineContent scopedLineTokens)
                      (startColumn range - 1 - firstCharOffset scopedLineTokens)
  else
    let endScopedLineTokens :=
      getScopedLineTokens model (endLineNumber range) (endColumn range) in
    JS.substr_from (scoped_getLineContent endScopedLineTokens)
                   (endColumn range - 1 - firstCharOffset scopedLineTokens).

Definition getIndentActionForType (autoIndent : Z) (model : ITextModel)
           (range : Range) (ch : string) (indentConverter : IIndentConverter)
  : option string :=
  if autoIndent <? Full then None else
  let scopedLineTokens :=
    getScopedLineTokens model (startLineNumber range) (startColumn range) in
  if negb (firstCharOffset scopedLineTokens =? 0) then None else
  match indentRulesSupport
          (getLanguageConfiguration languageConfigurationService
                                    (languageId scopedLineTokens)) with
  | None => None
  | Some indentRulesSupport =>
    let beforeTypeText := beforeTypeText scopedLineTokens range in
    let afterTypeText := afterTypeText model scopedLineTokens range in
    let fullText := beforeTypeText ++ afterTypeText in
    let fullTextWithCharacter := beforeTypeText ++ ch ++ afterTypeText in
    if negb (shouldDecrease indentRulesSupport fullText)
       && shouldDecrease indentRulesSupport fullTextWithCharacter
    then
      match getInheritIndentForLine autoIndent model (startLineNumber range) false with
      | None => None
      | Some r =>
        if negb (isIndent (action r))
        then Some (unshiftIndent indentConverter (indentation r))
        else Some (indentation r)
      end
    else None
  end.

(* ----------------------------------------------------------------- *)
(** *** [getIndentMetadata] *)

Definition getIndentMetadata (model : ITextModel) (lineNumber : Z) : option Z :=
  match indentRulesSupport
          (getLanguageConfiguration languageConfigurationService
                                    (model_getLanguageId model)) with
  | None => None
  | Some indentRulesSupport =>
    if (lineNumber <? 1) || (getLineCount model <? lineNumber) then None
    else Some (irs_getIndentMetadata indentRulesSupport
                                     (getLineContent model lineNumber))
  end.

End Engine.

End AutoIndent.

(* ===================================================================== *)
(** ** JavaScript arrays *)
(* ===================================================================== *)

Module JSArray.

Section Sort.

Variable A : Type.
Variable compareFn : A -> A -> Z.

(** Put [x] before the first element it does not have to follow. *)
Fixpoint insert (x : A) (l : list A) : list A :=
  match l with
  | [] => [x]
  | y :: l' => if compareFn x y <=? 0 then x :: y :: l' else y :: insert x l'
  end.

(** [l.sort(compareFn)].  The sort of an array is stable, and for a
    comparison that orders the elements by a numeric key the stable
    result is unique: it is the one insertion from the right builds. *)
Definition sort (l : list A) : list A := fold_right insert [] l.

End Sort.

Arguments insert {A} compareFn x l.
Arguments sort {A} compareFn l.

(** The pairs [(index, element)] that [forEach] and [map] visit. *)
Definition entries {A : Type} (l : list A) : list (nat * A) :=
  combine (seq 0 (List.length l)) l.

End JSArray.

(* ===================================================================== *)
(** ** The content-hover controller *)
(* ===================================================================== *)

Module ContentHover.

(** [HoverStartMode] *)
Inductive HoverStartMode : Set := Delayed | Immediate.

(** [HoverStartSource] *)
Inductive HoverStartSource : Set := Mouse | Keyboard.

(** A DOM node. *)
Definition HTMLElement : Set := nat.

(** The mouse targets the controller tells apart; pixel distances are
    rationals. *)
Inductive MouseTarget : Type :=
| CONTENT_TEXT (range : Range)
| CONTENT_EMPTY (range : Range) (isAfterLines : bool)
                (horizontalDistanceToText : option Q)
| OTHER_TARGET.

(** [IEditorMouseEvent]: [event.posx], [event.posy] and [target]. *)
Record IEditorMouseEvent : Type := {
  posx : Q;
  posy : Q;
  target : MouseTarget
}.

(** The view model of the editor, as [computeHoverRanges] uses it. *)
Record ViewModel : Type := {
  convertModelRangeToViewRange : Range -> Range;
  getLineMinColumn : Z -> Z;
  convertViewPositionToModelPosition : Position -> Position
}.

(** [ICodeEditor]: the options read and the view model; [hasModel()] is
    true when there is a view model. *)
Record ICodeEditor : Type := {
  hover_sticky : bool;
  hover_above : bool;
  typicalHalfwidthCharacterWidth : Q;
  _getViewModel : option ViewModel
}.

(** [IHoverPart]; [owner] is a reference to the participant that made the
    part, [detail] stands for what the participant keeps in it. *)
Record IHoverPart : Type := {
  owner : nat;
  range : Range;
  forceShowAtRange : option bool;
  isBeforeContent : option bool;
  detail : nat
}.

(** Anchors and the operations of [Range] the controller calls. *)
Class AnchorHost : Type := {
  HoverAnchor : Type;
  priority : HoverAnchor -> Z;
  anchor_range : HoverAnchor -> Range;
  initialMousePosX : HoverAnchor -> option Q;
  initialMousePosY : HoverAnchor -> option Q;
  equals : HoverAnchor -> HoverAnchor -> bool;
  canAdoptVisibleHover : HoverAnchor -> HoverAnchor -> option Position -> bool;
  HoverRangeAnchor : Z -> Range -> option Q -> option Q -> HoverAnchor;
  plusRange : Range -> Range -> Range;
  getStartPosition : Range -> Position;
  ColorPickerWidget : Type
}.

Section Types.

Context {anchors : AnchorHost}.

(** What a participant's rendering can reach through the render context:
    the fragment, the status bar and [setColorPicker]. *)
Record Rendering : Type := {
  fragment : list HTMLElement;
  statusBar_hasContent : bool;
  colorPicker : option ColorPickerWidget
}.

(** What a participant class defines. *)
Record ParticipantClass : Type := {
  hoverOrdinal : Z;
  suggestHoverAnchor : option (IEditorMouseEvent -> option HoverAnchor);
  createLoadingMessage : option (HoverAnchor -> option IHoverPart);
  renderHoverParts : Rendering -> list IHoverPart -> Rendering * list HTMLElement
}.

(** [IEditorHoverParticipant]: an instance, with its identity. *)
Record IEditorHoverParticipant : Type := {
  ref : nat;
  class :> ParticipantClass
}.

(** [RenderedPart] *)
Inductive RenderedPart : Type :=
| RenderedHoverPart (element : option HTMLElement) (hoverPart : IHoverPart)
                    (participant : IEditorHoverParticipant)
| RenderedHoverStatusBar (element : HTMLElement).

(** [HoverResult] of [contentHoverTypes], with its identity. *)
Record HoverResult : Type := {
  result_ref : nat;
  anchor : HoverAnchor;
  messages : list IHoverPart;
  isComplete : bool
}.

(** The result a [HoverOperation] fires. *)
Record OperationResult : Type := {
  value : list IHoverPart;
  op_isComplete : bool;
  hasLoadingMessage : bool
}.

(** The fields of [ContentHoverComputer] the controller sets. *)
Record ContentHoverComputer : Type := {
  computer_anchor : option HoverAnchor;
  shouldFocus : bool;
  source : HoverStartSource;
  insistOnKeepingHoverVisible : bool
}.

(** [ContentHoverVisibleData], without its disposables. *)
Record ContentHoverVisibleData : Type := {
  data_initialMousePosX : option Q;
  data_initialMousePosY : option Q;
  data_colorPicker : option ColorPickerWidget;
  showAtPosition : Position;
  showAtSecondaryPosition : Position;
  preferAbove : bool;
  stoleFocus : bool;
  data_source : HoverStartSource;
  data_isBeforeContent : bool
}.

(** The calls made on the [HoverOperation]. *)
Inductive OperationCall : Type :=
| Cancel
| Start (mode : HoverStartMode).

(** Modelled from the spec: the class [HoverOperation] is not among the
    sources; the spec has it fetch asynchronously, one fetch at a time, by
    cancel-and-replace.  So, for the fetches in flight after a sequence of
    calls, [cancel] drops what is running and every [start] is counted as
    one more fetch. *)
Definition fetchesInFlight (calls : list OperationCall) : nat :=
  fold_left (fun n call => match call with
                           | Cancel => O
                           | Start _ => S n
                           end) calls O.

End Types.

(** The widget, the element of a status bar and [HoverResult.filter]. *)
Class WidgetHost {anchors : AnchorHost} : Type := {
  ContentHoverWidget : Type;
  position : ContentHoverWidget -> option Position;
  isResizing : ContentHoverWidget -> bool;
  isMouseGettingCloser : ContentHoverWidget -> Q -> Q -> bool * ContentHoverWidget;
  widget_hide : ContentHoverWidget -> ContentHoverWidget;
  showAt : ContentHoverWidget -> list HTMLElement -> ContentHoverVisibleData
           -> ContentHoverWidget;
  statusBar_hoverElement : HTMLElement;
  filter : HoverResult -> HoverAnchor -> HoverResult
}.

Section Controller.

Context {anchors : AnchorHost} {widgets : WidgetHost}.

(** The fields of a [ContentHoverController]; [_hoverOperation] holds the
    calls made on the hover operation, oldest first, and [nextRef] is the
    identity the next [new HoverResult] gets.  DOM listeners (with
    [_focusedHoverPartIndex], which only they assign), decorations,
    disposables and the shortcut [_markdownHoverParticipant] are outside the
    model. *)
Record State : Type := {
  _currentResult : option HoverResult;
  _renderedParts : list RenderedPart;
  _colorWidget : option ColorPickerWidget;
  _computer : ContentHoverComputer;
  _widget : ContentHoverWidget;
  _hoverOperation : list OperationCall;
  _participants : list IEditorHoverParticipant;
  _editor : ICodeEditor;
  nextRef : nat
}.

Definition set_currentResult (r : option HoverResult) (s : State) : State :=
  {| _currentResult := r;
     _renderedParts := _renderedParts s;
     _colorWidget := _colorWidget s;
     _computer := _computer s;
     _widget := _widget s;
     _hoverOperation := _hoverOperation s;
     _participants := _participants s;
     _editor := _editor s;
     nextRef := nextRef s |}.

Definition set_rendered (parts : list RenderedPart)
           (color : option ColorPickerWidget) (s : State) : State :=
  {| _currentResult := _currentResult s;
     _renderedParts := parts;
     _colorWidget := color;
     _computer := _computer s;
     _widget := _widget s;
     _hoverOperation := _hoverOperation s;
     _participants := _participants s;
     _editor := _editor s;
     nextRef := nextRef s |}.

Definition set_computer (c : ContentHoverComputer) (s : State) : State :=
  {| _currentResult := _currentResult s;
     _renderedParts := _renderedParts s;
     _colorWidget := _colorWidget s;
     _computer := c;
     _widget := _widget s;
     _hoverOperation := _hoverOperation s;
     _participants := _participants s;
     _editor := _editor s;
     nextRef := nextRef s |}.

Definition set_widget (w : ContentHoverWidget) (s : State) : State :=
  {| _currentResult := _currentResult s;
     _renderedParts := _renderedParts s;
     _colorWidget := _colorWidget s;
     _computer := _computer s;
     _widget := w;
     _hoverOperation := _hoverOperation s;
     _participants := _participants s;
     _editor := _editor s;
     nextRef := nextRef s |}.

(** A call on [this._hoverOperation]. *)
Definition call_hoverOperation (c : OperationCall) (s : State) : State :=
  {| _currentResult := _currentResult s;
     _renderedParts := _renderedParts s;
     _colorWidget := _colorWidget s;
     _computer := _computer s;
     _widget := _widget s;
     _hoverOperation := (_hoverOperation s ++ [c])%list;
     _participants := _participants s;
     _editor := _editor s;
     nextRef := nextRef s |}.

Definition set_nextRef (n : nat) (s : State) : State :=
  {| _currentResult := _currentResult s;
     _renderedParts := _renderedParts s;
     _colorWidget := _colorWidget s;
     _computer := _computer s;
     _widget := _widget s;
     _hoverOperation := _hoverOperation s;
     _participants := _participants s;
     _editor := _editor s;
     nextRef := n |}.

(** The environment changes the widget and the editor options behind the
    back of the controller. *)
Definition set_environment (w : ContentHoverWidget) (e : ICodeEditor)
           (s : State) : State :=
  {| _currentResult := _currentResult s;
     _renderedParts := _renderedParts s;
     _colorWidget := _colorWidget s;
     _computer := _computer s;
     _widget := w;
     _hoverOperation := _hoverOperation s;
     _participants := _participants s;
     _editor := e;
     nextRef := nextRef s |}.

(* ----------------------------------------------------------------- *)
(** *** The constructor *)

(** [this._participants] after the loop over the registry: one instance
    per registered class, each a new object. *)
Definition instantiate (registry : list ParticipantClass)
  : list IEditorHoverParticipant :=
  map (fun e => {| ref := fst e; class := snd e |}) (JSArray.entries registry).

(** [this._participants] after [sort((p1, p2) => p1.hoverOrdinal -
    p2.hoverOrdinal)]. *)
Definition sortedParticipants (registry : list ParticipantClass)
  : list IEditorHoverParticipant :=
  JSArray.sort (fun p1 p2 : IEditorHoverParticipant =>
                  hoverOrdinal p1 - hoverOrdinal p2)
               (instantiate registry).

Definition constructor (editor : ICodeEditor) (widget : ContentHoverWidget)
           (computer : ContentHoverComputer)
           (registry : list ParticipantClass) : State :=
  {| _currentResult := None;
     _renderedParts := [];
     _colorWidget := None;
     _computer := computer;
     _widget := widget;
     _hoverOperation := [];
     _participants := sortedParticipants registry;
     _editor := editor;
     nextRef := O |}.

(* ----------------------------------------------------------------- *)
(** *** [computeHoverRanges] *)

Record HoverRanges : Type := {
  ranges_showAtPosition : Position;
  ranges_showAtSecondaryPosition : Position;
  highlightRange : Range
}.

(** [startColumnBoundary] *)
Definition startColumnBoundary (editor : ICodeEditor) (anchorRange : Range) : Z :=
  match _getViewModel editor with
  | Some viewModel =>
    let anchorViewRange := convertModelRangeToViewRange viewModel anchorRange in
    let anchorViewRangeStart :=
      {| lineNumber := startLineNumber anchorViewRange;
         column := getLineMinColumn viewModel (startLineNumber anchorViewRange) |} in
    column (convertViewPositionToModelPosition viewModel anchorViewRangeStart)
  | None => 1
  end.

(** The body of [for (const msg of messages)]; the state is
    [(highlightRange, renderStartColumn, forceShowAtRange)]. *)
Definition ranges_step (anchorLineNumber boundary : Z)
           (st : Range * Z * option Range) (msg : IHoverPart)
  : Range * Z * option Range :=
  let '(highlightRange, renderStartColumn, forceShowAt) := st in
  let highlightRange := plusRange highlightRange (range msg) in
  let renderStartColumn :=
    if (startLineNumber (range msg) =? anchorLineNumber)
       && (endLineNumber (range msg) =? anchorLineNumber)
    then Z.max (Z.min renderStartColumn (startColumn (range msg))) boundary
    else renderStartColumn in
  let forceShowAt :=
    match forceShowAtRange msg with
    | Some true => Some (range msg)
    | _ => forceShowAt
    end in
  (highlightRange, renderStartColumn, forceShowAt).

(** [None] stands for the [TypeError] that [messages[0].range] throws on
    an empty array. *)
Definition computeHoverRanges (editor : ICodeEditor) (anchorRange : Range)
           (messages : list IHoverPart) : option HoverRanges :=
  let boundary := startColumnBoundary editor anchorRange in
  let anchorLineNumber := startLineNumber anchorRange in
  match messages with
  | [] => None
  | first :: _ =>
    let '(highlightRange, renderStartColumn, forceShowAt) :=
      fold_left (ranges_step anchorLineNumber boundary) messages
                (range first, startColumn anchorRange, None) in
    let showAtPosition :=
      match forceShowAt with
      | Some r => getStartPosition r
      | None => {| lineNumber := anchorLineNumber;
                   column := startColumn anchorRange |}
      end in
    let showAtSecondaryPosition :=
      match forceShowAt with
      | Some r => getStartPosition r
      | None => {| lineNumber := anchorLineNumber; column := renderStartColumn |}
      end in
    Some {| ranges_showAtPosition := showAtPosition;
            ranges_showAtSecondaryPosition := showAtSecondaryPosition;
            highlightRange := highlightRange |}
  end.

(* ----------------------------------------------------------------- *)
(** *** Rendering *)

(** [hoverParts.filter(msg => msg.owner === participant)] *)
Definition hoverPartsFor (participant : IEditorHoverParticipant)
           (hoverParts : list IHoverPart) : list IHoverPart :=
  List.filter (fun msg => Nat.eqb (owner msg) (ref participant)) hoverParts.

(** What the [forEach] pushes for one participant. *)
Definition renderedFor (participant : IEditorHoverParticipant)
           (elements : list HTMLElement)
           (hoverPartsForParticipant : list IHoverPart) : list RenderedPart :=
  map (fun e => RenderedHoverPart (nth_error elements (fst e)) (snd e) participant)
      (JSArray.entries hoverPartsForParticipant).

(** The body of [for (const participant of this._participants)]. *)
Definition render_step (hoverParts : list IHoverPart)
           (st : Rendering * list RenderedPart)
           (participant : IEditorHoverParticipant)
  : Rendering * list RenderedPart :=
  let '(context, renderedHoverParts) := st in
  let hoverPartsForParticipant := hoverPartsFor participant hoverParts in
  if Nat.eqb (List.length hoverPartsForParticipant) 0 then st
  else
    let '(context', elements) :=
      renderHoverParts participant context hoverPartsForParticipant in
    (context',
     (renderedHoverParts
        ++ renderedFor participant elements hoverPartsForParticipant)%list).

Definition _renderHoverPartsWithContext
           (participants : list IEditorHoverParticipant)
           (context : Rendering) (hoverParts : list IHoverPart)
  : Rendering * list RenderedPart :=
  fold_left (render_step hoverParts) participants (context, []).

(** The fragment after the status bar was appended, and the rendered
    status bar, if it has content. *)
Definition _renderStatusBar (context : Rendering)
  : Rendering * option RenderedPart :=
  if negb (statusBar_hasContent context) then (context, None)
  else
    ({| fragment := (fragment context ++ [statusBar_hoverElement])%list;
        statusBar_hasContent := statusBar_hasContent context;
        colorPicker := colorPicker context |},
     Some (RenderedHoverStatusBar statusBar_hoverElement)).

(** The context starts with the empty fragment, a new status bar and the
    colour picker the controller holds. *)
Definition _renderHoverPartsInFragment (hoverParts : list IHoverPart)
           (s : State) : Rendering * State :=
  let context := {| fragment := [];
                    statusBar_hasContent := false;
                    colorPicker := _colorWidget s |} in
  let '(context, renderedHoverParts) :=
    _renderHoverPartsWithContext (_participants s) context hoverParts in
  let '(context, renderedStatusBar) := _renderStatusBar context in
  let parts :=
    match renderedStatusBar with
    | Some bar => (renderedHoverParts ++ [bar])%list
    | None => renderedHoverParts
    end in
  (context, set_rendered parts (colorPicker context) s).

(** [m.isBeforeContent], as a condition *)
Definition truthy (b : option bool) : bool :=
  match b with
  | Some true => true
  | _ => false
  end.

(** The call of [computeHoverRanges] is on a list that is not empty:
    [_setCurrentResult] renders results that have messages. *)
Definition _renderHoverParts (anchor : HoverAnchor) (hoverParts : list IHoverPart)
           (s : State) : State :=
  let '(context, s) := _renderHoverPartsInFragment hoverParts s in
  match fragment context with
  | [] => s
  | _ :: _ =>
    match computeHoverRanges (_editor s) (anchor_range anchor) hoverParts with
    | None => s
    | Some ranges =>
      let isBeforeContent := existsb (fun m => truthy (isBeforeContent m)) hoverParts in
      set_widget
        (showAt (_widget s) (fragment context)
                {| data_initialMousePosX := initialMousePosX anchor;
                   data_initialMousePosY := initialMousePosY anchor;
                   data_colorPicker := _colorWidget s;
                   showAtPosition := ranges_showAtPosition ranges;
                   showAtSecondaryPosition := ranges_showAtSecondaryPosition ranges;
                   preferAbove := hover_above (_editor s);
                   stoleFocus := shouldFocus (_computer s);
                   data_source := source (_computer s);
                   data_isBeforeContent := isBeforeContent |})
        s
    end
  end.

(* ----------------------------------------------------------------- *)
(** *** [_setCurrentResult], [_withResult] and the result listener *)

(** [this._currentResult === hoverResult] *)
Definition sameResult (a b : option HoverResult) : bool :=
  match a, b with
  | None, None => true
  | Some x, Some y => Nat.eqb (result_ref x) (result_ref y)
  | _, _ => false
  end.

Definition _setCurrentResult (hoverResult : option HoverResult) (s : State)
  : State :=
  if sameResult (_currentResult s) hoverResult then s
  else
    let hoverResult :=
      match hoverResult with
      | Some r => if Nat.eqb (List.length (messages r)) 0 then None else Some r
      | None => None
      end in
    let s := set_currentResult hoverResult s in
    match _currentResult s with
    | Some r => _renderHoverParts (anchor r) (messages r) s
    | None => set_widget (widget_hide (_widget s)) s
    end.

(** The loop of [_addLoadingMessage] over the participants. *)
Fixpoint firstLoadingMessage (a : HoverAnchor)
         (participants : list IEditorHoverParticipant) : option IHoverPart :=
  match participants with
  | [] => None
  | participant :: rest =>
    match createLoadingMessage participant with
    | Some create =>
      match create a with
      | Some loadingMessage => Some loadingMessage
      | None => firstLoadingMessage a rest
      end
    | None => firstLoadingMessage a rest
    end
  end.

Definition _addLoadingMessage (result : list IHoverPart) (s : State)
  : list IHoverPart :=
  match computer_anchor (_computer s) with
  | Some a =>
    match firstLoadingMessage a (_participants s) with
    | Some loadingMessage => (result ++ [loadingMessage])%list
    | None => result
    end
  | None => result
  end.

(** [this._widget.position && this._currentResult]: the result on show,
    if the hover is visible. *)
Definition shownResult (s : State) : option HoverResult :=
  match position (_widget s) with
  | Some _ => _currentResult s
  | None => None
  end.

Definition isShown (s : State) : bool :=
  match shownResult s with
  | Some _ => true
  | None => false
  end.

Definition _withResult (hoverResult : HoverResult) (s : State) : State :=
  if match shownResult s with
     | Some current => isComplete current
     | None => false
     end
  then
    if negb (isComplete hoverResult) then s
    else if insistOnKeepingHoverVisible (_computer s)
            && Nat.eqb (List.length (messages hoverResult)) 0
    then s
    else _setCurrentResult (Some hoverResult) s
  else _setCurrentResult (Some hoverResult) s.

(** The listener of [this._hoverOperation.onResult]. *)
Definition onResult (result : OperationResult) (s : State) : State :=
  match computer_anchor (_computer s) with
  | None => s
  | Some a =>
    let messages :=
      if hasLoadingMessage result then _addLoadingMessage (value result) s
      else value result in
    let hoverResult := {| result_ref := nextRef s;
                          anchor := a;
                          messages := messages;
                          isComplete := op_isComplete result |} in
    _withResult hoverResult (set_nextRef (S (nextRef s)) s)
  end.

(** The listener of [TokenizationRegistry.onDidChange]. *)
Definition onTokenizationChange (s : State) : State :=
  if isShown s then _setCurrentResult (_currentResult s) s else s.

(* ----------------------------------------------------------------- *)
(** *** Starting, updating and hiding *)

(** [this._computer.anchor && this._computer.anchor.equals(anchor)] *)
Definition sameComputerAnchor (a : HoverAnchor) (s : State) : bool :=
  match computer_anchor (_computer s) with
  | Some current => equals current a
  | None => false
  end.

Definition _startHoverOperationIfNecessary (a : HoverAnchor)
           (mode : HoverStartMode) (src : HoverStartSource) (focus : bool)
           (insist : bool) (s : State) : State :=
  if sameComputerAnchor a s then s
  else
    let s := call_hoverOperation Cancel s in
    let s := set_computer {| computer_anchor := Some a;
                             shouldFocus := focus;
                             source := src;
                             insistOnKeepingHoverVisible := insist |} s in
    call_hoverOperation (Start mode) s.

(** [isGettingCloser]: the widget is asked only when the hover is sticky
    and there is a mouse event. *)
Definition isGettingCloser (mouseEvent : option IEditorMouseEvent) (s : State)
  : bool * State :=
  if hover_sticky (_editor s) then
    match mouseEvent with
    | Some e =>
      let '(closer, w) := isMouseGettingCloser (_widget s) (posx e) (posy e) in
      (closer, set_widget w s)
    | None => (false, s)
    end
  else (false, s).

(** The widget is read again after [isMouseGettingCloser]; the current
    result is the one the first test saw, nothing in between assigns
    it. *)
Definition _startShowingOrUpdateHover (a : option HoverAnchor)
           (mode : HoverStartMode) (src : HoverStartSource) (focus : bool)
           (mouseEvent : option IEditorMouseEvent) (s : State) : bool * State :=
  match shownResult s with
  | None =>
    match a with
    | Some a' => (true, _startHoverOperationIfNecessary a' mode src focus false s)
    | None => (false, s)
    end
  | Some current =>
    let '(closer, s) := isGettingCloser mouseEvent s in
    if closer then
      match a with
      | Some a' => (true, _startHoverOperationIfNecessary a' mode src focus true s)
      | None => (true, s)
      end
    else
      match a with
      | None => (false, _setCurrentResult None s)
      | Some a' =>
        if equals (anchor current) a' then (true, s)
        else if negb (canAdoptVisibleHover a' (anchor current)
                                           (position (_widget s)))
        then
          let s := _setCurrentResult None s in
          (true, _startHoverOperationIfNecessary a' mode src focus false s)
        else
          let s := _setCurrentResult (Some (filter current a')) s in
          (true, _startHoverOperationIfNecessary a' mode src focus false s)
      end
  end.

(** The anchors the participants suggest, in the order of the
    participants. *)
Fixpoint suggestedAnchors (mouseEvent : IEditorMouseEvent)
         (participants : list IEditorHoverParticipant) : list HoverAnchor :=
  match participants with
  | [] => []
  | participant :: rest =>
    match suggestHoverAnchor participant with
    | Some suggest =>
      match suggest mouseEvent with
      | Some a => a :: suggestedAnchors mouseEvent rest
      | None => suggestedAnchors mouseEvent rest
      end
    | None => suggestedAnchors mouseEvent rest
    end
  end.

(** [a < b] on pixel distances *)
Definition Qltb (a b : Q) : bool :=
  if Qlt_le_dec a b then true else false.

(** The range anchors pushed for the mouse target. *)
Definition targetAnchors (editor : ICodeEditor) (mouseEvent : IEditorMouseEvent)
  : list HoverAnchor :=
  match target mouseEvent with
  | CONTENT_TEXT r =>
    [HoverRangeAnchor 0 r (Some (posx mouseEvent)) (Some (posy mouseEvent))]
  | CONTENT_EMPTY r isAfterLines horizontalDistanceToText =>
    let epsilon := (typicalHalfwidthCharacterWidth editor / 2)%Q in
    match horizontalDistanceToText with
    | Some distance =>
      if negb isAfterLines && Qltb distance epsilon
      then [HoverRangeAnchor 0 r (Some (posx mouseEvent)) (Some (posy mouseEvent))]
      else []
    | None => []
    end
  | OTHER_TARGET => []
  end.

(** [anchorCandidates] before it is sorted. *)
Definition anchorCandidates (mouseEvent : IEditorMouseEvent) (s : State)
  : list HoverAnchor :=
  (suggestedAnchors mouseEvent (_participants s)
     ++ targetAnchors (_editor s) mouseEvent)%list.

(** [anchorCandidates.sort((a, b) => b.priority - a.priority)] *)
Definition sortByPriority (candidates : list HoverAnchor) : list HoverAnchor :=
  JSArray.sort (fun a b => priority b - priority a) candidates.

Definition showsOrWillShow (mouseEvent : IEditorMouseEvent) (s : State)
  : bool * State :=
  if isResizing (_widget s) then (true, s)
  else
    let anchorCandidates := anchorCandidates mouseEvent s in
    match anchorCandidates with
    | [] => _startShowingOrUpdateHover None Delayed Mouse false (Some mouseEvent) s
    | _ :: _ =>
      _startShowingOrUpdateHover (hd_error (sortByPriority anchorCandidates))
                                 Delayed Mouse false (Some mouseEvent) s
    end.

Definition startShowingAtRange (r : Range) (mode : HoverStartMode)
           (src : HoverStartSource) (focus : bool) (s : State) : State :=
  snd (_startShowingOrUpdateHover (Some (HoverRangeAnchor 0 r None None))
                                  mode src focus None s).

Definition hide (s : State) : State :=
  let s := set_computer {| computer_anchor := None;
                           shouldFocus := shouldFocus (_computer s);
                           source := source (_computer s);
                           insistOnKeepingHoverVisible :=
                             insistOnKeepingHoverVisible (_computer s) |} s in
  let s := call_hoverOperation Cancel s in
  _setCurrentResult None s.

(* ----------------------------------------------------------------- *)
(** *** The life of a controller *)

(** What can happen to a controller: a call of a public method, an event
    it listens to, or a change of the widget and the editor made by
    somebody else. *)
Inductive Event : Type :=
| ShowsOrWillShow (mouseEvent : IEditorMouseEvent)
| StartShowingAtRange (r : Range) (mode : HoverStartMode)
                      (src : HoverStartSource) (focus : bool)
| Hide
| OnResult (result : OperationResult)
| OnTokenizationChange
| Environment (w : ContentHoverWidget) (e : ICodeEditor).

Definition handle (ev : Event) (s : State) : State :=
  match ev with
  | ShowsOrWillShow mouseEvent => snd (showsOrWillShow mouseEvent s)
  | StartShowingAtRange r mode src focus => startShowingAtRange r mode src focus s
  | Hide => hide s
  | OnResult result => onResult result s
  | OnTokenizationChange => onTokenizationChange s
  | Environment w e => set_environment w e s
  end.

(** The states a controller built from [registry] goes through. *)
Inductive reachable (registry : list ParticipantClass) : State -> Prop :=
| reachable_new : forall editor widget computer,
    reachable registry (constructor editor widget computer registry)
| reachable_step : forall s ev,
    reachable registry s -> reachable registry (handle ev s).

(* ----------------------------------------------------------------- *)
(** *** Notions used to state the properties *)

(** The ordinals of the participants of the hover parts of a list of
    rendered parts, in the order of the list. *)
Definition renderedOrdinals (parts : list RenderedPart) : list Z :=
  flat_map (fun part => match part with
                        | RenderedHoverPart _ _ participant =>
                          [hoverOrdinal participant]
                        | RenderedHoverStatusBar _ => []
                        end) parts.

(** [group] is what one participant rendered of [hoverParts]: its own hover
    parts, in their order, each with this participant (nothing when it owns
    none). *)
Definition groupOf (hoverParts : list IHoverPart)
           (participant : IEditorHoverParticipant) (group : list RenderedPart)
  : Prop :=
  exists elements,
    group = renderedFor participant elements (hoverPartsFor participant hoverParts).

(** The context a render pass starts from. *)
Definition newContext (s : State) : Rendering :=
  {| fragment := [];
     statusBar_hasContent := false;
     colorPicker := _colorWidget s |}.

(** [msg.forceShowAtRange], as a condition *)
Definition forcesRange (msg : IHoverPart) : bool := truthy (forceShowAtRange msg).

(** [parts] is what a render pass over [participants] leaves in
    [_renderedParts]: one group per participant, in the order of the
    participants, and after the groups the status bar or nothing. *)
Definition renderedBy (participants : list IEditorHoverParticipant)
           (parts : list RenderedPart) : Prop :=
  exists hoverParts groups bar,
    parts = (List.concat groups ++ bar)%list
    /\ Forall2 (groupOf hoverParts) participants groups
    /\ (bar = [] \/ bar = [RenderedHoverStatusBar statusBar_hoverElement]).

(** How the calls on the hover operation grow: by a [cancel], or by a
    [cancel] directly followed by a [start]. *)
Inductive grows (calls : list OperationCall) : list OperationCall -> Prop :=
| grows_same : grows calls calls
| grows_cancel : forall calls',
    grows calls calls' -> grows calls (calls' ++ [Cancel])%list
| grows_restart : forall calls' mode,
    grows calls calls' -> grows calls (calls' ++ [Cancel; Start mode])%list.

(** What every piece of the controller guarantees of the state it leaves:
    the participants are the same, the calls have grown, and the rendered
    parts are the old ones or those of a render pass. *)
Definition evolves (s s' : State) : Prop :=
  _participants s' = _participants s
  /\ grows (_hoverOperation s) (_hoverOperation s')
  /\ (_renderedParts s' = _renderedParts s
      \/ renderedBy (_participants s) (_renderedParts s')).

(** At no time, that is after no prefix of the calls made so far, is more
    than one fetch in flight. *)
Definition everAtMostOne (calls : list OperationCall) : Prop :=
  forall n, (fetchesInFlight (firstn n calls) <= 1)%nat.

(** The participants are in ascending order of [hoverOrdinal]. *)
Definition ascending (participants : list IEditorHoverParticipant) : Prop :=
  StronglySorted (fun p q : IEditorHoverParticipant =>
                    hoverOrdinal p <= hoverOrdinal q) participants.

End Controller.

End ContentHover.

(* ===================================================================== *)
(** ** A small editor to run the code on *)
(* ===================================================================== *)

Module Sample.

Import AutoIndent.

(** A line with the given tokens [(type, start, end)]. *)
Definition tokensOf (l : list (StandardTokenType.t * Z * Z)) : Tokens :=
  {| getCount := List.length l;
     getStandardTokenType := fun i => fst (fst (nth i l (StandardTokenType.Other, 0, 0)));
     getStartOffset := fun i => snd (fst (nth i l (StandardTokenType.Other, 0, 0)));
     getEndOffset := fun i => snd (nth i l (StandardTokenType.Other, 0, 0)) |}.

(** A line of one language that is a single token of no special type. *)
Definition plainLine (lang text : string) : LineTokens :=
  {| lineTokens_tokens := tokensOf [(StandardTokenType.Other, 0, JS.length text)];
     lineTokens_getLanguageId := fun _ => lang;
     lineTokens_getLineContent := text |}.

(** The longest prefix of spaces and tabs. *)
Fixpoint leadingWhitespace (s : string) : string :=
  match s with
  | String c s' =>
    if (nat_of_ascii c =? 32)%nat || (nat_of_ascii c =? 9)%nat
    then String c (leadingWhitespace s')
    else EmptyString
  | EmptyString => EmptyString
  end.

(** The whole line as one scope. *)
Definition wholeLineScope (lineTokens : LineTokens) (offset : Z) : ScopedLineTokens :=
  {| scoped_tokens := lineTokens_tokens lineTokens;
     languageId := lineTokens_getLanguageId lineTokens 0;
     firstCharOffset := 0;
     scoped_getLineContent := lineTokens_getLineContent lineTokens |}.

Definition host : Host :=
  {| Full := 4;
     isEmpty := fun r => (startLineNumber r =? endLineNumber r)
                         && (startColumn r =? endColumn r);
     getLeadingWhitespace := leadingWhitespace;
     createScopedLineTokens := wholeLineScope;
     getScopedLineTokens :=
       fun model lineNumber column =>
         wholeLineScope (tokenization_getLineTokens model lineNumber) (column - 1);
     INCREASE_MASK := 1;
     DECREASE_MASK := 2;
     INDENT_NEXTLINE_MASK := 4 |}.

(** The last character of a string. *)
Fixpoint lastChar (s : string) : option ascii :=
  match s with
  | EmptyString => None
  | String c EmptyString => Some c
  | String _ s' => lastChar s'
  end.

(** The first character after the leading spaces. *)
Fixpoint firstVisibleChar (s : string) : option ascii :=
  match s with
  | EmptyString => None
  | String c s' => if JS.is_space c then firstVisibleChar s' else Some c
  end.

Definition opensBlock (s : string) : bool :=
  match lastChar s with
  | Some c => Ascii.eqb c "{"
  | None => false
  end.

Definition closesBlock (s : string) : bool :=
  match firstVisibleChar s with
  | Some c => Ascii.eqb c "}"
  | None => false
  end.

(** Indent rules of a language with braces. *)
Definition braceRules : IndentRulesSupport :=
  {| shouldIncrease := opensBlock;
     shouldDecrease := closesBlock;
     shouldIndentNextLine := fun _ => false;
     shouldIgnore := fun _ => false;
     irs_getIndentMetadata :=
       fun s => (if opensBlock s then 1 else 0) + (if closesBlock s then 2 else 0) |}.

Definition braceBrackets : RichEditBrackets :=
  {| rich_brackets := [ {| open := ["{"]; close := ["}"] |};
                        {| open := ["("]; close := [")"] |} ] |}.

(** Brackets that are words. *)
Definition wordBrackets : RichEditBrackets :=
  {| rich_brackets := [ {| open := ["begin"]; close := ["end"] |} ] |}.

(** A service with two languages: [c] has indent rules and brace brackets,
    [pascal] has word brackets and no indent rules. *)
Definition service : ILanguageConfigurationService :=
  {| getLanguageConfiguration :=
       fun lang =>
         if String.eqb lang "c"
         then {| indentRulesSupport := Some braceRules;
                 brackets := Some braceBrackets;
                 onEnter := fun _ _ _ _ => None |}
         else {| indentRulesSupport := None;
                 brackets := Some wordBrackets;
                 onEnter := fun _ _ _ _ => None |} |}.

(** A text model of one language with the given lines. *)
Definition modelOf (lang : string) (lines : list string) : ITextModel :=
  let lineAt := fun n : Z => nth (Z.to_nat (n - 1)) lines "" in
  {| asVirtualModel :=
       {| tokenization_getLineTokens := fun n => plainLine lang (lineAt n);
          tokenization_getLanguageId := lang;
          tokenization_getLanguageIdAtPosition := fun _ _ => lang;
          getLineContent := lineAt |};
     model_getLanguageId := lang;
     model_getLanguageIdAtPosition := fun _ _ => lang;
     getLineCount := Z.of_nat (List.length lines) |}.

Definition program : ITextModel :=
  modelOf "c" ["if (x) {"; "  foo();"; "  "].

(** Indentation by two spaces. *)
Definition twoSpaces : IIndentConverter :=
  {| shiftIndent := fun s => "  " ++ s;
     unshiftIndent := fun s => JS.substring_from s 2 |}.

(** The empty range at a position. *)
Definition cursor (lineNumber column : Z) : Range :=
  {| startLineNumber := lineNumber; startColumn := column;
     endLineNumber := lineNumber; endColumn := column |}.

(** A page of HTML whose lines have a script, in language [c], from
    offset 8 on. *)
Definition scriptScope (lineTokens : LineTokens) (offset : Z) : ScopedLineTokens :=
  {| scoped_tokens := lineTokens_tokens lineTokens;
     languageId := "c";
     firstCharOffset := 8;
     scoped_getLineContent :=
       JS.substring_from (lineTokens_getLineContent lineTokens) 8 |}.

Definition pageHost : Host :=
  {| Full := 4;
     isEmpty := fun r => (startLineNumber r =? endLineNumber r)
                         && (startColumn r =? endColumn r);
     getLeadingWhitespace := leadingWhitespace;
     createScopedLineTokens := scriptScope;
     getScopedLineTokens :=
       fun model lineNumber column =>
         scriptScope (tokenization_getLineTokens model lineNumber) (column - 1);
     INCREASE_MASK := 1;
     DECREASE_MASK := 2;
     INDENT_NEXTLINE_MASK := 4 |}.

Definition page : ITextModel :=
  modelOf "html" ["  <script>  x = 1;"].

(** A line of C with two comments and a string. *)
Definition cLine : string := "a /* { */ '{(}{' b // c".

Definition cTokens : Tokens :=
  tokensOf [ (StandardTokenType.Other, 0, 2); (StandardTokenType.Comment, 2, 9);
             (StandardTokenType.Other, 9, 10); (StandardTokenType.String, 10, 16);
             (StandardTokenType.Other, 16, 19); (StandardTokenType.Comment, 19, 23) ].

(** A line of Pascal: a string and a name. *)
Definition pascalLine : string := "'begin' x".

Definition pascalTokens : Tokens :=
  tokensOf [(StandardTokenType.String, 0, 7); (StandardTokenType.Other, 7, 9)].

End Sample.

(* ===================================================================== *)
(** ** A small hover to run the controller on *)
(* ===================================================================== *)

Module HoverSample.

Import ContentHover.

(** An anchor on a range. *)
Record Anchor : Type := {
  a_priority : Z;
  a_range : Range;
  a_x : option Q;
  a_y : option Q
}.

Definition sameRange (r1 r2 : Range) : bool :=
  (startLineNumber r1 =? startLineNumber r2)
  && (startColumn r1 =? startColumn r2)
  && (endLineNumber r1 =? endLineNumber r2)
  && (endColumn r1 =? endColumn r2).

(** The smallest range on one line that holds two ranges of that line. *)
Definition hull (r1 r2 : Range) : Range :=
  {| startLineNumber := Z.min (startLineNumber r1) (startLineNumber r2);
     startColumn := Z.min (startColumn r1) (startColumn r2);
     endLineNumber := Z.max (endLineNumber r1) (endLineNumber r2);
     endColumn := Z.max (endColumn r1) (endColumn r2) |}.

Definition anchors : AnchorHost :=
  {| HoverAnchor := Anchor;
     priority := a_priority;
     anchor_range := a_range;
     initialMousePosX := a_x;
     initialMousePosY := a_y;
     equals := fun a b => sameRange (a_range a) (a_range b);
     canAdoptVisibleHover :=
       fun a previous _ =>
         startLineNumber (a_range a) =? startLineNumber (a_range previous);
     HoverRangeAnchor := fun p r x y =>
                           {| a_priority := p; a_range := r; a_x := x; a_y := y |};
     plusRange := hull;
     getStartPosition := fun r => {| lineNumber := startLineNumber r;
                                     column := startColumn r |};
     ColorPickerWidget := unit |}.

(** A widget that remembers where it is shown. *)
Record Widget : Type := {
  w_position : option Position;
  w_resizing : bool
}.

Definition widgets : WidgetHost (anchors := anchors) :=
  {| ContentHoverWidget := Widget;
     position := w_position;
     isResizing := w_resizing;
     isMouseGettingCloser := fun w _ _ => (false, w);
     widget_hide := fun w => {| w_position := None; w_resizing := w_resizing w |};
     showAt := fun w _ data =>
                 {| w_position := Some (showAtPosition (anchors := anchors) data);
                    w_resizing := w_resizing w |};
     statusBar_hoverElement := O;
     filter := fun r _ => r |}.

(** A word on line 1, columns 5 to 9. *)
Definition word : Range :=
  {| startLineNumber := 1; startColumn := 5; endLineNumber := 1; endColumn := 9 |}.

(** A longer span on line 1. *)
Definition span : Range :=
  {| startLineNumber := 1; startColumn := 3; endLineNumber := 1; endColumn := 12 |}.

(** The anchor a participant suggests on text, with priority [p]. *)
Definition suggestOnText (p : Z) (e : IEditorMouseEvent)
  : option (@HoverAnchor anchors) :=
  match target e with
  | CONTENT_TEXT r =>
    Some {| a_priority := p; a_range := r;
            a_x := Some (posx e); a_y := Some (posy e) |}
  | _ => None
  end.

(** A participant class that renders one element per hover part and, with
    [actions], puts something in the status bar. *)
Definition participantClass (ordinal : Z) (priorityOnText : option Z)
           (actions : bool) : ParticipantClass (anchors := anchors) :=
  {| hoverOrdinal := ordinal;
     suggestHoverAnchor := option_map suggestOnText priorityOnText;
     createLoadingMessage := None;
     renderHoverParts :=
       fun context parts =>
         let elements := map (fun part => S (detail part)) parts in
         ({| fragment := (fragment context ++ elements)%list;
             statusBar_hasContent := statusBar_hasContent context || actions;
             colorPicker := colorPicker context |},
          elements) |}.

(** Three registered classes; the second has the smallest ordinal. *)
Definition registry : list (ParticipantClass (anchors := anchors)) :=
  [ participantClass 3 None false;
    participantClass 1 (Some 7) true;
    participantClass 2 None false ].

Definition editor : ICodeEditor :=
  {| hover_sticky := true;
     hover_above := true;
     typicalHalfwidthCharacterWidth := 8 # 1;
     _getViewModel := None |}.

Definition idle : ContentHoverComputer (anchors := anchors) :=
  {| computer_anchor := None;
     shouldFocus := false;
     source := Mouse;
     insistOnKeepingHoverVisible := false |}.

(** The controller right after its construction. *)
Definition fresh : State (anchors := anchors) (widgets := widgets) :=
  @constructor anchors widgets editor
               {| w_position := None; w_resizing := false |} idle registry.

(** The mouse over the word. *)
Definition overWord : IEditorMouseEvent :=
  {| posx := 40 # 1; posy := 10 # 1; target := CONTENT_TEXT word |}.

(** The mouse away from the text. *)
Definition away : IEditorMouseEvent :=
  {| posx := 400 # 1; posy := 10 # 1; target := OTHER_TARGET |}.

(** A hover part of the participant with reference [o]. *)
Definition part (o : nat) (r : Range) (force : option bool) (d : nat) : IHoverPart :=
  {| owner := o; range := r; forceShowAtRange := force;
     isBeforeContent := None; detail := d |}.

(** Parts of the three participants, not in their order. *)
Definition someParts : list IHoverPart :=
  [ part 0 word None 10; part 2 span (Some true) 20;
    part 1 word None 30; part 0 span None 40 ].

(** A complete result of an operation with [someParts]. *)
Definition completeResult : OperationResult :=
  {| value := someParts; op_isComplete := true; hasLoadingMessage := false |}.

(** A partial result of an operation. *)
Definition partialResult : OperationResult :=
  {| value := [part 1 word None 50]; op_isComplete := false;
     hasLoadingMessage := false |}.

(** The controller after the mouse came over the word and the complete
    result arrived. *)
Definition showing : State (anchors := anchors) (widgets := widgets) :=
  @handle anchors widgets (OnResult completeResult)
          (@handle anchors widgets (ShowsOrWillShow overWord) fresh).

(** The anchor the second participant suggests over the word. *)
Definition wordAnchor : @HoverAnchor anchors :=
  {| a_priority := 7; a_range := word; a_x := Some (40 # 1); a_y := Some (10 # 1) |}.

(** The result [showing] shows. *)
Definition shown : HoverResult (anchors := anchors) :=
  {| result_ref := O; anchor := wordAnchor; messages := someParts;
     isComplete := true |}.

(** A partial result that arrives later. *)
Definition later : HoverResult (anchors := anchors) :=
  {| result_ref := 1; anchor := wordAnchor; messages := [part 1 word None 50];
     isComplete := false |}.

(** The fresh controller with its widget resizing. *)
Definition resizing : State (anchors := anchors) (widgets := widgets) :=
  @handle anchors widgets
          (@Environment anchors widgets
                        {| w_position := None; w_resizing := true |} editor)
          fresh.

End HoverSample.

(* ===================================================================== *)
(** ** Notions used to state further properties of the engine *)
(* ===================================================================== *)

Module AutoIndentNotions.

Import AutoIndent.

(** The test by which [getPrecedingValidLine] passes over a line: the
    indent rules ignore it, it is blank or empty, or all its tokens are
    comments, or strings, or regular expressions. *)
Definition isPassedOver (model : IVirtualModel)
           (indentRulesSupport : IndentRulesSupport) (l : Z) : bool :=
  let text := getLineContent model l in
  let tokens := tokenization_getLineTokens model l in
  shouldIgnore indentRulesSupport text || JS.test_spaces text
  || String.eqb text ""
  || entirelyIn StandardTokenType.Comment tokens
  || entirelyIn StandardTokenType.String tokens
  || entirelyIn StandardTokenType.RegEx tokens.

(** Two models tell the same about the lines above line [n]: the same
    language, the same language at the start of the lines up to [n], and
    the same content and tokens on the lines from 1 to [n - 1]. *)
Definition agreeAbove (m1 m2 : IVirtualModel) (n : Z) : Prop :=
  tokenization_getLanguageId m1 = tokenization_getLanguageId m2
  /\ (forall l, l <= n ->
                tokenization_getLanguageIdAtPosition m1 l 0
                = tokenization_getLanguageIdAtPosition m2 l 0)
  /\ (forall l, 1 <= l < n ->
                getLineContent m1 l = getLineContent m2 l
                /\ tokenization_getLineTokens m1 l = tokenization_getLineTokens m2 l).

(** Two text models tell the same up to line [n]: the same language, the
    same language at the start of the lines up to [n + 1], the same tokens
    on the lines up to [n] and the same content on the lines from 1 to
    [n - 1]. *)
Definition agreeUpTo (m1 m2 : ITextModel) (n : Z) : Prop :=
  model_getLanguageId m1 = model_getLanguageId m2
  /\ (forall l, l <= n + 1 ->
                model_getLanguageIdAtPosition m1 l 0
                = model_getLanguageIdAtPosition m2 l 0)
  /\ (forall l, l <= n ->
                tokenization_getLineTokens m1 l = tokenization_getLineTokens m2 l)
  /\ (forall l, 1 <= l < n -> getLineContent m1 l = getLineContent m2 l).

(** No token of the line is a comment, a string or a regular expression. *)
Definition plainTokens (tokens : Tokens) : Prop :=
  forall i, (i < getCount tokens)%nat ->
            getStandardTokenType tokens i = StandardTokenType.Other.

(** The text of token [i]. *)
Definition tokenText (line : string) (tokens : Tokens) (i : nat) : string :=
  JS.substring line (getStartOffset tokens i) (getEndOffset tokens i).

(** In every string and regular expression of the line the replacement of
    the brackets gives a text as long as the text it replaces. *)
Definition keepsLengths (brackets : option RichEditBrackets) (line : string)
           (tokens : Tokens) : Prop :=
  forall i, (i < getCount tokens)%nat ->
            getStandardTokenType tokens i = StandardTokenType.String
            \/ getStandardTokenType tokens i = StandardTokenType.RegEx ->
            String.length
              (replaceEach (bracketsClose brackets)
                           (replaceEach (bracketsOpen brackets)
                                        (tokenText line tokens i)))
            = String.length (tokenText line tokens i).

End AutoIndentNotions.

(* ===================================================================== *)
(** ** More of the controller, and notions to state further properties *)
(* ===================================================================== *)

Module ContentHoverNotions.

Import ContentHover.

Section Notions.

Context {anchors : AnchorHost} {widgets : WidgetHost}.

(** [participant.getAccessibleContent(hoverPart)], which the participants
    define. *)
Variable getAccessibleContent : IEditorHoverParticipant -> IHoverPart -> string.

(** [getAccessibleWidgetContentAtIndex]; [None] stands for the [TypeError]
    that [renderedHoverPart.brand] throws when [_renderedParts[index]] is
    undefined. *)
Definition getAccessibleWidgetContentAtIndex (index : Z) (s : State)
  : option string :=
  if index <? 0 then None else
  match nth_error (_renderedParts s) (Z.to_nat index) with
  | None => None
  | Some (RenderedHoverStatusBar _) => Some "There is a status bar here"
  | Some (RenderedHoverPart _ hoverPart participant) =>
    Some (getAccessibleContent participant hoverPart)
  end.

(** The loop of [getAccessibleWidgetContent] over the indices [i], [i + 1],
    ...: the array [formattedContent], or [None] when a call throws. *)
Fixpoint formattedContent (s : State) (i : Z) (count : nat)
  : option (list string) :=
  match count with
  | O => Some []
  | S count' =>
    match getAccessibleWidgetContentAtIndex i s with
    | None => None
    | Some content =>
      match formattedContent s (i + 1) count' with
      | None => None
      | Some rest => Some (content :: rest)
      end
    end
  end.

(** The separator of [join]: two line feeds. *)
Definition blankLine : string :=
  String (Ascii.ascii_of_nat 10) (String (Ascii.ascii_of_nat 10) EmptyString).

(** [getAccessibleWidgetContent] *)
Definition getAccessibleWidgetContent (s : State) : option string :=
  match formattedContent s 0 (List.length (_renderedParts s)) with
  | None => None
  | Some contents => Some (String.concat blankLine contents)
  end.

(** What one rendered part reads as. *)
Definition accessibleContentOf (part : RenderedPart) : string :=
  match part with
  | RenderedHoverStatusBar _ => "There is a status bar here"
  | RenderedHoverPart _ hoverPart participant =>
    getAccessibleContent participant hoverPart
  end.

(** A current result, if there is one, has messages. *)
Definition hasMessages (r : option HoverResult) : Prop :=
  match r with
  | Some r => messages r <> []
  | None => True
  end.

(** Without an anchor to compute at, no fetch is in flight. *)
Definition idleWithoutAnchor (s : State) : Prop :=
  computer_anchor (_computer s) = None ->
  fetchesInFlight (_hoverOperation s) = O.

(** The two together. *)
Definition settled (s : State) : Prop :=
  hasMessages (_currentResult s) /\ idleWithoutAnchor s.

(** The hover parts of the rendered parts, in their order. *)
Definition renderedHoverParts (parts : list RenderedPart) : list IHoverPart :=
  flat_map (fun part => match part with
                        | RenderedHoverPart _ hoverPart _ => [hoverPart]
                        | RenderedHoverStatusBar _ => []
                        end) parts.

(** The owner of the message is one of the participants. *)
Definition isOwned (participants : list IEditorHoverParticipant)
           (msg : IHoverPart) : bool :=
  existsb (fun p : IEditorHoverParticipant => Nat.eqb (owner msg) (ref p))
          participants.

End Notions.

End ContentHoverNotions.

(* ===================================================================== *)
(** ** More of the small editor *)
(* ===================================================================== *)

Module MoreSample.

Import AutoIndent.

(** The sample program with another third line. *)
Definition programEdited : ITextModel :=
  Sample.modelOf "c" ["if (x) {"; "  foo();"; "    bar();"; "}"].

(** A line that is one comment. *)
Definition commentLine : string := "  // begin of the end".

Definition commentTokens : Tokens :=
  Sample.tokensOf [(StandardTokenType.Comment, 0, 21)].

(** A participant class that shows a loading message at the anchor. *)
Definition loadingClass
  : ContentHover.ParticipantClass (anchors := HoverSample.anchors) :=
  {| ContentHover.hoverOrdinal := 5;
     ContentHover.suggestHoverAnchor := None;
     ContentHover.createLoadingMessage :=
       Some (fun a : @ContentHover.HoverAnchor HoverSample.anchors =>
               Some (HoverSample.part 0 (HoverSample.a_range a) None 99));
     ContentHover.renderHoverParts :=
       ContentHover.renderHoverParts (HoverSample.participantClass 5 None false) |}.

(** A controller with the loading participant, after the mouse came over
    the word. *)
Definition loading
  : ContentHover.State (anchors := HoverSample.anchors)
                       (widgets := HoverSample.widgets) :=
  @ContentHover.handle
    HoverSample.anchors HoverSample.widgets
    (ContentHover.ShowsOrWillShow HoverSample.overWord)
    (@ContentHover.constructor
       HoverSample.anchors HoverSample.widgets HoverSample.editor
       {| HoverSample.w_position := None; HoverSample.w_resizing := false |}
       HoverSample.idle
       [loadingClass; HoverSample.participantClass 1 (Some 7) true]).

(** An anchor on the second line. *)
Definition elsewhere : @ContentHover.HoverAnchor HoverSample.anchors :=
  {| HoverSample.a_priority := 0;
     HoverSample.a_range := {| startLineNumber := 2; startColumn := 1;
                               endLineNumber := 2; endColumn := 4 |};
     HoverSample.a_x := None;
     HoverSample.a_y := None |}.

(** The sample controller after [hide]. *)
Definition hidden
  : ContentHover.State (anchors := HoverSample.anchors)
                       (widgets := HoverSample.widgets) :=
  @ContentHover.handle HoverSample.anchors HoverSample.widgets
                       (@ContentHover.Hide HoverSample.anchors HoverSample.widgets)
                       HoverSample.showing.

(** What a screen reader gets of a hover part of the sample. *)
Definition readOut
           (p : ContentHover.IEditorHoverParticipant (anchors := HoverSample.anchors))
           (h : ContentHover.IHoverPart) : string :=
  if Nat.eqb (ContentHover.detail h) 10 then "ten" else "part".

End MoreSample.

(* ===================================================================== *)
(** ** Properties of the string primitives *)
(* ===================================================================== *)

Module JSFacts.

Lemma length_append (s1 s2 : string) :
  String.length (s1 ++ s2) = (String.length s1 + String.length s2)%nat.
Proof. induction s1 as [|c s1 IH]; simpl; [reflexivity | now rewrite IH]. Qed.

Lemma append_empty_r (s : string) : s ++ "" = s.
Proof. induction s as [|c s IH]; simpl; [reflexivity | now rewrite IH]. Qed.

Lemma append_assoc (s1 s2 s3 : string) : (s1 ++ s2) ++ s3 = s1 ++ s2 ++ s3.
Proof. induction s1 as [|c s1 IH]; simpl; [reflexivity | now rewrite IH]. Qed.

Lemma substring_whole (s : string) : String.substring 0 (String.length s) s = s.
Proof. induction s as [|c s IH]; simpl; [reflexivity | now rewrite IH]. Qed.

Lemma substring_nothing (s : string) (n : nat) : String.substring n 0 s = "".
Proof.
  revert n. induction s as [|c s IH]; intros [|n]; simpl; auto.
Qed.

Lemma substring_append_left (s1 s2 : string) :
  String.substring 0 (String.length s1) (s1 ++ s2) = s1.
Proof.
  induction s1 as [|c s1 IH]; simpl.
  - apply substring_nothing.
  - now rewrite IH.
Qed.

Lemma substring_append_right (s1 s2 : string) :
  String.substring (String.length s1) (String.length s2) (s1 ++ s2) = s2.
Proof.
  induction s1 as [|c s1 IH]; simpl.
  - apply substring_whole.
  - exact IH.
Qed.

(** The part of a string from [n] on, cut in two at [k]. *)
Lemma substring_split (s : string) :
  forall n k,
    (n <= k <= String.length s)%nat ->
    String.substring n (String.length s - n) s
    = String.substring n (k - n) s ++ String.substring k (String.length s - k) s.
Proof.
  induction s as [|c s IH]; intros n k [Hnk Hk]; simpl in Hk.
  - assert (k = O) by lia. assert (n = O) by lia. subst. reflexivity.
  - destruct n as [|n]; destruct k as [|k]; try lia; simpl.
    + reflexivity.
    + f_equal. specialize (IH O k ltac:(lia)).
      rewrite !Nat.sub_0_r in IH. exact IH.
    + apply IH. lia.
Qed.

Lemma length_substring (s : string) :
  forall n m,
    (n + m <= String.length s)%nat -> String.length (String.substring n m s) = m.
Proof.
  induction s as [|c s IH]; intros n m Hle; simpl in Hle.
  - assert (m = O) by lia. assert (n = O) by lia. subst. reflexivity.
  - destruct n as [|n]; simpl.
    + destruct m as [|m]; simpl; [reflexivity|].
      f_equal. apply IH. lia.
    + apply IH. lia.
Qed.

Lemma JS_length_append (s1 s2 : string) :
  JS.length (s1 ++ s2) = JS.length s1 + JS.length s2.
Proof. unfold JS.length. rewrite length_append. lia. Qed.

(** The four ways the stripping cuts [x ++ y] at the end of [x]. *)
Lemma substr_left (x y : string) : JS.substr (x ++ y) 0 (JS.length x) = x.
Proof.
  unfold JS.substr, JS.substr_start.
  change (0 <? 0) with false. cbv iota.
  rewrite JS_length_append. unfold JS.length.
  match goal with
  | |- String.substring ?a ?n _ = _ =>
    replace a with O by lia;
      replace n with (String.length x) by lia
  end.
  apply substring_append_left.
Qed.

Lemma substr_from_right (x y : string) : JS.substr_from (x ++ y) (JS.length x) = y.
Proof.
  unfold JS.substr_from, JS.substr_start.
  rewrite JS_length_append. unfold JS.length.
  destruct (Z.of_nat (String.length x) <? 0) eqn:Hneg;
    [apply Z.ltb_lt in Hneg; lia|].
  match goal with
  | |- String.substring ?a ?n _ = _ =>
    replace a with (String.length x) by lia;
      replace n with (String.length y) by lia
  end.
  apply substring_append_right.
Qed.

Lemma substring_left (x y : string) : JS.substring (x ++ y) 0 (JS.length x) = x.
Proof.
  unfold JS.substring, JS.clamp.
  rewrite JS_length_append. unfold JS.length.
  match goal with
  | |- String.substring ?a ?n _ = _ =>
    replace a with O by lia;
      replace n with (String.length x) by lia
  end.
  apply substring_append_left.
Qed.

Lemma substring_from_right (x y : string) :
  JS.substring_from (x ++ y) (JS.length x) = y.
Proof.
  unfold JS.substring_from, JS.substring, JS.clamp.
  rewrite JS_length_append. unfold JS.length.
  match goal with
  | |- String.substring ?a ?n _ = _ =>
    replace a with (String.length x) by lia;
      replace n with (String.length y) by lia
  end.
  apply substring_append_right.
Qed.

(** [substring] between two indices in order and in range. *)
Lemma substring_in_range (s : string) (a b : Z) :
  0 <= a <= b -> b <= JS.length s ->
  JS.substring s a b = String.substring (Z.to_nat a) (Z.to_nat b - Z.to_nat a) s.
Proof.
  intros Hab Hb. unfold JS.substring, JS.clamp, JS.length in *.
  f_equal; lia.
Qed.

(** Replacing a single character keeps the length. *)
Lemma replace_single_length (pat s : string) :
  String.length pat = 1%nat ->
  String.length (JS.replace pat "_" s) = String.length s.
Proof.
  intros Hpat.
  destruct pat as [|c [|c' pat']]; try discriminate.
  induction s as [|d s IH].
  - reflexivity.
  - simpl. destruct (ascii_dec c d) as [_|_].
    + destruct s as [|e s]; simpl; [reflexivity|].
      rewrite substring_whole. reflexivity.
    + simpl. f_equal. exact IH.
Qed.

End JSFacts.

(* ===================================================================== *)
(** ** Properties of the auto-indentation engine *)
(* ===================================================================== *)

Module AutoIndentFacts.

Import AutoIndent.

(** [a <? b] decided the other way. *)
Lemma ltb_ge (a b : Z) : b <= a -> (a <? b) = false.
Proof. intros Hle. apply Z.ltb_ge. exact Hle. Qed.

Section Facts.

Context {host : Host}.
Variable service : ILanguageConfigurationService.

(** C8: below [EditorAutoIndentStrategy.Full] each of the four entry
    points that take a strategy ([getInheritIndentForLine],
    [getGoodIndentForLine], [getIndentForEnter],
    [getIndentActionForType]) returns null, whatever the model, the
    line, the range and the typed character are. *)
Theorem below_Full_returns_null (autoIndent : Z) :
  autoIndent < Full ->
  (forall model lineNumber honorIntentialIndent,
      getInheritIndentForLine service autoIndent model lineNumber
                              honorIntentialIndent = None)
  /\ (forall virtualModel languageId lineNumber indentConverter,
         getGoodIndentForLine service autoIndent virtualModel languageId
                              lineNumber indentConverter = None)
  /\ (forall model range indentConverter,
         getIndentForEnter service autoIndent model range indentConverter = None)
  /\ (forall model range ch indentConverter,
         getIndentActionForType service autoIndent model range ch
                                indentConverter = None).
Proof.
  intros Hlt.
  assert (Hb : (autoIndent <? Full) = true) by (apply Z.ltb_lt; exact Hlt).
  repeat split; intros.
  - unfold getInheritIndentForLine. now rewrite Hb.
  - unfold getGoodIndentForLine. now rewrite Hb.
  - unfold getIndentForEnter. now rewrite Hb.
  - unfold getIndentActionForType. now rewrite Hb.
Qed.

(** C9: [getIndentMetadata] returns null exactly when the language of
    the model has no indent rules or the line number is below 1 or
    above the line count; otherwise it returns the metadata the indent
    rules compute from the content of that line. *)
Theorem getIndentMetadata_null_iff (model : ITextModel) (lineNumber : Z) :
  (getIndentMetadata service model lineNumber = None
   <-> (indentRulesSupport
          (getLanguageConfiguration service (model_getLanguageId model)) = None
        \/ lineNumber < 1 \/ getLineCount model < lineNumber))
  /\ (forall rules,
         indentRulesSupport
           (getLanguageConfiguration service (model_getLanguageId model))
         = Some rules ->
         1 <= lineNumber <= getLineCount model ->
         getIndentMetadata service model lineNumber
         = Some (irs_getIndentMetadata rules (getLineContent model lineNumber))).
Proof.
  unfold getIndentMetadata.
  destruct (indentRulesSupport
              (getLanguageConfiguration service (model_getLanguageId model)))
    as [rules|] eqn:Hrules.
  - split.
    + destruct (lineNumber <? 1) eqn:Hlo; simpl.
      * apply Z.ltb_lt in Hlo. split; auto.
      * destruct (getLineCount model <? lineNumber) eqn:Hhi.
        -- apply Z.ltb_lt in Hhi. split; auto.
        -- apply Z.ltb_ge in Hlo. apply Z.ltb_ge in Hhi.
           split; [discriminate|].
           intros [Hnone | [Hlt | Hlt]]; [discriminate | lia | lia].
    + intros rules' Heq [Hlo Hhi]. injection Heq as <-.
      rewrite (ltb_ge _ _ Hlo), (ltb_ge _ _ Hhi). reflexivity.
  - split.
    + split; auto.
    + intros rules' Heq. discriminate.
Qed.

(** C1: [getIndentActionForType] returns a string only if the strategy
    is at least [Full], the scope starts at offset 0, the language has
    indent rules, and the text around the cursor does not match the
    decrease pattern without [ch] but matches it with [ch] inserted; the
    string is then the inherited indentation of the line, unshifted once
    unless the inherited action is [Indent].  In a scope that does not
    start at offset 0, without indent rules, and whenever the two
    pattern tests come out otherwise, it returns null. *)
Theorem getIndentActionForType_spec (autoIndent : Z) (model : ITextModel)
        (range : Range) (ch : string) (indentConverter : IIndentConverter) :
  let scoped :=
    getScopedLineTokens model (startLineNumber range) (startColumn range) in
  let rules :=
    indentRulesSupport (getLanguageConfiguration service (languageId scoped)) in
  let fullText :=
    beforeTypeText scoped range ++ afterTypeText model scoped range in
  let fullTextWithCharacter :=
    beforeTypeText scoped range ++ ch ++ afterTypeText model scoped range in
  let result :=
    getIndentActionForType service autoIndent model range ch indentConverter in
  (forall text, result = Some text ->
     Full <= autoIndent
     /\ firstCharOffset scoped = 0
     /\ exists indentRules inherited,
         rules = Some indentRules
         /\ shouldDecrease indentRules fullText = false
         /\ shouldDecrease indentRules fullTextWithCharacter = true
         /\ getInheritIndentForLine service autoIndent model
                                    (startLineNumber range) false
            = Some inherited
         /\ text = if isIndent (action inherited)
                   then indentation inherited
                   else unshiftIndent indentConverter (indentation inherited))
  /\ (firstCharOffset scoped <> 0 -> result = None)
  /\ (rules = None -> result = None)
  /\ (forall indentRules,
         rules = Some indentRules ->
         shouldDecrease indentRules fullText = true
         \/ shouldDecrease indentRules fullTextWithCharacter = false ->
         result = None).
Proof.
  intros scoped rules fullText fullTextWithCharacter result.
  subst result. unfold getIndentActionForType.
  fold scoped. fold rules.
  split; [intros text H; split; [|split] | split; [|split]].
  - destruct (autoIndent <? Full) eqn:Hfull; [discriminate|].
    apply Z.ltb_ge in Hfull. exact Hfull.
  - destruct (autoIndent <? Full); [discriminate|].
    destruct (firstCharOffset scoped =? 0) eqn:Hoff; [|discriminate].
    apply Z.eqb_eq in Hoff. exact Hoff.
  - destruct (autoIndent <? Full); [discriminate|].
    destruct (firstCharOffset scoped =? 0); [|discriminate].
    simpl in H.
    destruct rules as [indentRules|]; [|discriminate].
    fold fullText in H. fold fullTextWithCharacter in H.
    destruct (shouldDecrease indentRules fullText) eqn:Hwithout;
      [discriminate|].
    destruct (shouldDecrease indentRules fullTextWithCharacter) eqn:Hwith;
      [|discriminate].
    simpl in H.
    destruct (getInheritIndentForLine service autoIndent model
                                      (startLineNumber range) false)
      as [inherited|] eqn:Hinherit; [|discriminate].
    exists indentRules, inherited.
    repeat split; auto.
    destruct (isIndent (action inherited)); simpl in H;
      injection H as <-; reflexivity.
  - intros Hoff.
    destruct (autoIndent <? Full); [reflexivity|].
    destruct (firstCharOffset scoped =? 0) eqn:Hzero; [|reflexivity].
    apply Z.eqb_eq in Hzero. contradiction.
  - intros Hnone. rewrite Hnone.
    destruct (autoIndent <? Full); [reflexivity|].
    destruct (firstCharOffset scoped =? 0); reflexivity.
  - intros indentRules Hsome Htests. rewrite Hsome.
    destruct (autoIndent <? Full); [reflexivity|].
    destruct (firstCharOffset scoped =? 0); [|reflexivity].
    simpl. fold fullText. fold fullTextWithCharacter.
    destruct Htests as [Hwithout | Hwith].
    + rewrite Hwithout. reflexivity.
    + rewrite Hwith. now rewrite andb_false_r.
Qed.

(** C7: with a strategy of at least [Full] and indent rules for the
    scoped language, [getIndentForEnter] returns a result; inside
    embedded-language content (the scope starts after offset 0 and the
    language of the first token of the line is not the scoped one) its
    [beforeEnter] is the leading whitespace of the line as it is, and
    otherwise the leading whitespace of the text of the line before the
    cursor. *)
Theorem getIndentForEnter_beforeEnter (autoIndent : Z) (model : ITextModel)
        (range : Range) (indentConverter : IIndentConverter) :
  let lineTokens := tokenization_getLineTokens model (startLineNumber range) in
  let scoped := createScopedLineTokens lineTokens (startColumn range - 1) in
  Full <= autoIndent ->
  indentRulesSupport (getLanguageConfiguration service (languageId scoped))
  <> None ->
  exists result,
    getIndentForEnter service autoIndent model range indentConverter
    = Some result
    /\ (0 < firstCharOffset scoped
        /\ lineTokens_getLanguageId lineTokens 0 <> languageId scoped ->
        beforeEnter result
        = getLeadingWhitespace (lineTokens_getLineContent lineTokens))
    /\ (~ (0 < firstCharOffset scoped
           /\ lineTokens_getLanguageId lineTokens 0 <> languageId scoped) ->
        beforeEnter result
        = getLeadingWhitespace
            (JS.substring (lineTokens_getLineContent lineTokens) 0
                          (startColumn range - 1))).
Proof.
  intros lineTokens scoped Hfull Hrules.
  assert (Hembedded :
            inEmbeddedLanguage lineTokens scoped = true
            <-> (0 < firstCharOffset scoped
                 /\ lineTokens_getLanguageId lineTokens 0 <> languageId scoped)).
  { unfold inEmbeddedLanguage.
    rewrite andb_true_iff, Z.ltb_lt, negb_true_iff.
    split; intros [Hoff Hlang]; split; auto.
    - intros Heq. apply String.eqb_eq in Heq. congruence.
    - destruct (String.eqb_spec (lineTokens_getLanguageId lineTokens 0)
                                (languageId scoped)); [contradiction|reflexivity]. }
  unfold getIndentForEnter.
  rewrite (ltb_ge _ _ Hfull).
  fold lineTokens. fold scoped.
  destruct (indentRulesSupport
              (getLanguageConfiguration service (languageId scoped)))
    as [indentRules|]; [|contradiction].
  destruct (inEmbeddedLanguage lineTokens scoped) eqn:Hin.
  - match goal with
    | |- context [getInheritIndentForLine ?s ?a ?m ?l ?h] =>
      destruct (getInheritIndentForLine s a m l h)
    end; eexists; (split; [reflexivity|]); simpl; split; auto;
      intros Hnot; exfalso; apply Hnot, Hembedded; reflexivity.
  - match goal with
    | |- context [getInheritIndentForLine ?s ?a ?m ?l ?h] =>
      destruct (getInheritIndentForLine s a m l h)
    end; eexists; (split; [reflexivity|]); simpl; split; auto;
      intros Hyes; apply Hembedded in Hyes; discriminate.
Qed.

End Facts.

(** Below [Full]: the strategy 3 in the sample editor. *)
Lemma below_Full_returns_null_witness :
  3 < @Full Sample.host
  /\ getIndentActionForType (host := Sample.host) Sample.service 3
                            Sample.program (Sample.cursor 3 3) "}"
                            Sample.twoSpaces = None.
Proof.
  split.
  - reflexivity.
  - apply (below_Full_returns_null (host := Sample.host) Sample.service 3).
    reflexivity.
Defined.

(** The metadata of the first line of the sample program, and of a line
    after its last one. *)
Lemma getIndentMetadata_null_iff_witness :
  getIndentMetadata Sample.service Sample.program 1 = Some 1
  /\ getIndentMetadata Sample.service Sample.program 4 = None.
Proof.
  split.
  - apply (proj2 (getIndentMetadata_null_iff
                    Sample.service Sample.program 1) Sample.braceRules).
    + reflexivity.
    + simpl. lia.
  - apply (proj1 (getIndentMetadata_null_iff
                    Sample.service Sample.program 4)).
    right. right. simpl. lia.
Defined.

(** Typing in the sample editor: a closing brace on the blank third line of
    the program, a letter there, a brace in a language without indent
    rules, and a brace inside a script of a page. *)
Lemma getIndentActionForType_spec_witness :
  (exists indentRules inherited,
      indentRulesSupport (getLanguageConfiguration Sample.service "c")
      = Some indentRules
      /\ shouldDecrease indentRules "  " = false
      /\ shouldDecrease indentRules "  }" = true
      /\ getInheritIndentForLine (host := Sample.host) Sample.service 4
                                 Sample.program 3 false = Some inherited
      /\ "" = if isIndent (action inherited)
              then indentation inherited
              else unshiftIndent Sample.twoSpaces (indentation inherited))
  /\ getIndentActionForType (host := Sample.host) Sample.service 4 Sample.program
                            (Sample.cursor 3 3) "x" Sample.twoSpaces = None
  /\ getIndentActionForType (host := Sample.host) Sample.service 4
                            (Sample.modelOf "pascal" ["begin"])
                            (Sample.cursor 1 1) "}" Sample.twoSpaces = None
  /\ getIndentActionForType (host := Sample.pageHost) Sample.service 4 Sample.page
                            (Sample.cursor 1 12) "}" Sample.twoSpaces = None.
Proof.
  split; [|split; [|split]].
  - exact (proj2 (proj2 (proj1 (getIndentActionForType_spec (host := Sample.host)
                       Sample.service 4 Sample.program (Sample.cursor 3 3) "}"
                       Sample.twoSpaces) "" eq_refl))).
  - apply (proj2 (proj2 (proj2 (getIndentActionForType_spec (host := Sample.host)
              Sample.service 4 Sample.program (Sample.cursor 3 3) "x"
              Sample.twoSpaces))) Sample.braceRules).
    + reflexivity.
    + right. reflexivity.
  - apply (proj1 (proj2 (proj2 (getIndentActionForType_spec (host := Sample.host)
              Sample.service 4 (Sample.modelOf "pascal" ["begin"])
              (Sample.cursor 1 1) "}" Sample.twoSpaces)))).
    reflexivity.
  - apply (proj1 (proj2 (getIndentActionForType_spec (host := Sample.pageHost)
              Sample.service 4 Sample.page (Sample.cursor 1 12) "}"
              Sample.twoSpaces))).
    discriminate.
Defined.

(** Enter at the end of the second line of the sample program. *)
Lemma getIndentForEnter_beforeEnter_witness :
  exists result,
    getIndentForEnter (host := Sample.host) Sample.service 4 Sample.program
                      (Sample.cursor 2 9) Sample.twoSpaces = Some result
    /\ beforeEnter result = "  ".
Proof.
  destruct (getIndentForEnter_beforeEnter (host := Sample.host) Sample.service 4
              Sample.program (Sample.cursor 2 9) Sample.twoSpaces)
    as (result & Hresult & _ & Hplain).
  - simpl. lia.
  - discriminate.
  - exists result. split; [exact Hresult|].
    rewrite Hplain.
    + reflexivity.
    + intros [Hoffset _]. simpl in Hoffset. lia.
Defined.

(* --------------------------------------------------------------------- *)
(** *** Stripping a line *)

(** Replacing single characters keeps the length. *)
Lemma replaceEach_length (l : option (list string)) (s : string) :
  (forall bs, l = Some bs -> Forall (fun text => String.length text = 1%nat) bs) ->
  String.length (replaceEach l s) = String.length s.
Proof.
  intros Hsingle. destruct l as [bs|]; [|reflexivity].
  specialize (Hsingle bs eq_refl). simpl.
  revert s. induction Hsingle as [|b bs Hb _ IH]; intros s; simpl.
  - reflexivity.
  - rewrite IH. apply JSFacts.replace_single_length. exact Hb.
Qed.

Lemma singleCharacters_texts (brackets : option RichEditBrackets) :
  singleCharacters brackets ->
  (forall bs, bracketsOpen brackets = Some bs ->
              Forall (fun text => String.length text = 1%nat) bs)
  /\ (forall bs, bracketsClose brackets = Some bs ->
                 Forall (fun text => String.length text = 1%nat) bs).
Proof.
  intros Hsingle. destruct brackets as [b|]; simpl.
  - specialize (Hsingle b eq_refl).
    split; intros bs Hbs; injection Hbs as <-;
      apply Forall_flat_map; eapply Forall_impl; [|exact Hsingle| |exact Hsingle];
        intros bracket [Hopen Hclose]; assumption.
  - split; intros bs Hbs; discriminate.
Qed.

(** The described line grows by the piece of the next token. *)
Lemma described_snoc (piece : nat -> string) (l : list nat) (n : nat) :
  fold_right (fun i rest => piece i ++ rest) "" (l ++ [n])
  = fold_right (fun i rest => piece i ++ rest) "" l ++ piece n.
Proof.
  induction l as [|i l IH]; simpl.
  - apply JSFacts.append_empty_r.
  - rewrite IH. symmetry. apply JSFacts.append_assoc.
Qed.

Lemma boundary_range (tokens : Tokens) (line : string) :
  covers tokens line ->
  forall i, (i <= getCount tokens)%nat ->
            0 <= boundary tokens i <= JS.length line.
Proof.
  intros [Hcover _] i. induction i as [|i IH]; intros Hi; simpl.
  - unfold JS.length. lia.
  - destruct (Hcover i ltac:(lia)) as [_ Hrange].
    specialize (IH ltac:(lia)). lia.
Qed.

(** The loop of [getStrippedLineForLineAndTokens] after [n] tokens: the
    result holds the described pieces of these tokens and then the rest of
    the line; the offset is the difference of the lengths. *)
Lemma strip_loop (brackets : option RichEditBrackets) (line : string)
      (tokens : Tokens) :
  covers tokens line ->
  singleCharacters brackets ->
  forall n,
    (n <= getCount tokens)%nat ->
    let described :=
      fold_right (fun i rest => describedPiece brackets line tokens i ++ rest)
                 "" (seq 0 n) in
    fold_left (strip_step brackets line tokens) (seq 0 n) (line, 0)
    = (described
         ++ String.substring (Z.to_nat (boundary tokens n))
                             (String.length line - Z.to_nat (boundary tokens n))
                             line,
       JS.length described - boundary tokens n).
Proof.
  intros Hcovers Hsingle n. induction n as [|n IH]; intros Hn described.
  - subst described. simpl. rewrite Nat.sub_0_r, JSFacts.substring_whole.
    reflexivity.
  - specialize (IH ltac:(lia)). cbv zeta in IH.
    subst described. rewrite seq_S, fold_left_app, IH, described_snoc.
    clear IH. simpl plus. simpl fold_left.
    set (P := fold_right
                (fun i rest => describedPiece brackets line tokens i ++ rest)
                "" (seq 0 n)).
    destruct (proj1 Hcovers n ltac:(lia)) as [Hstart Hend].
    pose proof (boundary_range tokens line Hcovers n ltac:(lia)) as Hboundary.
    set (a := boundary tokens n) in *.
    change (boundary tokens (S n)) with (getEndOffset tokens n).
    set (e := getEndOffset tokens n) in *.
    unfold JS.length in Hend, Hboundary.
    set (text := String.substring (Z.to_nat a) (Z.to_nat e - Z.to_nat a) line).
    set (rest := String.substring (Z.to_nat e) (String.length line - Z.to_nat e)
                                  line).
    assert (Hsplit : String.substring (Z.to_nat a)
                                      (String.length line - Z.to_nat a) line
                     = text ++ rest).
    { apply JSFacts.substring_split. lia. }
    assert (Htext : JS.length text = e - a).
    { unfold JS.length, text. rewrite JSFacts.length_substring; lia. }
    assert (Hsub : JS.substring line a e = text).
    { apply JSFacts.substring_in_range; unfold JS.length; lia. }
    rewrite Hsplit.
    unfold strip_step, describedPiece.
    fold e. rewrite Hstart. fold a. rewrite Hsub.
    destruct (getStandardTokenType tokens n); simpl.
    + rewrite JSFacts.append_assoc. f_equal.
      rewrite JSFacts.JS_length_append. lia.
    + replace (JS.length P - a + a) with (JS.length P) by lia.
      rewrite JSFacts.substr_left.
      replace (JS.length P - a + e) with (JS.length (P ++ text))
        by (rewrite JSFacts.JS_length_append; lia).
      rewrite <- (JSFacts.append_assoc P text rest), JSFacts.substr_from_right.
      rewrite JSFacts.append_empty_r. f_equal. lia.
    + destruct (singleCharacters_texts brackets Hsingle) as [Hopen Hclose].
      set (modified := replaceEach (bracketsClose brackets)
                                   (replaceEach (bracketsOpen brackets) text)).
      assert (Hmodified : JS.length modified = JS.length text).
      { unfold JS.length, modified.
        rewrite (replaceEach_length _ _ Hclose), (replaceEach_length _ _ Hopen).
        reflexivity. }
      rewrite Hmodified.
      replace (JS.length P - a + (JS.length text - JS.length text) + a)
        with (JS.length P) by lia.
      rewrite JSFacts.substring_left.
      replace (JS.length P - a + (JS.length text - JS.length text) + e)
        with (JS.length (P ++ text))
        by (rewrite JSFacts.JS_length_append; lia).
      rewrite <- (JSFacts.append_assoc P text rest), JSFacts.substring_from_right.
      rewrite JSFacts.append_assoc. f_equal.
      rewrite JSFacts.JS_length_append. lia.
    + destruct (singleCharacters_texts brackets Hsingle) as [Hopen Hclose].
      set (modified := replaceEach (bracketsClose brackets)
                                   (replaceEach (bracketsOpen brackets) text)).
      assert (Hmodified : JS.length modified = JS.length text).
      { unfold JS.length, modified.
        rewrite (replaceEach_length _ _ Hclose), (replaceEach_length _ _ Hopen).
        reflexivity. }
      rewrite Hmodified.
      replace (JS.length P - a + (JS.length text - JS.length text) + a)
        with (JS.length P) by lia.
      rewrite JSFacts.substring_left.
      replace (JS.length P - a + (JS.length text - JS.length text) + e)
        with (JS.length (P ++ text))
        by (rewrite JSFacts.JS_length_append; lia).
      rewrite <- (JSFacts.append_assoc P text rest), JSFacts.substring_from_right.
      rewrite JSFacts.append_assoc. f_equal.
      rewrite JSFacts.JS_length_append. lia.
Qed.

(** Where the description of [getStrippedLineForLineAndTokens] holds: when
    the tokens cover the line and every bracket text is a single character,
    so that no replacement changes a length, the function returns the line
    without its comments and with the first occurrence of each bracket
    replaced in each string and regular expression. *)
Theorem stripped_single_characters
        (service : ILanguageConfigurationService) (language line : string)
        (tokens : Tokens) :
  covers tokens line ->
  singleCharacters (brackets (getLanguageConfiguration service language)) ->
  getStrippedLineForLineAndTokens service language line tokens
  = strippedAsDescribed (brackets (getLanguageConfiguration service language))
                        line tokens.
Proof.
  intros Hcovers Hsingle.
  unfold getStrippedLineForLineAndTokens, strippedAsDescribed.
  rewrite (strip_loop _ line tokens Hcovers Hsingle (getCount tokens) (le_n _)).
  simpl fst.
  rewrite (proj2 Hcovers). unfold JS.length.
  rewrite Nat2Z.id, Nat.sub_diag, JSFacts.substring_nothing.
  apply JSFacts.append_empty_r.
Qed.

(** The line of C of the sample, stripped: the comments are gone, and in the
    string the first brace and the first parenthesis of each kind are
    replaced while the second opening brace stays. *)
Lemma stripped_single_characters_witness :
  getStrippedLineForLineAndTokens Sample.service "c" Sample.cLine Sample.cTokens
  = "a  '___{' b ".
Proof.
  rewrite (stripped_single_characters Sample.service "c" Sample.cLine
                                      Sample.cTokens).
  - reflexivity.
  - split.
    + intros i Hi.
      do 6 (destruct i as [|i]; [simpl; unfold JS.length; simpl; lia|]).
      simpl in Hi. lia.
    + reflexivity.
  - intros bs Hbs. injection Hbs as <-.
    repeat constructor.
Defined.

(** C10, at a line of Pascal: the line ['begin' x] is a string token
    followed by a token of no special type, and [begin] is a bracket.  The
    description gives the line with [begin] replaced and the rest kept;
    [getStrippedLineForLineAndTokens] keeps three letters of [begin] and
    loses the text after the string. *)
Theorem getStrippedLine_word_bracket :
  getStrippedLineForLineAndTokens Sample.service "pascal" Sample.pascalLine
                                  Sample.pascalTokens = "'beg'_'"
  /\ strippedAsDescribed (Some Sample.wordBrackets) Sample.pascalLine
                         Sample.pascalTokens = "'_' x".
Proof. split; reflexivity. Qed.

End AutoIndentFacts.

(* ===================================================================== *)
(** ** Properties of the array sort *)
(* ===================================================================== *)

Module JSArrayFacts.

Section Keyed.

Variable A : Type.
Variable compareFn : A -> A -> Z.

(** The comparison orders the elements by a numeric key. *)
Variable key : A -> Z.
Hypothesis compare_key : forall x y, compareFn x y <= 0 <-> key x <= key y.

Let byKey (x y : A) : Prop := key x <= key y.

Lemma insert_Permutation (x : A) (l : list A) :
  Permutation (x :: l) (JSArray.insert compareFn x l).
Proof.
  induction l as [|y l IH]; simpl.
  - apply Permutation_refl.
  - destruct (compareFn x y <=? 0).
    + apply Permutation_refl.
    + eapply perm_trans; [apply perm_swap|].
      apply perm_skip. exact IH.
Qed.

Lemma sort_Permutation (l : list A) : Permutation l (JSArray.sort compareFn l).
Proof.
  induction l as [|x l IH]; simpl.
  - apply perm_nil.
  - eapply perm_trans; [apply perm_skip; exact IH|].
    apply insert_Permutation.
Qed.

Lemma insert_sorted (x : A) (l : list A) :
  StronglySorted byKey l -> StronglySorted byKey (JSArray.insert compareFn x l).
Proof.
  induction 1 as [|y l Hsorted IH Hall]; simpl.
  - constructor; constructor.
  - destruct (compareFn x y <=? 0) eqn:Hcmp.
    + apply Z.leb_le, compare_key in Hcmp.
      constructor; [constructor; assumption|].
      constructor; [exact Hcmp|].
      eapply Forall_impl; [|exact Hall].
      intros z Hyz. unfold byKey in *. lia.
    + apply Z.leb_gt in Hcmp.
      assert (Hyx : byKey y x).
      { unfold byKey.
        destruct (Z_le_gt_dec (key y) (key x)) as [Hle|Hgt]; [exact Hle|].
        exfalso. assert (compareFn x y <= 0) by (apply compare_key; lia). lia. }
      constructor; [exact IH|].
      eapply Permutation_Forall; [apply insert_Permutation|].
      constructor; assumption.
Qed.

Lemma sort_sorted (l : list A) : StronglySorted byKey (JSArray.sort compareFn l).
Proof.
  induction l as [|x l IH]; simpl.
  - constructor.
  - apply insert_sorted. exact IH.
Qed.

(** The sort is stable: the elements of one key keep their order. *)
Lemma insert_stable (k : Z) (x : A) (l : list A) :
  List.filter (fun y => key y =? k) (JSArray.insert compareFn x l)
  = List.filter (fun y => key y =? k) (x :: l).
Proof.
  induction l as [|y l IH]; simpl.
  - reflexivity.
  - destruct (compareFn x y <=? 0) eqn:Hcmp; [reflexivity|].
    assert (Hlt : key y < key x).
    { apply Z.leb_gt in Hcmp.
      destruct (Z_lt_le_dec (key y) (key x)) as [Hlt|Hge]; [exact Hlt|].
      exfalso. assert (compareFn x y <= 0) by (apply compare_key; exact Hge).
      lia. }
    simpl in IH. simpl. rewrite IH.
    destruct (key y =? k) eqn:Hy; destruct (key x =? k) eqn:Hx; try reflexivity.
    apply Z.eqb_eq in Hy. apply Z.eqb_eq in Hx. lia.
Qed.

Lemma sort_stable (k : Z) (l : list A) :
  List.filter (fun y => key y =? k) (JSArray.sort compareFn l)
  = List.filter (fun y => key y =? k) l.
Proof.
  induction l as [|x l IH]; simpl.
  - reflexivity.
  - rewrite insert_stable. simpl. rewrite IH. reflexivity.
Qed.

(** The first element of a sorted array is an element of the array with the
    least key. *)
Lemma sort_head (l : list A) (h : A) :
  hd_error (JSArray.sort compareFn l) = Some h ->
  In h l /\ forall c, In c l -> key h <= key c.
Proof.
  intros Hhead.
  pose proof (sort_sorted l) as Hsorted.
  pose proof (sort_Permutation l) as Hperm.
  destruct (JSArray.sort compareFn l) as [|h' rest]; [discriminate|].
  injection Hhead as ->.
  split.
  - eapply Permutation_in; [apply Permutation_sym; exact Hperm|]. now left.
  - intros c Hc.
    apply (Permutation_in _ Hperm) in Hc.
    destruct Hc as [<- | Hc]; [lia|].
    apply StronglySorted_inv in Hsorted. destruct Hsorted as [_ Hall].
    rewrite Forall_forall in Hall. apply Hall. exact Hc.
Qed.

(** Sorting loses no element: an array that is not empty has a first element
    after the sort. *)
Lemma sort_nonempty (l : list A) :
  l <> [] -> exists h, hd_error (JSArray.sort compareFn l) = Some h.
Proof.
  intros Hne.
  pose proof (sort_Permutation l) as Hperm.
  destruct (JSArray.sort compareFn l) as [|h rest].
  - apply Permutation_sym, Permutation_nil in Hperm. contradiction.
  - exists h. reflexivity.
Qed.

End Keyed.

End JSArrayFacts.

(* ===================================================================== *)
(** ** Properties of the content-hover controller *)
(* ===================================================================== *)

Module ContentHoverFacts.

Import ContentHover.

Section Facts.

Context {anchors : AnchorHost} {widgets : WidgetHost}.

(* --------------------------------------------------------------------- *)
(** *** The ranges of a hover *)

(** [find] on a list with one more element at its end. *)
Lemma find_snoc {A : Type} (f : A -> bool) (l : list A) (x : A) :
  find f (rev (l ++ [x])) = if f x then Some x else find f (rev l).
Proof. rewrite rev_app_distr. reflexivity. Qed.

(** The loop of [computeHoverRanges], for any state it starts from. *)
Lemma ranges_loop (anchorLineNumber boundary : Z) (msgs : list IHoverPart) :
  forall (h : Range) (c : Z) (f : option Range),
    exists c',
      fold_left (ranges_step anchorLineNumber boundary) msgs (h, c, f)
      = (fold_left plusRange (map range msgs) h, c',
         match find forcesRange (rev msgs) with
         | Some m => Some (range m)
         | None => f
         end).
Proof.
  induction msgs as [|msg msgs IH] using rev_ind; intros h c f.
  - exists c. reflexivity.
  - destruct (IH h c f) as [c' Hloop].
    rewrite fold_left_app, Hloop, map_app, fold_left_app, find_snoc.
    simpl. eexists.
    unfold forcesRange, truthy.
    destruct (forceShowAtRange msg) as [[|]|]; reflexivity.
Qed.

(** C4: for a list of messages that is not empty, [computeHoverRanges]
    returns as [highlightRange] the first message's range joined by
    [Range.plusRange] with the range of every message in turn, and as
    [showAtPosition] the start of the range of the last message that has
    [forceShowAtRange] set, or, when no message has, the position (anchor
    start line, anchor start column). *)
Theorem computeHoverRanges_spec (editor : ICodeEditor) (anchorRange : Range)
        (first : IHoverPart) (rest : list IHoverPart) :
  exists ranges,
    computeHoverRanges editor anchorRange (first :: rest) = Some ranges
    /\ highlightRange ranges
       = fold_left plusRange (map range (first :: rest)) (range first)
    /\ ranges_showAtPosition ranges
       = match find forcesRange (rev (first :: rest)) with
         | Some msg => getStartPosition (range msg)
         | None => {| lineNumber := startLineNumber anchorRange;
                      column := startColumn anchorRange |}
         end.
Proof.
  unfold computeHoverRanges.
  destruct (ranges_loop (startLineNumber anchorRange)
                        (startColumnBoundary editor anchorRange)
                        (first :: rest) (range first) (startColumn anchorRange)
                        None) as [c' Hloop].
  rewrite Hloop.
  destruct (find forcesRange (rev (first :: rest))) as [msg|];
    eexists; (split; [reflexivity|]); split; reflexivity.
Qed.

(* --------------------------------------------------------------------- *)
(** *** Results that are kept back *)

(** C5: while the hover is visible with a complete current result, an
    incoming result that is not complete is ignored, and so is an incoming
    complete result without messages when [insistOnKeepingHoverVisible] is
    set: [_withResult] leaves the controller, with its current result and
    its widget, as it is. *)
Theorem _withResult_keeps (hoverResult current : HoverResult) (s : State) :
  position (_widget s) <> None ->
  _currentResult s = Some current ->
  isComplete current = true ->
  (isComplete hoverResult = false -> _withResult hoverResult s = s)
  /\ (insistOnKeepingHoverVisible (_computer s) = true ->
      isComplete hoverResult = true ->
      messages hoverResult = [] ->
      _withResult hoverResult s = s).
Proof.
  intros Hvisible Hcurrent Hcomplete.
  unfold _withResult, shownResult.
  destruct (position (_widget s)) as [pos|]; [|contradiction].
  rewrite Hcurrent, Hcomplete.
  split.
  - intros Hpartial. rewrite Hpartial. reflexivity.
  - intros Hinsist Hdone Hempty. rewrite Hdone, Hinsist, Hempty. reflexivity.
Qed.

(* --------------------------------------------------------------------- *)
(** *** How the pieces of the controller change its state *)

Lemma grows_trans (l1 l2 l3 : list OperationCall) :
  grows l1 l2 -> grows l2 l3 -> grows l1 l3.
Proof.
  intros H12 H23. induction H23.
  - exact H12.
  - apply grows_cancel. exact IHgrows.
  - apply grows_restart. exact IHgrows.
Qed.

Lemma evolves_refl (s : State) : evolves s s.
Proof. repeat split; [apply grows_same | now left]. Qed.

Lemma evolves_trans (s1 s2 s3 : State) :
  evolves s1 s2 -> evolves s2 s3 -> evolves s1 s3.
Proof.
  intros (Hp12 & Hg12 & Hr12) (Hp23 & Hg23 & Hr23).
  split; [congruence|]. split; [eapply grows_trans; eassumption|].
  destruct Hr23 as [Hsame | Hrendered].
  - destruct Hr12 as [Hsame' | Hrendered'].
    + left. congruence.
    + right. rewrite Hsame. exact Hrendered'.
  - right. rewrite <- Hp12. exact Hrendered.
Qed.

(** The loop over the participants, for any state it starts from: it
    appends one group per participant. *)
Lemma render_loop (hoverParts : list IHoverPart)
      (participants : list IEditorHoverParticipant) :
  forall (context : Rendering) (rendered : list RenderedPart),
    exists context' groups,
      fold_left (render_step hoverParts) participants (context, rendered)
      = (context', (rendered ++ List.concat groups)%list)
      /\ Forall2 (groupOf hoverParts) participants groups.
Proof.
  induction participants as [|participant rest IH]; intros context rendered.
  - exists context, []. simpl. rewrite app_nil_r. split; [reflexivity|constructor].
  - simpl fold_left.
    change (render_step hoverParts (context, rendered) participant)
      with (if Nat.eqb (List.length (hoverPartsFor participant hoverParts)) 0
            then (context, rendered)
            else let '(context', elements) :=
                     renderHoverParts participant context
                                      (hoverPartsFor participant hoverParts) in
                 (context',
                  (rendered ++ renderedFor participant elements
                     (hoverPartsFor participant hoverParts))%list)).
    destruct (Nat.eqb (List.length (hoverPartsFor participant hoverParts)) 0)
             eqn:Hnone.
    + destruct (IH context rendered) as (context' & groups & Hloop & Hgroups).
      exists context', ([] :: groups). simpl. split; [exact Hloop|].
      constructor; [|exact Hgroups].
      exists []. apply Nat.eqb_eq, length_zero_iff_nil in Hnone.
      rewrite Hnone. reflexivity.
    + destruct (renderHoverParts participant context
                                 (hoverPartsFor participant hoverParts))
        as [context1 elements] eqn:Hrender.
      destruct (IH context1
                   (rendered ++ renderedFor participant elements
                      (hoverPartsFor participant hoverParts))%list)
        as (context' & groups & Hloop & Hgroups).
      exists context',
        (renderedFor participant elements (hoverPartsFor participant hoverParts)
           :: groups).
      simpl. rewrite Hloop, <- app_assoc. split; [reflexivity|].
      constructor; [|exact Hgroups].
      exists elements. reflexivity.
Qed.

(** A render pass leaves in [_renderedParts] the groups of the participants
    and then the status bar, if it has content; it touches nothing else but
    the colour picker. *)
Lemma _renderHoverPartsInFragment_rendered (hoverParts : list IHoverPart)
      (s : State) :
  let context := fst (_renderHoverPartsInFragment hoverParts s) in
  let s' := snd (_renderHoverPartsInFragment hoverParts s) in
  (exists groups,
      Forall2 (groupOf hoverParts) (_participants s) groups
      /\ _renderedParts s'
         = (List.concat groups
              ++ if statusBar_hasContent context
                 then [RenderedHoverStatusBar statusBar_hoverElement]
                 else [])%list)
  /\ _participants s' = _participants s
  /\ _hoverOperation s' = _hoverOperation s
  /\ _computer s' = _computer s
  /\ _currentResult s' = _currentResult s
  /\ _widget s' = _widget s.
Proof.
  unfold _renderHoverPartsInFragment, _renderHoverPartsWithContext.
  destruct (render_loop hoverParts (_participants s)
                        {| fragment := []; statusBar_hasContent := false;
                           colorPicker := _colorWidget s |} [])
    as (context' & groups & Hloop & Hgroups).
  rewrite Hloop. simpl app.
  unfold _renderStatusBar.
  destruct (statusBar_hasContent context') eqn:Hcontent; simpl;
    (split; [|repeat split]); exists groups; (split; [exact Hgroups|]).
  - reflexivity.
  - rewrite Hcontent, app_nil_r. reflexivity.
Qed.

Lemma _renderHoverPartsInFragment_renderedBy (hoverParts : list IHoverPart)
      (s : State) :
  renderedBy (_participants s)
             (_renderedParts (snd (_renderHoverPartsInFragment hoverParts s))).
Proof.
  destruct (_renderHoverPartsInFragment_rendered hoverParts s)
    as [(groups & Hgroups & Hparts) _].
  exists hoverParts, groups.
  eexists. split; [exact Hparts|]. split; [exact Hgroups|].
  destruct (statusBar_hasContent _); auto.
Qed.

Lemma _renderHoverParts_evolves (a : HoverAnchor) (hoverParts : list IHoverPart)
      (s : State) :
  evolves s (_renderHoverParts a hoverParts s)
  /\ _computer (_renderHoverParts a hoverParts s) = _computer s
  /\ _currentResult (_renderHoverParts a hoverParts s) = _currentResult s.
Proof.
  pose proof (_renderHoverPartsInFragment_rendered hoverParts s) as Hpass.
  pose proof (_renderHoverPartsInFragment_renderedBy hoverParts s) as Hrendered.
  unfold _renderHoverParts.
  destruct (_renderHoverPartsInFragment hoverParts s) as [context s1].
  simpl in Hpass, Hrendered.
  destruct Hpass as (_ & Hparticipants & Hcalls & Hcomputer & Hresult & _).
  assert (Hevolves : evolves s s1).
  { split; [exact Hparticipants|]. split; [rewrite Hcalls; apply grows_same|].
    right. exact Hrendered. }
  destruct (fragment context); [auto|].
  destruct (computeHoverRanges (_editor s1) (anchor_range a) hoverParts); [|auto].
  split; [|auto].
  destruct Hevolves as (Hp & Hg & Hr). repeat split; assumption.
Qed.

Lemma _setCurrentResult_evolves (hoverResult : option HoverResult) (s : State) :
  evolves s (_setCurrentResult hoverResult s)
  /\ _computer (_setCurrentResult hoverResult s) = _computer s.
Proof.
  unfold _setCurrentResult.
  destruct (sameResult (_currentResult s) hoverResult).
  - split; [apply evolves_refl | reflexivity].
  - match goal with
    | |- context [set_currentResult ?r s] => set (s1 := set_currentResult r s)
    end.
    destruct (_currentResult s1) as [r|].
    + destruct (_renderHoverParts_evolves (anchor r) (messages r) s1)
        as (Hevolves & Hcomputer & _).
      split; [|rewrite Hcomputer; reflexivity].
      destruct Hevolves as (Hp & Hg & Hr). repeat split; assumption.
    + split; [|reflexivity].
      repeat split; [apply grows_same | now left].
Qed.

Lemma _withResult_evolves (hoverResult : HoverResult) (s : State) :
  evolves s (_withResult hoverResult s).
Proof.
  unfold _withResult.
  destruct (match shownResult s with
            | Some current => isComplete current
            | None => false
            end).
  - destruct (negb (isComplete hoverResult)); [apply evolves_refl|].
    destruct (insistOnKeepingHoverVisible (_computer s)
              && Nat.eqb (List.length (messages hoverResult)) 0);
      [apply evolves_refl | apply _setCurrentResult_evolves].
  - apply _setCurrentResult_evolves.
Qed.

Lemma onResult_evolves (result : OperationResult) (s : State) :
  evolves s (onResult result s).
Proof.
  unfold onResult.
  destruct (computer_anchor (_computer s)); [|apply evolves_refl].
  match goal with
  | |- evolves s (_withResult ?r ?s1) =>
    pose proof (_withResult_evolves r s1) as (Hp & Hg & Hr)
  end.
  repeat split; assumption.
Qed.

Lemma onTokenizationChange_evolves (s : State) :
  evolves s (onTokenizationChange s).
Proof.
  unfold onTokenizationChange.
  destruct (isShown s); [apply _setCurrentResult_evolves | apply evolves_refl].
Qed.

(** [_startHoverOperationIfNecessary], case by case. *)
Lemma _startHoverOperationIfNecessary_cases (a : HoverAnchor)
      (mode : HoverStartMode) (src : HoverStartSource) (focus insist : bool)
      (s : State) :
  let s' := _startHoverOperationIfNecessary a mode src focus insist s in
  (sameComputerAnchor a s = true /\ s' = s)
  \/ (sameComputerAnchor a s = false
      /\ _hoverOperation s' = (_hoverOperation s ++ [Cancel; Start mode])%list
      /\ computer_anchor (_computer s') = Some a
      /\ _participants s' = _participants s
      /\ _renderedParts s' = _renderedParts s
      /\ _currentResult s' = _currentResult s
      /\ _widget s' = _widget s).
Proof.
  unfold _startHoverOperationIfNecessary.
  destruct (sameComputerAnchor a s).
  - left. auto.
  - right. simpl. rewrite <- app_assoc. repeat split.
Qed.

Lemma _startHoverOperationIfNecessary_evolves (a : HoverAnchor)
      (mode : HoverStartMode) (src : HoverStartSource) (focus insist : bool)
      (s : State) :
  evolves s (_startHoverOperationIfNecessary a mode src focus insist s).
Proof.
  destruct (_startHoverOperationIfNecessary_cases a mode src focus insist s)
    as [[_ Hsame] | (_ & Hcalls & _ & Hp & Hr & _)].
  - rewrite Hsame. apply evolves_refl.
  - split; [exact Hp|]. split; [|left; exact Hr].
    rewrite Hcalls. apply grows_restart, grows_same.
Qed.

Lemma isGettingCloser_evolves (mouseEvent : option IEditorMouseEvent) (s : State) :
  evolves s (snd (isGettingCloser mouseEvent s))
  /\ _currentResult (snd (isGettingCloser mouseEvent s)) = _currentResult s.
Proof.
  unfold isGettingCloser.
  destruct (hover_sticky (_editor s)); [|split; [apply evolves_refl|reflexivity]].
  destruct mouseEvent as [e|]; [|split; [apply evolves_refl|reflexivity]].
  destruct (isMouseGettingCloser (_widget s) (posx e) (posy e)) as [closer w].
  simpl. split; [|reflexivity].
  repeat split; [apply grows_same | now left].
Qed.

Lemma _startShowingOrUpdateHover_evolves (a : option HoverAnchor)
      (mode : HoverStartMode) (src : HoverStartSource) (focus : bool)
      (mouseEvent : option IEditorMouseEvent) (s : State) :
  evolves s (snd (_startShowingOrUpdateHover a mode src focus mouseEvent s)).
Proof.
  unfold _startShowingOrUpdateHover.
  destruct (shownResult s) as [current|].
  - pose proof (isGettingCloser_evolves mouseEvent s) as [Hcloser _].
    destruct (isGettingCloser mouseEvent s) as [closer s1]. simpl in Hcloser.
    destruct closer.
    + destruct a as [a'|]; simpl; [|exact Hcloser].
      eapply evolves_trans; [exact Hcloser|].
      apply _startHoverOperationIfNecessary_evolves.
    + destruct a as [a'|]; simpl.
      * destruct (equals (anchor current) a'); simpl; [exact Hcloser|].
        destruct (negb (canAdoptVisibleHover a' (anchor current)
                                             (position (_widget s1)))); simpl;
          (eapply evolves_trans; [exact Hcloser|]);
          (eapply evolves_trans; [apply _setCurrentResult_evolves|]);
          apply _startHoverOperationIfNecessary_evolves.
      * eapply evolves_trans; [exact Hcloser|]. apply _setCurrentResult_evolves.
  - destruct a as [a'|]; simpl; [|apply evolves_refl].
    apply _startHoverOperationIfNecessary_evolves.
Qed.

Lemma showsOrWillShow_evolves (mouseEvent : IEditorMouseEvent) (s : State) :
  evolves s (snd (showsOrWillShow mouseEvent s)).
Proof.
  unfold showsOrWillShow.
  destruct (isResizing (_widget s)); [apply evolves_refl|].
  destruct (anchorCandidates mouseEvent s);
    apply _startShowingOrUpdateHover_evolves.
Qed.

(** [hide] cancels, and does nothing else to the hover operation. *)
Lemma hide_calls (s : State) :
  _hoverOperation (hide s) = (_hoverOperation s ++ [Cancel])%list
  /\ computer_anchor (_computer (hide s)) = None
  /\ evolves s (hide s).
Proof.
  unfold hide. cbv zeta.
  set (s1 := call_hoverOperation Cancel (set_computer _ s)).
  destruct (_setCurrentResult_evolves None s1) as [(Hp & Hg & Hr) Hcomputer].
  assert (Hcalls : _hoverOperation (_setCurrentResult None s1)
                   = (_hoverOperation s ++ [Cancel])%list).
  { unfold _setCurrentResult.
    destruct (sameResult (_currentResult s1) None); reflexivity. }
  split; [exact Hcalls|]. split; [rewrite Hcomputer; reflexivity|].
  split; [exact Hp|]. split; [|exact Hr].
  rewrite Hcalls. apply grows_cancel, grows_same.
Qed.

(** Every event leaves the participants as they are, lets the calls grow and
    renders, if it renders, by a render pass. *)
Lemma handle_evolves (ev : Event) (s : State) : evolves s (handle ev s).
Proof.
  destruct ev; simpl.
  - apply showsOrWillShow_evolves.
  - apply _startShowingOrUpdateHover_evolves.
  - apply hide_calls.
  - apply onResult_evolves.
  - apply onTokenizationChange_evolves.
  - repeat split; [apply grows_same | now left].
Qed.

(* --------------------------------------------------------------------- *)
(** *** Cancel and replace *)

Lemma fetchesInFlight_snoc (calls : list OperationCall) (c : OperationCall) :
  fetchesInFlight (calls ++ [c])
  = match c with
    | Cancel => O
    | Start _ => S (fetchesInFlight calls)
    end.
Proof.
  unfold fetchesInFlight. rewrite fold_left_app.
  destruct c; reflexivity.
Qed.

Lemma everAtMostOne_snoc (calls : list OperationCall) (c : OperationCall) :
  everAtMostOne calls ->
  (fetchesInFlight (calls ++ [c]) <= 1)%nat ->
  everAtMostOne (calls ++ [c]).
Proof.
  intros Hbefore Hnow n.
  destruct (le_lt_dec n (List.length calls)) as [Hshort | Hlong].
  - rewrite firstn_app.
    replace (n - List.length calls)%nat with O by lia.
    simpl. rewrite app_nil_r. apply Hbefore.
  - rewrite firstn_all2; [exact Hnow|].
    rewrite length_app. simpl. lia.
Qed.

Lemma grows_everAtMostOne (calls calls' : list OperationCall) :
  grows calls calls' -> everAtMostOne calls -> everAtMostOne calls'.
Proof.
  induction 1 as [|calls' _ IH | calls' mode _ IH]; intros Hbefore.
  - exact Hbefore.
  - apply everAtMostOne_snoc; [apply IH; exact Hbefore|].
    rewrite fetchesInFlight_snoc. lia.
  - change (calls' ++ [Cancel; Start mode])%list
      with (calls' ++ [Cancel] ++ [Start mode])%list.
    rewrite app_assoc.
    apply everAtMostOne_snoc.
    + apply everAtMostOne_snoc; [apply IH; exact Hbefore|].
      rewrite fetchesInFlight_snoc. lia.
    + rewrite !fetchesInFlight_snoc. lia.
Qed.

(** C2: a hover computation started at an anchor that is not the anchor of
    the current computation cancels the hover operation and then starts it,
    in this order, and makes the anchor the current one; at the anchor of
    the current computation nothing is done; [hide] cancels the hover
    operation; and at no time of the life of a controller is more than one
    fetch in flight. *)
Theorem cancel_and_replace :
  (forall a mode src focus insist s,
      (forall current, computer_anchor (_computer s) = Some current ->
                       equals current a = false) ->
      let s' := _startHoverOperationIfNecessary a mode src focus insist s in
      _hoverOperation s' = (_hoverOperation s ++ [Cancel; Start mode])%list
      /\ computer_anchor (_computer s') = Some a)
  /\ (forall a mode src focus insist s current,
         computer_anchor (_computer s) = Some current ->
         equals current a = true ->
         _startHoverOperationIfNecessary a mode src focus insist s = s)
  /\ (forall s, _hoverOperation (hide s) = (_hoverOperation s ++ [Cancel])%list)
  /\ (forall registry s,
         reachable registry s -> everAtMostOne (_hoverOperation s)).
Proof.
  split; [|split; [|split]].
  - intros a mode src focus insist s Hother.
    destruct (_startHoverOperationIfNecessary_cases a mode src focus insist s)
      as [[Hsame _] | (_ & Hcalls & Hanchor & _)].
    + unfold sameComputerAnchor in Hsame.
      destruct (computer_anchor (_computer s)) as [current|]; [|discriminate].
      rewrite (Hother current eq_refl) in Hsame. discriminate.
    + split; assumption.
  - intros a mode src focus insist s current Hcurrent Hequal.
    destruct (_startHoverOperationIfNecessary_cases a mode src focus insist s)
      as [[_ Hsame] | (Hother & _)].
    + exact Hsame.
    + unfold sameComputerAnchor in Hother.
      rewrite Hcurrent, Hequal in Hother. discriminate.
  - intros s. apply hide_calls.
  - intros registry s Hreachable.
    induction Hreachable as [editor widget computer | s ev _ IH].
    + intros n. simpl _hoverOperation. rewrite firstn_nil.
      unfold fetchesInFlight. simpl. apply Nat.le_0_l.
    + eapply grows_everAtMostOne; [|exact IH].
      apply handle_evolves.
Qed.

(* --------------------------------------------------------------------- *)
(** *** The order of the rendered parts *)

Lemma sortedParticipants_ascending (registry : list ParticipantClass) :
  ascending (sortedParticipants registry).
Proof.
  unfold ascending, sortedParticipants.
  apply (JSArrayFacts.sort_sorted IEditorHoverParticipant _
           (fun p : IEditorHoverParticipant => hoverOrdinal p)).
  intros p q. lia.
Qed.

Lemma sortedParticipants_Permutation (registry : list ParticipantClass) :
  Permutation (instantiate registry) (sortedParticipants registry).
Proof. apply JSArrayFacts.sort_Permutation. Qed.

(** The participants of a controller are those its constructor sorted. *)
Lemma reachable_participants (registry : list ParticipantClass) (s : State) :
  reachable registry s -> _participants s = sortedParticipants registry.
Proof.
  induction 1 as [editor widget computer | s ev _ IH].
  - reflexivity.
  - destruct (handle_evolves ev s) as (Hp & _). congruence.
Qed.

(** Before anything is rendered. *)
Lemma renderedBy_nil (participants : list IEditorHoverParticipant) :
  renderedBy participants [].
Proof.
  exists [], (map (fun _ => []) participants), [].
  split; [|split; [|now left]].
  - rewrite app_nil_r.
    induction participants as [|p rest IH]; [reflexivity | exact IH].
  - induction participants as [|p rest IH]; constructor; [|exact IH].
    exists []. destruct p as [r c]. reflexivity.
Qed.

Lemma reachable_renderedBy (registry : list ParticipantClass) (s : State) :
  reachable registry s -> renderedBy (_participants s) (_renderedParts s).
Proof.
  induction 1 as [editor widget computer | s ev _ IH].
  - apply renderedBy_nil.
  - destruct (handle_evolves ev s) as (Hp & _ & [Hsame | Hrendered]).
    + rewrite Hp, Hsame. exact IH.
    + rewrite Hp. exact Hrendered.
Qed.

Lemma renderedOrdinals_app (l1 l2 : list RenderedPart) :
  renderedOrdinals (l1 ++ l2) = (renderedOrdinals l1 ++ renderedOrdinals l2)%list.
Proof. apply flat_map_app. Qed.

(** The parts of a group carry the ordinal of its participant. *)
Lemma groupOf_ordinals (hoverParts : list IHoverPart)
      (participant : IEditorHoverParticipant) (group : list RenderedPart) :
  groupOf hoverParts participant group ->
  Forall (fun z => z = hoverOrdinal participant) (renderedOrdinals group).
Proof.
  intros [elements ->]. unfold renderedFor.
  induction (JSArray.entries (hoverPartsFor participant hoverParts))
    as [|e rest IH]; simpl.
  - constructor.
  - constructor; [reflexivity | exact IH].
Qed.

Lemma sorted_after_constant (k : Z) (l1 l2 : list Z) :
  Forall (fun z => z = k) l1 ->
  Forall (fun z => k <= z) l2 ->
  StronglySorted Z.le l2 ->
  StronglySorted Z.le (l1 ++ l2).
Proof.
  intros Hconst Hafter Hsorted.
  induction l1 as [|z l1 IH]; simpl.
  - exact Hsorted.
  - inversion Hconst as [|z' l1' Hz Hrest]; subst.
    constructor; [apply IH; exact Hrest|].
    apply Forall_app. split; [|exact Hafter].
    eapply Forall_impl; [|exact Hrest].
    intros z ->. apply Z.le_refl.
Qed.

(** The ordinals in the groups of participants are ordinals of these
    participants. *)
Lemma groups_bounded (hoverParts : list IHoverPart) (k : Z)
      (participants : list IEditorHoverParticipant)
      (groups : list (list RenderedPart)) :
  Forall2 (groupOf hoverParts) participants groups ->
  Forall (fun q : IEditorHoverParticipant => k <= hoverOrdinal q) participants ->
  Forall (fun z => k <= z) (renderedOrdinals (List.concat groups)).
Proof.
  induction 1 as [|p g ps gs Hgroup _ IH]; intros Hbound; simpl.
  - constructor.
  - inversion Hbound as [|p' ps' Hp Hps]; subst.
    rewrite renderedOrdinals_app. apply Forall_app. split.
    + eapply Forall_impl; [|apply (groupOf_ordinals _ _ _ Hgroup)].
      intros z ->. exact Hp.
    + apply IH. exact Hps.
Qed.

(** Groups of participants in ascending order have their ordinals in
    ascending order. *)
Lemma groups_sorted (hoverParts : list IHoverPart)
      (participants : list IEditorHoverParticipant)
      (groups : list (list RenderedPart)) :
  Forall2 (groupOf hoverParts) participants groups ->
  ascending participants ->
  StronglySorted Z.le (renderedOrdinals (List.concat groups)).
Proof.
  induction 1 as [|p g ps gs Hgroup Hgroups IH]; intros Hascending; simpl.
  - constructor.
  - apply StronglySorted_inv in Hascending.
    destruct Hascending as [Hrest Hfirst].
    rewrite renderedOrdinals_app.
    apply (sorted_after_constant (hoverOrdinal p)).
    + apply (groupOf_ordinals _ _ _ Hgroup).
    + apply (groups_bounded hoverParts _ ps); assumption.
    + apply IH. exact Hrest.
Qed.

(** C6: the participants of a controller are the instances its constructor
    made, sorted in ascending order of [hoverOrdinal]; every render pass
    goes through them in this order, so it leaves in [_renderedParts] one
    group of hover parts per participant, in the order of the participants,
    and after the groups the status bar when it has content; and at any time
    the rendered parts are such groups, their ordinals ascending, followed
    by the status bar or by nothing. *)
Theorem rendered_in_participant_order (registry : list ParticipantClass)
        (s : State) :
  reachable registry s ->
  _participants s = sortedParticipants registry
  /\ Permutation (instantiate registry) (_participants s)
  /\ ascending (_participants s)
  /\ (forall hoverParts,
         let pass := _renderHoverPartsInFragment hoverParts s in
         exists groups,
           Forall2 (groupOf hoverParts) (_participants s) groups
           /\ _renderedParts (snd pass)
              = (List.concat groups
                   ++ if statusBar_hasContent (fst pass)
                      then [RenderedHoverStatusBar statusBar_hoverElement]
                      else [])%list
           /\ StronglySorted Z.le (renderedOrdinals (List.concat groups)))
  /\ (exists hoverParts groups bar,
         _renderedParts s = (List.concat groups ++ bar)%list
         /\ Forall2 (groupOf hoverParts) (_participants s) groups
         /\ (bar = [] \/ bar = [RenderedHoverStatusBar statusBar_hoverElement])
         /\ StronglySorted Z.le (renderedOrdinals (List.concat groups))).
Proof.
  intros Hreachable.
  pose proof (reachable_participants registry s Hreachable) as Hparticipants.
  assert (Hascending : ascending (_participants s)).
  { rewrite Hparticipants. apply sortedParticipants_ascending. }
  split; [exact Hparticipants|].
  split; [rewrite Hparticipants; apply sortedParticipants_Permutation|].
  split; [exact Hascending|].
  split.
  - intros hoverParts pass.
    destruct (_renderHoverPartsInFragment_rendered hoverParts s)
      as [(groups & Hgroups & Hparts) _].
    exists groups. split; [exact Hgroups|]. split; [exact Hparts|].
    eapply groups_sorted; eassumption.
  - destruct (reachable_renderedBy registry s Hreachable)
      as (hoverParts & groups & bar & Hparts & Hgroups & Hbar).
    exists hoverParts, groups, bar.
    repeat split; try assumption.
    eapply groups_sorted; eassumption.
Qed.

(* --------------------------------------------------------------------- *)
(** *** Showing on a mouse event *)

Lemma suggestedAnchors_In (mouseEvent : IEditorMouseEvent) (a : HoverAnchor)
      (participants : list IEditorHoverParticipant) :
  In a (suggestedAnchors mouseEvent participants)
  <-> exists participant suggest,
      In participant participants
      /\ suggestHoverAnchor participant = Some suggest
      /\ suggest mouseEvent = Some a.
Proof.
  induction participants as [|p rest IH]; simpl.
  - split; [contradiction|]. intros (q & f & [] & _).
  - destruct (suggestHoverAnchor p) as [suggest|] eqn:Hsuggest.
    + destruct (suggest mouseEvent) as [b|] eqn:Hb.
      * simpl. rewrite IH. split.
        -- intros [<- | (q & f & Hin & Hf & Ha)].
           ++ exists p, suggest. auto.
           ++ exists q, f. auto.
        -- intros (q & f & [<- | Hin] & Hf & Ha).
           ++ left. congruence.
           ++ right. exists q, f. auto.
      * rewrite IH. split.
        -- intros (q & f & Hin & Hf & Ha). exists q, f. auto.
        -- intros (q & f & [<- | Hin] & Hf & Ha).
           ++ congruence.
           ++ exists q, f. auto.
    + rewrite IH. split.
      * intros (q & f & Hin & Hf & Ha). exists q, f. auto.
      * intros (q & f & [<- | Hin] & Hf & Ha).
        -- congruence.
        -- exists q, f. auto.
Qed.

Lemma Qltb_lt (a b : Q) : Qltb a b = true <-> (a < b)%Q.
Proof.
  unfold Qltb. destruct (Qlt_le_dec a b) as [Hlt | Hle].
  - split; auto.
  - split; [discriminate|]. intros Hlt. exfalso.
    exact (Qle_not_lt _ _ Hle Hlt).
Qed.

Lemma targetAnchors_In (editor : ICodeEditor) (mouseEvent : IEditorMouseEvent)
      (a : HoverAnchor) :
  In a (targetAnchors editor mouseEvent)
  <-> exists r,
      a = HoverRangeAnchor 0 r (Some (posx mouseEvent)) (Some (posy mouseEvent))
      /\ (target mouseEvent = CONTENT_TEXT r
          \/ exists distance,
              target mouseEvent = CONTENT_EMPTY r false (Some distance)
              /\ (distance < typicalHalfwidthCharacterWidth editor / 2)%Q).
Proof.
  unfold targetAnchors.
  destruct (target mouseEvent) as [r | r isAfterLines [distance|] |]; simpl.
  - split.
    + intros [<- | []]. exists r. auto.
    + intros (r' & -> & [Htext | (d & Hempty & _)]); [|discriminate].
      injection Htext as ->. now left.
  - destruct isAfterLines; simpl.
    + split; [contradiction|].
      intros (r' & _ & [Htext | (d & Hempty & _)]); discriminate.
    + destruct (Qltb distance (typicalHalfwidthCharacterWidth editor / 2))
               eqn:Hnear; simpl.
      * apply Qltb_lt in Hnear. split.
        -- intros [<- | []]. exists r. split; [reflexivity|].
           right. exists distance. auto.
        -- intros (r' & -> & [Htext | (d & Hempty & _)]); [discriminate|].
           injection Hempty as -> _. now left.
      * split; [contradiction|].
        intros (r' & _ & [Htext | (d & Hempty & Hd)]); [discriminate|].
        injection Hempty as _ ->.
        apply Qltb_lt in Hd. congruence.
  - split; [contradiction|].
    intros (r' & _ & [Htext | (d & Hempty & _)]); discriminate.
  - split; [contradiction|].
    intros (r' & _ & [Htext | (d & Hempty & _)]); discriminate.
Qed.

(** The first of the sorted candidates is a candidate of the highest
    priority. *)
Lemma sortByPriority_head (candidates : list HoverAnchor) (a : HoverAnchor) :
  hd_error (sortByPriority candidates) = Some a ->
  In a candidates /\ forall c, In c candidates -> priority c <= priority a.
Proof.
  intros Hhead.
  destruct (JSArrayFacts.sort_head HoverAnchor
              (fun a b => priority b - priority a)
              (fun a => - priority a)
              (fun x y => ltac:(lia)) candidates a Hhead) as [Hin Hleast].
  split; [exact Hin|].
  intros c Hc. specialize (Hleast c Hc). lia.
Qed.

(** When [_startShowingOrUpdateHover] answers no: there is no anchor, and
    the hover is not visible or the call hides it. *)
Lemma _startShowingOrUpdateHover_false (a : option HoverAnchor)
      (mode : HoverStartMode) (src : HoverStartSource) (focus : bool)
      (mouseEvent : option IEditorMouseEvent) (s : State) :
  let result := _startShowingOrUpdateHover a mode src focus mouseEvent s in
  fst result = false
  <-> a = None
      /\ (isShown s = false
          \/ (isShown s = true
              /\ _currentResult (snd result) = None
              /\ exists w, _widget (snd result) = widget_hide w)).
Proof.
  unfold _startShowingOrUpdateHover, isShown.
  destruct (shownResult s) as [current|] eqn:Hshown.
  - assert (Hcurrent : _currentResult s = Some current).
    { unfold shownResult in Hshown.
      destruct (position (_widget s)); [exact Hshown | discriminate]. }
    pose proof (isGettingCloser_evolves mouseEvent s) as [_ Hkept].
    destruct (isGettingCloser mouseEvent s) as [closer s1]. simpl in Hkept.
    rewrite Hcurrent in Hkept.
    destruct closer.
    + destruct a as [a'|]; simpl.
      * split; [discriminate|]. intros [Hnone _]. discriminate.
      * split; [discriminate|].
        intros [_ [Hhidden | (_ & Hresult & _)]]; [discriminate|].
        congruence.
    + destruct a as [a'|]; simpl.
      * split.
        -- destruct (equals (anchor current) a'); [discriminate|].
           destruct (negb (canAdoptVisibleHover a' (anchor current)
                                                (position (_widget s1))));
             discriminate.
        -- intros [Hnone _]. discriminate.
      * split; [|reflexivity].
        intros _. split; [reflexivity|]. right. split; [reflexivity|].
        unfold _setCurrentResult. rewrite Hkept. simpl.
        split; [reflexivity|]. exists (_widget s1). reflexivity.
  - destruct a as [a'|]; simpl.
    + split; [discriminate|]. intros [Hnone _]. discriminate.
    + split; auto.
Qed.

(** C3: [showsOrWillShow] answers yes, and does nothing, while the widget is
    resizing.  Otherwise its candidates are the anchors the participants
    suggest and a range anchor when the mouse is on content text or on empty
    content less than half the width of a character away from the text; it
    starts or updates the hover with no anchor when there is no candidate
    and else with a candidate of the highest priority; and it answers no
    exactly when there is no candidate and the hover is not visible or gets
    hidden by the call. *)
Theorem showsOrWillShow_spec (mouseEvent : IEditorMouseEvent) (s : State) :
  let candidates := anchorCandidates mouseEvent s in
  let result := showsOrWillShow mouseEvent s in
  (isResizing (_widget s) = true -> result = (true, s))
  /\ (forall a,
         In a candidates
         <-> (exists participant suggest,
                 In participant (_participants s)
                 /\ suggestHoverAnchor participant = Some suggest
                 /\ suggest mouseEvent = Some a)
             \/ (exists r,
                    a = HoverRangeAnchor 0 r (Some (posx mouseEvent))
                                         (Some (posy mouseEvent))
                    /\ (target mouseEvent = CONTENT_TEXT r
                        \/ exists distance,
                            target mouseEvent
                            = CONTENT_EMPTY r false (Some distance)
                            /\ (distance
                                < typicalHalfwidthCharacterWidth (_editor s) / 2)%Q)))
  /\ (isResizing (_widget s) = false ->
      exists best,
        result = _startShowingOrUpdateHover best Delayed Mouse false
                                            (Some mouseEvent) s
        /\ (candidates = [] -> best = None)
        /\ (candidates <> [] ->
            exists a, best = Some a
                      /\ In a candidates
                      /\ forall c, In c candidates -> priority c <= priority a))
  /\ (fst result = false
      <-> isResizing (_widget s) = false
          /\ candidates = []
          /\ (isShown s = false
              \/ (isShown s = true
                  /\ _currentResult (snd result) = None
                  /\ exists w, _widget (snd result) = widget_hide w))).
Proof.
  intros candidates result.
  split; [|split; [|split]].
  - intros Hresizing. subst result. unfold showsOrWillShow.
    rewrite Hresizing. reflexivity.
  - intros a. subst candidates. unfold anchorCandidates.
    rewrite in_app_iff, suggestedAnchors_In, targetAnchors_In. reflexivity.
  - intros Hresizing. subst result. unfold showsOrWillShow.
    rewrite Hresizing. fold candidates.
    destruct candidates as [|c0 rest] eqn:Hcandidates.
    + exists None. split; [reflexivity|]. split; [reflexivity|].
      intros Hne. contradiction.
    + destruct (JSArrayFacts.sort_nonempty HoverAnchor
                  (fun a b => priority b - priority a) (c0 :: rest))
        as [a Hhead]; [discriminate|].
      exists (Some a). fold (sortByPriority (c0 :: rest)) in Hhead.
      rewrite Hhead. split; [reflexivity|]. split; [discriminate|].
      intros _. exists a. split; [reflexivity|].
      apply sortByPriority_head. exact Hhead.
  - subst result. unfold showsOrWillShow. fold candidates.
    destruct (isResizing (_widget s)).
    + simpl. split; [discriminate|]. intros [Hno _]. discriminate.
    + destruct candidates as [|c0 rest] eqn:Hcandidates.
      * rewrite _startShowingOrUpdateHover_false.
        split.
        -- intros [_ Hhidden]. auto.
        -- intros (_ & _ & Hhidden). auto.
      * rewrite _startShowingOrUpdateHover_false.
        destruct (JSArrayFacts.sort_nonempty HoverAnchor
                    (fun a b => priority b - priority a) (c0 :: rest))
          as [a Hhead]; [discriminate|].
        fold (sortByPriority (c0 :: rest)) in Hhead. rewrite Hhead.
        split.
        -- intros [Hnone _]. discriminate.
        -- intros (_ & Hempty & _). discriminate.
Qed.


End Facts.

(** The sample controller [showing] is a state of the life of a
    controller. *)
Lemma showing_reachable :
  reachable (anchors := HoverSample.anchors) (widgets := HoverSample.widgets)
            HoverSample.registry HoverSample.showing.
Proof.
  unfold HoverSample.showing, HoverSample.fresh.
  apply reachable_step, reachable_step, reachable_new.
Qed.

(** The ranges of the parts of the sample, where the second part forces its
    range. *)
Example computeHoverRanges_sample :
  option_map (fun r => (highlightRange r, ranges_showAtPosition r))
             (computeHoverRanges (anchors := HoverSample.anchors)
                                 HoverSample.editor HoverSample.word
                                 HoverSample.someParts)
  = Some (HoverSample.span, {| lineNumber := 1; column := 3 |}).
Proof. reflexivity. Qed.

(** A partial result arrives at the sample controller, which shows a
    complete result. *)
Lemma _withResult_keeps_witness :
  _withResult (anchors := HoverSample.anchors) (widgets := HoverSample.widgets)
              HoverSample.later HoverSample.showing
  = HoverSample.showing.
Proof.
  apply (proj1 (_withResult_keeps (anchors := HoverSample.anchors)
                                  (widgets := HoverSample.widgets)
                                  HoverSample.later HoverSample.shown
                                  HoverSample.showing
                                  ltac:(discriminate) eq_refl eq_refl)).
  reflexivity.
Defined.

(** Starting on the sample: the first start on the fresh controller, a
    second start at the same anchor, and the calls made up to the state
    [showing]. *)
Lemma cancel_and_replace_witness :
  _hoverOperation
    (_startHoverOperationIfNecessary
       (anchors := HoverSample.anchors) (widgets := HoverSample.widgets)
       HoverSample.wordAnchor Delayed Mouse false false HoverSample.fresh)
  = [Cancel; Start Delayed]
  /\ _startHoverOperationIfNecessary
       (anchors := HoverSample.anchors) (widgets := HoverSample.widgets)
       HoverSample.wordAnchor Immediate Keyboard true false HoverSample.showing
     = HoverSample.showing
  /\ everAtMostOne (_hoverOperation HoverSample.showing).
Proof.
  split; [|split].
  - apply (proj1 (cancel_and_replace (anchors := HoverSample.anchors)
                                     (widgets := HoverSample.widgets))
                 HoverSample.wordAnchor Delayed Mouse false false
                 HoverSample.fresh).
    intros current Hcurrent. discriminate.
  - apply (proj1 (proj2 (cancel_and_replace (anchors := HoverSample.anchors)
                                            (widgets := HoverSample.widgets)))
                 HoverSample.wordAnchor Immediate Keyboard true false
                 HoverSample.showing HoverSample.wordAnchor);
      reflexivity.
  - apply (proj2 (proj2 (proj2 (cancel_and_replace
                                  (anchors := HoverSample.anchors)
                                  (widgets := HoverSample.widgets))))
                 HoverSample.registry).
    apply showing_reachable.
Defined.

(** The participants of the sample controller [showing]. *)
Lemma rendered_in_participant_order_witness :
  _participants HoverSample.showing
  = sortedParticipants (anchors := HoverSample.anchors) HoverSample.registry
  /\ ascending (_participants HoverSample.showing).
Proof.
  pose proof (rendered_in_participant_order
                (anchors := HoverSample.anchors)
                (widgets := HoverSample.widgets)
                HoverSample.registry HoverSample.showing showing_reachable)
    as (Hparticipants & _ & Hascending & _).
  split; assumption.
Defined.

(** The rendered parts of [showing]: the parts of the participants with
    ordinals 1, 2 and 3, then the status bar. *)
Example rendered_sample :
  renderedOrdinals (_renderedParts HoverSample.showing) = [1; 2; 3; 3]
  /\ last (_renderedParts HoverSample.showing) (RenderedHoverStatusBar 7%nat)
     = RenderedHoverStatusBar
         (statusBar_hoverElement (WidgetHost := HoverSample.widgets)).
Proof. split; reflexivity. Qed.

(** Mouse events on the sample: while the widget is resizing, over the word
    on the fresh controller, and away from the text while the hover is
    shown. *)
Lemma showsOrWillShow_spec_witness :
  showsOrWillShow (anchors := HoverSample.anchors) (widgets := HoverSample.widgets)
                  HoverSample.overWord HoverSample.resizing
  = (true, HoverSample.resizing)
  /\ (exists best,
         showsOrWillShow (anchors := HoverSample.anchors)
                         (widgets := HoverSample.widgets)
                         HoverSample.overWord HoverSample.fresh
         = _startShowingOrUpdateHover best Delayed Mouse false
                                      (Some HoverSample.overWord)
                                      HoverSample.fresh
         /\ exists a, best = Some a /\ priority a = 7)
  /\ (isShown HoverSample.showing = true
      /\ _currentResult
           (snd (showsOrWillShow (anchors := HoverSample.anchors)
                                 (widgets := HoverSample.widgets)
                                 HoverSample.away HoverSample.showing))
         = None).
Proof.
  split; [|split].
  - apply (proj1 (showsOrWillShow_spec (anchors := HoverSample.anchors)
                                       (widgets := HoverSample.widgets)
                                       HoverSample.overWord
                                       HoverSample.resizing)).
    reflexivity.
  - destruct (proj1 (proj2 (proj2 (showsOrWillShow_spec
                                     (anchors := HoverSample.anchors)
                                     (widgets := HoverSample.widgets)
                                     HoverSample.overWord HoverSample.fresh)))
                    eq_refl)
      as (best & Hresult & _ & Hbest).
    exists best. split; [exact Hresult|].
    destruct Hbest as (a & Ha & Hin & Hmax); [discriminate|].
    exists a. split; [exact Ha|].
    assert (Hle : 7 <= priority a).
    { apply (Hmax HoverSample.wordAnchor). left. reflexivity. }
    destruct Hin as [<- | [<- | []]]; [reflexivity | simpl in Hle; lia].
  - destruct (proj1 (proj2 (proj2 (proj2 (showsOrWillShow_spec
                                            (anchors := HoverSample.anchors)
                                            (widgets := HoverSample.widgets)
                                            HoverSample.away
                                            HoverSample.showing))))
                    eq_refl)
      as (_ & _ & [Hhidden | (Hshown & Hresult & _)]).
    + discriminate.
    + split; assumption.
Defined.

End ContentHoverFacts.

(* ===================================================================== *)
(** ** Further properties of the auto-indentation engine *)
(* ===================================================================== *)

Module AutoIndentMore.

Import AutoIndent AutoIndentNotions.

(* --------------------------------------------------------------------- *)
(** *** The preceding valid line *)

(** What the loop of [getPrecedingValidLine] can return from line [k]
    downwards. *)
Lemma getPrecedingValidLine_loop_range (model : IVirtualModel)
      (rules : IndentRulesSupport) (language : string) (k : nat) :
  forall r,
    let found := getPrecedingValidLine_loop model rules language k r in
    found = -1 \/ found = r \/ 1 <= found <= Z.of_nat k.
Proof.
  induction k as [|k IH]; intros r; simpl.
  - now left.
  - destruct (negb _); [right; now left|].
    destruct (_ || _).
    + destruct (IH (Z.pos (Pos.of_succ_nat k))) as [H | [H | H]];
        [now left | right; right | right; right]; lia.
    + right. right. lia.
Qed.

Lemma precedingValidLine_bounds (model : IVirtualModel) (lineNumber : Z)
      (rules : IndentRulesSupport) :
  getPrecedingValidLine model lineNumber rules = -1
  \/ 1 <= getPrecedingValidLine model lineNumber rules < lineNumber.
Proof.
  unfold getPrecedingValidLine.
  destruct (1 <? lineNumber) eqn:Hgt; [|now left].
  apply Z.ltb_lt in Hgt.
  pose proof (getPrecedingValidLine_loop_range
                model rules
                (tokenization_getLanguageIdAtPosition model lineNumber 0)
                (Z.to_nat (lineNumber - 1)) (-1)) as Hloop.
  cbv zeta in Hloop. lia.
Qed.

(** X1: [getPrecedingValidLine] returns -1 or the number of a line above the
    given one: never 0, never the given line or a line below it. *)
Theorem getPrecedingValidLine_range (model : IVirtualModel) (lineNumber : Z)
        (rules : IndentRulesSupport) :
  getPrecedingValidLine model lineNumber rules = -1
  \/ 1 <= getPrecedingValidLine model lineNumber rules < lineNumber.
Proof.
  unfold getPrecedingValidLine.
  destruct (1 <? lineNumber) eqn:Hgt; [|now left].
  apply Z.ltb_lt in Hgt.
  destruct (getPrecedingValidLine_loop_range
              model rules
              (tokenization_getLanguageIdAtPosition model lineNumber 0)
              (Z.to_nat (lineNumber - 1)) (-1)) as [H | [H | H]];
    [now left | now left | right; lia].
Qed.

(** The loop of [getPrecedingValidLine] when the lines from 1 to [k] are of
    the language looked for. *)
Lemma getPrecedingValidLine_loop_nearest (model : IVirtualModel)
      (rules : IndentRulesSupport) (language : string) (k : nat) :
  (forall l, 1 <= l <= Z.of_nat k ->
             tokenization_getLanguageIdAtPosition model l 0 = language) ->
  forall r,
    let found := getPrecedingValidLine_loop model rules language k r in
    (found = -1
     /\ forall l, 1 <= l <= Z.of_nat k -> isPassedOver model rules l = true)
    \/ (1 <= found <= Z.of_nat k
        /\ isPassedOver model rules found = false
        /\ forall l, found < l <= Z.of_nat k ->
                     isPassedOver model rules l = true).
Proof.
  induction k as [|k IH]; intros Hlanguage r.
  - left. split; [reflexivity|]. intros l Hl. simpl in Hl. lia.
  - cbn [getPrecedingValidLine_loop]. cbv zeta.
    rewrite (Hlanguage (Z.of_nat (S k))) by lia.
    rewrite String.eqb_refl. cbn [negb].
    fold (isPassedOver model rules (Z.of_nat (S k))).
    destruct (isPassedOver model rules (Z.of_nat (S k))) eqn:Hpassed.
    + destruct (IH ltac:(intros l Hl; apply Hlanguage; lia) (Z.of_nat (S k)))
        as [[Hnone Hall] | (Hrange & Hvalid & Hbetween)].
      * left. split; [exact Hnone|].
        intros l Hl.
        destruct (Z.eq_dec l (Z.of_nat (S k))) as [-> | Hne]; [exact Hpassed|].
        apply Hall. lia.
      * right. split; [lia|]. split; [exact Hvalid|].
        intros l Hl.
        destruct (Z.eq_dec l (Z.of_nat (S k))) as [-> | Hne]; [exact Hpassed|].
        apply Hbetween. lia.
    + right. split; [lia|]. split; [exact Hpassed|].
      intros l Hl. lia.
Qed.

(** X2: when every line above the given one starts in the language of the
    given line, [getPrecedingValidLine] returns the nearest line above that
    is not passed over (every line in between is), and -1 when every line
    above is passed over; the 0 its comment promises for that case is never
    returned. *)
Theorem getPrecedingValidLine_nearest (model : IVirtualModel) (lineNumber : Z)
        (rules : IndentRulesSupport) :
  (forall l, 1 <= l < lineNumber ->
             tokenization_getLanguageIdAtPosition model l 0
             = tokenization_getLanguageIdAtPosition model lineNumber 0) ->
  let found := getPrecedingValidLine model lineNumber rules in
  (found = -1
   /\ forall l, 1 <= l < lineNumber -> isPassedOver model rules l = true)
  \/ (1 <= found < lineNumber
      /\ isPassedOver model rules found = false
      /\ forall l, found < l < lineNumber -> isPassedOver model rules l = true).
Proof.
  intros Hlanguage. unfold getPrecedingValidLine.
  destruct (1 <? lineNumber) eqn:Hgt.
  - apply Z.ltb_lt in Hgt.
    destruct (getPrecedingValidLine_loop_nearest
                model rules
                (tokenization_getLanguageIdAtPosition model lineNumber 0)
                (Z.to_nat (lineNumber - 1))
                ltac:(intros l Hl; apply Hlanguage; lia) (-1))
      as [[Hnone Hall] | (Hrange & Hvalid & Hbetween)].
    + left. split; [exact Hnone|]. intros l Hl. apply Hall. lia.
    + right. split; [lia|]. split; [exact Hvalid|].
      intros l Hl. apply Hbetween. lia.
  - apply Z.ltb_ge in Hgt. left. split; [reflexivity|]. intros l Hl. lia.
Qed.

(* --------------------------------------------------------------------- *)
(** *** The inherited indentation *)

Section Inherit.

Context {host : Host}.
Variable service : ILanguageConfigurationService.

Lemma firstNonBlank_loop_true (model : IVirtualModel) (k : nat) :
  firstNonBlank_loop model k = true
  <-> (1 <= k)%nat
      /\ forall l, 1 <= l <= Z.of_nat k -> getLineContent model l = "".
Proof.
  induction k as [|k IH].
  - simpl. split; [discriminate|]. intros [Hk _]. lia.
  - cbn [firstNonBlank_loop].
    destruct (String.eqb_spec (getLineContent model (Z.of_nat (S k))) "")
      as [Hempty | Hfull]; cbn [negb].
    + destruct (Z.of_nat (S k) =? 1) eqn:Hone.
      * apply Z.eqb_eq in Hone. split; [|reflexivity].
        intros _. split; [lia|]. intros l Hl.
        assert (l = Z.of_nat (S k)) as -> by lia. exact Hempty.
      * apply Z.eqb_neq in Hone. rewrite IH. split.
        -- intros [Hk Hall]. split; [lia|]. intros l Hl.
           destruct (Z.eq_dec l (Z.of_nat (S k))) as [-> | Hne]; [exact Hempty|].
           apply Hall. lia.
        -- intros [_ Hall]. split; [lia|]. intros l Hl. apply Hall. lia.
    + split; [discriminate|]. intros [_ Hall]. exfalso. apply Hfull, Hall. lia.
Qed.

Lemma nothing_to_inherit (autoIndent : Z) (model : IVirtualModel)
      (lineNumber : Z) (honorIntentialIndent : bool) :
  Full <= autoIndent ->
  indentRulesSupport
    (getLanguageConfiguration service (tokenization_getLanguageId model))
  <> None ->
  lineNumber <= 1
  \/ (forall l, 1 <= l < lineNumber -> getLineContent model l = "") ->
  getInheritIndentForLine service autoIndent model lineNumber
                          honorIntentialIndent
  = Some noIndent.
Proof.
  intros Hfull Hrules [Hle | Hempty]; unfold getInheritIndentForLine;
    rewrite (AutoIndentFacts.ltb_ge _ _ Hfull);
    (destruct (indentRulesSupport _) as [rules|]; [|contradiction]);
    (destruct (lineNumber <=? 1) eqn:Hfirst; [reflexivity|]);
    apply Z.leb_gt in Hfirst; [lia|].
  rewrite (proj2 (firstNonBlank_loop_true model (Z.to_nat (lineNumber - 1))));
    [reflexivity|].
  split; [lia|]. intros l Hl. apply Hempty. lia.
Qed.

(** X3: with a strategy of at least [Full] and indent rules for the language
    of the model, [getInheritIndentForLine] gives the empty indentation
    without action and without line for the first line and for every line
    that has only empty lines above it. *)
Theorem getInheritIndentForLine_top (autoIndent : Z) (model : IVirtualModel)
        (lineNumber : Z) (honorIntentialIndent : bool) :
  Full <= autoIndent ->
  indentRulesSupport
    (getLanguageConfiguration service (tokenization_getLanguageId model))
  <> None ->
  lineNumber <= 1
  \/ (forall l, 1 <= l < lineNumber -> getLineContent model l = "") ->
  getInheritIndentForLine service autoIndent model lineNumber
                          honorIntentialIndent
  = Some noIndent.
Proof.
  intros Hfull Hrules Htop. unfold getInheritIndentForLine.
  rewrite (AutoIndentFacts.ltb_ge _ _ Hfull).
  destruct (indentRulesSupport _) as [rules|]; [|contradiction].
  destruct (lineNumber <=? 1) eqn:Hfirst; [reflexivity|].
  apply Z.leb_gt in Hfirst.
  destruct Htop as [Hle | Hempty]; [lia|].
  assert (Hloop : firstNonBlank_loop model (Z.to_nat (lineNumber - 1)) = true).
  { apply firstNonBlank_loop_true. split; [lia|].
    intros l Hl. apply Hempty. lia. }
  rewrite Hloop. reflexivity.
Qed.

Lemma stopLine_loop_range (model : IVirtualModel) (rules : IndentRulesSupport)
      (k : nat) :
  0 <= stopLine_loop service model rules k <= Z.of_nat k.
Proof.
  induction k as [|k IH]; cbn [stopLine_loop]; [lia|].
  destruct (shouldIndentNextLine rules _); lia.
Qed.

Lemma stopLine_loop_at_range (model : IVirtualModel)
      (rules : IndentRulesSupport) (i : Z) (k : nat) :
  0 <= stopLine_loop_at service model rules i k <= Z.of_nat k.
Proof.
  induction k as [|k IH]; cbn [stopLine_loop_at]; [lia|].
  destruct (shouldIndentNextLine rules _); lia.
Qed.

Lemma notTemporary_loop_shape (model : IVirtualModel)
      (rules : IndentRulesSupport) (k : nat) :
  let r := notTemporary_loop service model rules k in
  (action r = None \/ action r = Some IndentAction.Indent)
  /\ exists l, line r = Some l /\ 1 <= l <= Z.max 1 (Z.of_nat k).
Proof.
  induction k as [|k IH]; cbn [notTemporary_loop]; cbv zeta.
  - split; [now left|]. exists 1. split; [reflexivity|lia].
  - destruct (shouldIncrease rules _).
    + split; [now right|]. eexists. split; [reflexivity|]. lia.
    + destruct (shouldIndentNextLine rules _).
      * split; [now left|]. eexists. split; [reflexivity|].
        pose proof (stopLine_loop_at_range model rules (Z.of_nat (S k))
                      (Z.to_nat (Z.of_nat (S k) - 1))). lia.
      * destruct (shouldDecrease rules _).
        -- split; [now left|]. eexists. split; [reflexivity|]. lia.
        -- destruct IH as [Haction (l & Hline & Hl)].
           split; [exact Haction|]. exists l. split; [exact Hline|]. lia.
Qed.

(** X4: whatever [getInheritIndentForLine] returns has no action or the
    action [Indent], and the line it names is a line above the given one;
    when it names no line, the indentation is empty and there is no
    action. *)
Theorem getInheritIndentForLine_shape (autoIndent : Z) (model : IVirtualModel)
        (lineNumber : Z) (honorIntentialIndent : bool) (r : InheritIndent) :
  getInheritIndentForLine service autoIndent model lineNumber
                          honorIntentialIndent = Some r ->
  (action r = None \/ action r = Some IndentAction.Indent)
  /\ match line r with
     | Some l => 1 <= l < lineNumber
     | None => indentation r = "" /\ action r = None
     end.
Proof.
  unfold getInheritIndentForLine.
  destruct (autoIndent <? Full); [discriminate|].
  destruct (indentRulesSupport _) as [rules|]; [|discriminate].
  destruct (lineNumber <=? 1);
    [intros H; injection H as <-; simpl; auto|].
  destruct (firstNonBlank_loop model _);
    [intros H; injection H as <-; simpl; auto|].
  pose proof (precedingValidLine_bounds model lineNumber rules) as Hrange.
  set (p := getPrecedingValidLine model lineNumber rules) in *.
  destruct (p <? 0) eqn:Hneg; [discriminate|].
  apply Z.ltb_ge in Hneg.
  destruct (p <? 1) eqn:Hzero;
    [intros H; injection H as <-; simpl; auto|].
  apply Z.ltb_ge in Hzero.
  assert (Hp : 1 <= p < lineNumber) by lia.
  destruct (_ || _); [intros H; injection H as <-; simpl; split; [now right|lia]|].
  destruct (shouldDecrease rules _);
    [intros H; injection H as <-; simpl; split; [now left|lia]|].
  destruct (p =? 1) eqn:Hone;
    [intros H; injection H as <-; simpl; split; [now left|lia]|].
  apply Z.eqb_neq in Hone.
  destruct (_ && _).
  - intros H; injection H as <-; simpl. split; [now left|].
    pose proof (stopLine_loop_range model rules (Z.to_nat (p - 1 - 1))). lia.
  - destruct honorIntentialIndent.
    + intros H; injection H as <-; simpl. split; [now left|lia].
    + intros H; injection H as <-.
      destruct (notTemporary_loop_shape model rules (Z.to_nat p))
        as [Haction (l & Hline & Hl)].
      split; [exact Haction|]. rewrite Hline. lia.
Qed.

(* --------------------------------------------------------------------- *)
(** *** What the inherited indentation depends on *)

Lemma getStrippedLine_agree (m1 m2 : IVirtualModel) (n l : Z) :
  agreeAbove m1 m2 n -> 1 <= l < n ->
  getStrippedLine service m1 l = getStrippedLine service m2 l.
Proof.
  intros (Hlanguage & _ & Hlines) Hl. unfold getStrippedLine.
  destruct (Hlines l Hl) as [-> ->]. rewrite Hlanguage. reflexivity.
Qed.

Lemma firstNonBlank_loop_agree (m1 m2 : IVirtualModel) (n : Z) (k : nat) :
  agreeAbove m1 m2 n -> Z.of_nat k < n ->
  firstNonBlank_loop m1 k = firstNonBlank_loop m2 k.
Proof.
  intros Hagree. induction k as [|k IH]; intros Hk; [reflexivity|].
  cbn [firstNonBlank_loop].
  destruct Hagree as (_ & _ & Hlines).
  destruct (Hlines (Z.of_nat (S k)) ltac:(lia)) as [-> _].
  rewrite IH by lia. reflexivity.
Qed.

Lemma getPrecedingValidLine_loop_agree (m1 m2 : IVirtualModel)
      (rules : IndentRulesSupport) (language : string) (n : Z) (k : nat) :
  agreeAbove m1 m2 n -> Z.of_nat k < n ->
  forall r,
    getPrecedingValidLine_loop m1 rules language k r
    = getPrecedingValidLine_loop m2 rules language k r.
Proof.
  intros Hagree. induction k as [|k IH]; intros Hk r; [reflexivity|].
  cbn [getPrecedingValidLine_loop]. cbv zeta.
  destruct Hagree as (_ & Hat & Hlines).
  destruct (Hlines (Z.of_nat (S k)) ltac:(lia)) as [-> ->].
  rewrite (Hat (Z.of_nat (S k))) by lia.
  rewrite IH by lia. reflexivity.
Qed.

Lemma getPrecedingValidLine_agree (m1 m2 : IVirtualModel)
      (rules : IndentRulesSupport) (n : Z) :
  agreeAbove m1 m2 n ->
  getPrecedingValidLine m1 n rules = getPrecedingValidLine m2 n rules.
Proof.
  intros Hagree. unfold getPrecedingValidLine.
  rewrite (proj1 (proj2 Hagree) n) by lia.
  destruct (1 <? n) eqn:Hgt; [|reflexivity].
  apply Z.ltb_lt in Hgt.
  apply (getPrecedingValidLine_loop_agree m1 m2 rules _ n); [exact Hagree|lia].
Qed.

Lemma stopLine_loop_agree (m1 m2 : IVirtualModel) (rules : IndentRulesSupport)
      (n : Z) (k : nat) :
  agreeAbove m1 m2 n -> Z.of_nat k < n ->
  stopLine_loop service m1 rules k = stopLine_loop service m2 rules k.
Proof.
  intros Hagree. induction k as [|k IH]; intros Hk; [reflexivity|].
  cbn [stopLine_loop]. cbv zeta.
  rewrite (getStrippedLine_agree m1 m2 n) by (auto; lia).
  rewrite IH by lia. reflexivity.
Qed.

Lemma stopLine_loop_at_agree (m1 m2 : IVirtualModel)
      (rules : IndentRulesSupport) (n i : Z) (k : nat) :
  agreeAbove m1 m2 n -> 1 <= i < n ->
  stopLine_loop_at service m1 rules i k = stopLine_loop_at service m2 rules i k.
Proof.
  intros Hagree Hi. induction k as [|k IH]; [reflexivity|].
  cbn [stopLine_loop_at]. cbv zeta.
  rewrite (getStrippedLine_agree m1 m2 n) by auto.
  rewrite IH. reflexivity.
Qed.

Lemma notTemporary_loop_agree (m1 m2 : IVirtualModel)
      (rules : IndentRulesSupport) (n : Z) (k : nat) :
  agreeAbove m1 m2 n -> 1 < n -> Z.of_nat k < n ->
  notTemporary_loop service m1 rules k = notTemporary_loop service m2 rules k.
Proof.
  intros Hagree Hn. induction k as [|k IH]; intros Hk.
  - cbn [notTemporary_loop].
    destruct (proj2 (proj2 Hagree) 1 ltac:(lia)) as [-> _]. reflexivity.
  - cbn [notTemporary_loop]. cbv zeta.
    rewrite (getStrippedLine_agree m1 m2 n (Z.of_nat (S k))) by (auto; lia).
    rewrite (stopLine_loop_at_agree m1 m2 rules n (Z.of_nat (S k)))
      by (auto; lia).
    pose proof (stopLine_loop_at_range m2 rules (Z.of_nat (S k))
                  (Z.to_nat (Z.of_nat (S k) - 1))) as Hstop.
    rewrite (getStrippedLine_agree m1 m2 n
               (stopLine_loop_at service m2 rules (Z.of_nat (S k))
                                 (Z.to_nat (Z.of_nat (S k) - 1)) + 1))
      by (auto; lia).
    rewrite IH by lia. reflexivity.
Qed.

Lemma inherit_agree (autoIndent : Z) (m1 m2 : IVirtualModel)
      (lineNumber : Z) (honorIntentialIndent : bool) :
  agreeAbove m1 m2 lineNumber ->
  getInheritIndentForLine service autoIndent m1 lineNumber honorIntentialIndent
  = getInheritIndentForLine service autoIndent m2 lineNumber
                            honorIntentialIndent.
Proof.
  intros Hagree. unfold getInheritIndentForLine.
  rewrite (proj1 Hagree).
  destruct (autoIndent <? Full); [reflexivity|].
  destruct (indentRulesSupport _) as [rules|]; [|reflexivity].
  destruct (lineNumber <=? 1) eqn:Hfirst; [reflexivity|].
  apply Z.leb_gt in Hfirst.
  rewrite (firstNonBlank_loop_agree m1 m2 lineNumber) by (auto; lia).
  destruct (firstNonBlank_loop m2 _); [reflexivity|].
  rewrite (getPrecedingValidLine_agree m1 m2 rules lineNumber Hagree).
  pose proof (precedingValidLine_bounds m2 lineNumber rules) as Hrange.
  set (p := getPrecedingValidLine m2 lineNumber rules) in *.
  destruct (p <? 0) eqn:Hneg; [reflexivity|].
  apply Z.ltb_ge in Hneg.
  destruct (p <? 1) eqn:Hzero; [reflexivity|].
  apply Z.ltb_ge in Hzero.
  assert (Hp : 1 <= p < lineNumber) by lia.
  rewrite (getStrippedLine_agree m1 m2 lineNumber p Hagree Hp).
  destruct (_ || _); [reflexivity|].
  destruct (shouldDecrease rules _); [reflexivity|].
  destruct (proj2 (proj2 Hagree) p Hp) as [Hcontent _]. rewrite Hcontent.
  destruct (p =? 1) eqn:Hone; [reflexivity|].
  apply Z.eqb_neq in Hone.
  destruct (proj2 (proj2 Hagree) (p - 1) ltac:(lia)) as [-> _].
  rewrite (stopLine_loop_agree m1 m2 rules lineNumber) by (auto; lia).
  pose proof (stopLine_loop_range m2 rules (Z.to_nat (p - 1 - 1))) as Hstop.
  destruct (proj2 (proj2 Hagree)
                  (stopLine_loop service m2 rules (Z.to_nat (p - 1 - 1)) + 1)
                  ltac:(lia)) as [-> _].
  rewrite (notTemporary_loop_agree m1 m2 rules lineNumber) by (auto; lia).
  reflexivity.
Qed.

(** X5: [getInheritIndentForLine] looks only above the given line: two
    models of the same language, with the same language at the start of the
    lines up to the given one and the same content and tokens on the lines
    above it, get the same answer, whatever the given line and the lines
    below it hold. *)
Theorem getInheritIndentForLine_looks_above (autoIndent : Z)
        (m1 m2 : IVirtualModel) (lineNumber : Z) (honorIntentialIndent : bool) :
  agreeAbove m1 m2 lineNumber ->
  getInheritIndentForLine service autoIndent m1 lineNumber honorIntentialIndent
  = getInheritIndentForLine service autoIndent m2 lineNumber
                            honorIntentialIndent.
Proof.
  intros Hagree. unfold getInheritIndentForLine.
  rewrite (proj1 Hagree).
  destruct (autoIndent <? Full); [reflexivity|].
  destruct (indentRulesSupport _) as [rules|]; [|reflexivity].
  destruct (lineNumber <=? 1) eqn:Hfirst; [reflexivity|].
  apply Z.leb_gt in Hfirst.
  rewrite (firstNonBlank_loop_agree m1 m2 lineNumber) by (auto; lia).
  destruct (firstNonBlank_loop m2 _); [reflexivity|].
  rewrite (getPrecedingValidLine_agree m1 m2 rules lineNumber Hagree).
  pose proof (precedingValidLine_bounds m2 lineNumber rules) as Hrange.
  set (p := getPrecedingValidLine m2 lineNumber rules) in *.
  destruct (p <? 0) eqn:Hneg; [reflexivity|].
  apply Z.ltb_ge in Hneg.
  destruct (p <? 1) eqn:Hzero; [reflexivity|].
  apply Z.ltb_ge in Hzero.
  assert (Hp : 1 <= p < lineNumber) by lia.
  rewrite (getStrippedLine_agree m1 m2 lineNumber p Hagree Hp).
  destruct (_ || _); [reflexivity|].
  destruct (shouldDecrease rules _); [reflexivity|].
  destruct (proj2 (proj2 Hagree) p Hp) as [Hcontent _]. rewrite Hcontent.
  destruct (p =? 1) eqn:Hone; [reflexivity|].
  apply Z.eqb_neq in Hone.
  destruct (proj2 (proj2 Hagree) (p - 1) ltac:(lia)) as [-> _].
  rewrite (stopLine_loop_agree m1 m2 rules lineNumber) by (auto; lia).
  pose proof (stopLine_loop_range m2 rules (Z.to_nat (p - 1 - 1))) as Hstop.
  destruct (proj2 (proj2 Hagree)
                  (stopLine_loop service m2 rules (Z.to_nat (p - 1 - 1)) + 1)
                  ltac:(lia)) as [-> _].
  rewrite (notTemporary_loop_agree m1 m2 rules lineNumber) by (auto; lia).
  reflexivity.
Qed.

(* --------------------------------------------------------------------- *)
(** *** When the entry points answer *)

(** X6: [getGoodIndentForLine] returns null in three cases only: the
    strategy is below [Full], the given language has no indent rules, or
    [getInheritIndentForLine] (which asks for the rules of the language of
    the model) returns null. *)
Theorem getGoodIndentForLine_null_iff (autoIndent : Z)
        (virtualModel : IVirtualModel) (language : string) (lineNumber : Z)
        (indentConverter : IIndentConverter) :
  getGoodIndentForLine service autoIndent virtualModel language lineNumber
                       indentConverter = None
  <-> autoIndent < Full
      \/ indentRulesSupport (getLanguageConfiguration service language) = None
      \/ getInheritIndentForLine service autoIndent virtualModel lineNumber true
         = None.
Proof.
  unfold getGoodIndentForLine.
  destruct (autoIndent <? Full) eqn:Hfull.
  - apply Z.ltb_lt in Hfull. split; auto.
  - apply Z.ltb_ge in Hfull.
    destruct (indentRulesSupport (getLanguageConfiguration service language))
      as [rules|]; [|split; auto].
    destruct (getInheritIndentForLine service autoIndent virtualModel
                                      lineNumber true) as [indent|];
      [|split; auto].
    split.
    + destruct (applyEnterRules _ _ _ _ _ _ _ _ _); [discriminate|].
      destruct (shouldDecrease rules _); destruct (isIndent _); discriminate.
    + intros [Hlt | [Hnone | Hnone]]; [lia | discriminate | discriminate].
Qed.

(** X7: on the first line of a model, and on a line with only empty lines
    above it, [getGoodIndentForLine] consults no enter rule: with a strategy
    of at least [Full] and indent rules for the given language and for the
    language of the model, it returns the empty indentation, unshifted once
    when the stripped line matches the decrease pattern. *)
Theorem getGoodIndentForLine_top (autoIndent : Z) (virtualModel : IVirtualModel)
        (language : string) (lineNumber : Z) (indentConverter : IIndentConverter)
        (rules : IndentRulesSupport) :
  Full <= autoIndent ->
  indentRulesSupport (getLanguageConfiguration service language) = Some rules ->
  indentRulesSupport
    (getLanguageConfiguration service (tokenization_getLanguageId virtualModel))
  <> None ->
  lineNumber <= 1
  \/ (forall l, 1 <= l < lineNumber -> getLineContent virtualModel l = "") ->
  getGoodIndentForLine service autoIndent virtualModel language lineNumber
                       indentConverter
  = Some (if shouldDecrease rules (getStrippedLine service virtualModel lineNumber)
          then unshiftIndent indentConverter ""
          else "").
Proof.
  intros Hfull Hrules Hmodel Htop. unfold getGoodIndentForLine.
  rewrite (AutoIndentFacts.ltb_ge _ _ Hfull), Hrules.
  rewrite (nothing_to_inherit autoIndent virtualModel lineNumber true
                              Hfull Hmodel Htop).
  simpl. destruct (shouldDecrease rules _); reflexivity.
Qed.

(** X8: [getIndentForEnter] returns null in two cases only: the strategy is
    below [Full], or the language of the scope at the start of the range has
    no indent rules. *)
Theorem getIndentForEnter_null_iff (autoIndent : Z) (model : ITextModel)
        (range : Range) (indentConverter : IIndentConverter) :
  getIndentForEnter service autoIndent model range indentConverter = None
  <-> autoIndent < Full
      \/ indentRulesSupport
           (getLanguageConfiguration
              service
              (languageId
                 (createScopedLineTokens
                    (tokenization_getLineTokens model (startLineNumber range))
                    (startColumn range - 1))))
         = None.
Proof.
  unfold getIndentForEnter.
  destruct (autoIndent <? Full) eqn:Hfull.
  - apply Z.ltb_lt in Hfull. split; auto.
  - apply Z.ltb_ge in Hfull.
    destruct (indentRulesSupport _) as [rules|]; [|split; auto].
    split.
    + destruct (getInheritIndentForLine _ _ _ _ _); discriminate.
    + intros [Hlt | Hnone]; [lia | discriminate].
Qed.

(** X9: inside embedded-language content [getIndentForEnter] builds
    [afterEnter] from the indentation the line has, never from the inherited
    indentation: [afterEnter] is the leading whitespace of the line, shifted
    at most once and then unshifted at most once. *)
Theorem getIndentForEnter_embedded (autoIndent : Z) (model : ITextModel)
        (range : Range) (indentConverter : IIndentConverter) (r : EnterIndent) :
  let lineTokens := tokenization_getLineTokens model (startLineNumber range) in
  let scoped := createScopedLineTokens lineTokens (startColumn range - 1) in
  let current := getLeadingWhitespace (lineTokens_getLineContent lineTokens) in
  inEmbeddedLanguage lineTokens scoped = true ->
  getIndentForEnter service autoIndent model range indentConverter = Some r ->
  beforeEnter r = current
  /\ (afterEnter r = current
      \/ afterEnter r = shiftIndent indentConverter current
      \/ afterEnter r = unshiftIndent indentConverter current
      \/ afterEnter r
         = unshiftIndent indentConverter (shiftIndent indentConverter current)).
Proof.
  intros lineTokens scoped current Hembedded.
  unfold getIndentForEnter.
  destruct (autoIndent <? Full); [discriminate|].
  fold lineTokens. fold scoped. rewrite Hembedded.
  destruct (indentRulesSupport _) as [rules|]; [|discriminate].
  fold current.
  destruct (getInheritIndentForLine _ _ _ _ _) as [inherited|].
  - destruct (isIndent (action inherited));
      destruct (shouldDecrease rules _);
      intros H; injection H as <-; simpl; auto.
  - intros H; injection H as <-; simpl; auto.
Qed.

(** X26: with nothing selected, [getIndentForEnter] looks only at the line
    of the cursor and above: two text models of the same language, with the
    same language at the start of the lines up to the one after the cursor,
    the same tokens up to the line of the cursor and the same content above
    it, get the same answer, whatever the lines below the cursor hold. *)
Theorem getIndentForEnter_looks_above (autoIndent : Z) (m1 m2 : ITextModel)
        (range : Range) (indentConverter : IIndentConverter) :
  isEmpty range = true ->
  agreeUpTo m1 m2 (startLineNumber range) ->
  getIndentForEnter service autoIndent m1 range indentConverter
  = getIndentForEnter service autoIndent m2 range indentConverter.
Proof.
  intros Hempty (Hlanguage & Hat & Htokens & Hcontent).
  unfold getIndentForEnter.
  rewrite (Htokens (startLineNumber range)) by lia.
  rewrite Hempty.
  destruct (autoIndent <? Full); [reflexivity|]. cbv zeta.
  destruct (indentRulesSupport _) as [rules|]; [|reflexivity].
  match goal with
  | |- context [getInheritIndentForLine service autoIndent
                  (enterVirtualModel m1 range ?before) ?n true] =>
    rewrite (inherit_agree autoIndent (enterVirtualModel m1 range before)
                           (enterVirtualModel m2 range before) n true)
  end; [reflexivity|].
  split; [exact Hlanguage|]. split.
  - intros l Hl. simpl. apply Hat. lia.
  - intros l Hl. simpl. split.
    + destruct (l =? startLineNumber range) eqn:Hline; [reflexivity|].
      apply Z.eqb_neq in Hline. apply Hcontent. lia.
    + apply Htokens. lia.
Qed.

End Inherit.

(* --------------------------------------------------------------------- *)
(** *** Stripping a line, again *)

Lemma strip_step_plain (brackets : option RichEditBrackets) (line : string)
      (tokens : Tokens) (st : string * Z) (i : nat) :
  getStandardTokenType tokens i = StandardTokenType.Other ->
  strip_step brackets line tokens st i = st.
Proof. intros Hplain. unfold strip_step. rewrite Hplain. reflexivity. Qed.

(** X10: a line none of whose tokens is a comment, a string or a regular
    expression is returned as it is, whatever the offsets of its tokens and
    the brackets of the language are. *)
Theorem stripped_plain (service : ILanguageConfigurationService)
        (language line : string) (tokens : Tokens) :
  plainTokens tokens ->
  getStrippedLineForLineAndTokens service language line tokens = line.
Proof.
  intros Hplain. unfold getStrippedLineForLineAndTokens.
  assert (Hloop : forall l st,
             (forall i, In i l -> (i < getCount tokens)%nat) ->
             fold_left (strip_step
                          (brackets (getLanguageConfiguration service language))
                          line tokens) l st = st).
  { induction l as [|i l IH]; intros st Hin; [reflexivity|].
    simpl. rewrite strip_step_plain.
    - apply IH. intros j Hj. apply Hin. now right.
    - apply Hplain, Hin. now left. }
  rewrite Hloop; [reflexivity|].
  intros i Hi. apply in_seq in Hi. lia.
Qed.

(** The loop of [getStrippedLineForLineAndTokens] after [n] tokens, when the
    replacements keep the lengths. *)
Lemma strip_loop_keeping (brackets : option RichEditBrackets) (line : string)
      (tokens : Tokens) :
  covers tokens line ->
  keepsLengths brackets line tokens ->
  forall n,
    (n <= getCount tokens)%nat ->
    let described :=
      fold_right (fun i rest => describedPiece brackets line tokens i ++ rest)
                 "" (seq 0 n) in
    fold_left (strip_step brackets line tokens) (seq 0 n) (line, 0)
    = (described
         ++ String.substring (Z.to_nat (boundary tokens n))
                             (String.length line - Z.to_nat (boundary tokens n))
                             line,
       JS.length described - boundary tokens n).
Proof.
  intros Hcovers Hkeeps n. induction n as [|n IH]; intros Hn described.
  - subst described. simpl. rewrite Nat.sub_0_r, JSFacts.substring_whole.
    reflexivity.
  - specialize (IH ltac:(lia)). cbv zeta in IH.
    subst described.
    rewrite seq_S, fold_left_app, IH, AutoIndentFacts.described_snoc.
    clear IH. simpl plus. simpl fold_left.
    set (P := fold_right
                (fun i rest => describedPiece brackets line tokens i ++ rest)
                "" (seq 0 n)).
    destruct (proj1 Hcovers n ltac:(lia)) as [Hstart Hend].
    pose proof (AutoIndentFacts.boundary_range tokens line Hcovers n
                                               ltac:(lia)) as Hboundary.
    pose proof (Hkeeps n ltac:(lia)) as Hkept. unfold tokenText in Hkept.
    set (a := boundary tokens n) in *.
    change (boundary tokens (S n)) with (getEndOffset tokens n).
    set (e := getEndOffset tokens n) in *.
    unfold JS.length in Hend, Hboundary.
    set (text := String.substring (Z.to_nat a) (Z.to_nat e - Z.to_nat a) line).
    set (rest := String.substring (Z.to_nat e) (String.length line - Z.to_nat e)
                                  line).
    assert (Hsplit : String.substring (Z.to_nat a)
                                      (String.length line - Z.to_nat a) line
                     = text ++ rest).
    { apply JSFacts.substring_split. lia. }
    assert (Htext : JS.length text = e - a).
    { unfold JS.length, text. rewrite JSFacts.length_substring; lia. }
    assert (Hsub : JS.substring line a e = text).
    { apply JSFacts.substring_in_range; unfold JS.length; lia. }
    rewrite Hsplit.
    unfold strip_step, describedPiece.
    fold e. rewrite Hstart in *. fold a. fold a in Hkept. rewrite Hsub in *.
    assert (Hwritten :
              forall modified,
                JS.length modified = JS.length text ->
                (JS.substring (P ++ text ++ rest) 0
                              (JS.length P - a
                               + (JS.length text - JS.length modified) + a)
                   ++ modified
                   ++ JS.substring_from (P ++ text ++ rest)
                        (JS.length P - a
                         + (JS.length text - JS.length modified) + e),
                 JS.length P - a + (JS.length text - JS.length modified))
                = ((P ++ modified) ++ rest, JS.length (P ++ modified) - e)).
    { intros modified Hmodified. rewrite Hmodified.
      replace (JS.length P - a + (JS.length text - JS.length text) + a)
        with (JS.length P) by lia.
      rewrite JSFacts.substring_left.
      replace (JS.length P - a + (JS.length text - JS.length text) + e)
        with (JS.length (P ++ text))
        by (rewrite JSFacts.JS_length_append; lia).
      rewrite <- (JSFacts.append_assoc P text rest),
        JSFacts.substring_from_right.
      rewrite JSFacts.append_assoc. f_equal.
      rewrite JSFacts.JS_length_append. lia. }
    destruct (getStandardTokenType tokens n); simpl.
    + rewrite JSFacts.append_assoc. f_equal.
      rewrite JSFacts.JS_length_append. lia.
    + replace (JS.length P - a + a) with (JS.length P) by lia.
      rewrite JSFacts.substr_left.
      replace (JS.length P - a + e) with (JS.length (P ++ text))
        by (rewrite JSFacts.JS_length_append; lia).
      rewrite <- (JSFacts.append_assoc P text rest),
        JSFacts.substr_from_right.
      rewrite JSFacts.append_empty_r. f_equal. lia.
    + apply Hwritten. unfold JS.length. f_equal. apply Hkept. now left.
    + apply Hwritten. unfold JS.length. f_equal. apply Hkept. now right.
Qed.

(** X11: when the tokens cover the line and no replacement inside a string
    or a regular expression changes the length of the token,
    [getStrippedLineForLineAndTokens] returns the line token by token:
    nothing for a comment, the text with its replacements for a string or a
    regular expression, the text for any other token.  In particular the
    comments of a line without strings are removed for every bracket
    configuration. *)
Theorem stripped_when_lengths_kept (service : ILanguageConfigurationService)
        (language line : string) (tokens : Tokens) :
  covers tokens line ->
  keepsLengths (brackets (getLanguageConfiguration service language))
               line tokens ->
  getStrippedLineForLineAndTokens service language line tokens
  = strippedAsDescribed (brackets (getLanguageConfiguration service language))
                        line tokens.
Proof.
  intros Hcovers Hkeeps.
  unfold getStrippedLineForLineAndTokens, strippedAsDescribed.
  rewrite (strip_loop_keeping _ line tokens Hcovers Hkeeps (getCount tokens)
                              (le_n _)).
  simpl fst.
  rewrite (proj2 Hcovers). unfold JS.length.
  rewrite Nat2Z.id, Nat.sub_diag, JSFacts.substring_nothing.
  apply JSFacts.append_empty_r.
Qed.

Lemma entirelyIn_all (ty : StandardTokenType.t) (tokens : Tokens) :
  entirelyIn ty tokens = true ->
  forall i, (i < getCount tokens)%nat -> getStandardTokenType tokens i = ty.
Proof.
  unfold entirelyIn. rewrite forallb_forall. intros Hall i Hi.
  specialize (Hall i ltac:(apply in_seq; lia)).
  destruct (getStandardTokenType tokens i); destruct ty;
    (reflexivity || discriminate).
Qed.

(** X12: a line that [getPrecedingValidLine] passes over because all its
    tokens are comments is stripped to the empty string, whatever the
    brackets of the language are. *)
Theorem stripped_comment_line (service : ILanguageConfigurationService)
        (language line : string) (tokens : Tokens) :
  covers tokens line ->
  entirelyIn StandardTokenType.Comment tokens = true ->
  getStrippedLineForLineAndTokens service language line tokens = "".
Proof.
  intros Hcovers Hcomments.
  pose proof (entirelyIn_all _ _ Hcomments) as Hall.
  unfold getStrippedLineForLineAndTokens.
  rewrite (strip_loop_keeping _ line tokens Hcovers) with (n := getCount tokens);
    [|  |apply le_n].
  - simpl fst. rewrite (proj2 Hcovers). unfold JS.length.
    rewrite Nat2Z.id, Nat.sub_diag, JSFacts.substring_nothing,
      JSFacts.append_empty_r.
    assert (Hpieces : forall l,
               (forall i, In i l -> (i < getCount tokens)%nat) ->
               fold_right
                 (fun i rest =>
                    describedPiece
                      (brackets (getLanguageConfiguration service language))
                      line tokens i ++ rest) "" l = "").
    { induction l as [|i l IH]; intros Hin; [reflexivity|].
      simpl. unfold describedPiece at 1.
      rewrite (Hall i) by (apply Hin; now left).
      simpl. apply IH. intros j Hj. apply Hin. now right. }
    apply Hpieces. intros i Hi. apply in_seq in Hi. lia.
  - intros i Hi [Hstring | Hregex];
      rewrite (Hall i Hi) in *; discriminate.
Qed.

(* --------------------------------------------------------------------- *)
(** *** The further properties on the sample editor *)

(** Above the third line of the sample program the nearest valid line is the
    second. *)
Lemma getPrecedingValidLine_nearest_witness :
  getPrecedingValidLine Sample.program 3 Sample.braceRules = 2
  /\ isPassedOver Sample.program Sample.braceRules 2 = false.
Proof.
  destruct (getPrecedingValidLine_nearest Sample.program 3 Sample.braceRules)
    as [[Hnone _] | (_ & Hvalid & _)].
  - intros l Hl. reflexivity.
  - discriminate.
  - split; [reflexivity | exact Hvalid].
Defined.

(** The first line of the sample program inherits nothing. *)
Lemma getInheritIndentForLine_top_witness :
  getInheritIndentForLine (host := Sample.host) Sample.service 4
                          Sample.program 1 true
  = Some noIndent.
Proof.
  apply (getInheritIndentForLine_top (host := Sample.host)).
  - simpl. lia.
  - discriminate.
  - left. lia.
Defined.

(** What the third line of the sample program inherits. *)
Lemma getInheritIndentForLine_shape_witness :
  (action {| indentation := "  "; action := None; line := Some 2 |} = None
   \/ action {| indentation := "  "; action := None; line := Some 2 |}
      = Some IndentAction.Indent)
  /\ 1 <= 2 < 3.
Proof.
  exact (getInheritIndentForLine_shape
           (host := Sample.host) Sample.service 4 Sample.program 3 true
           {| indentation := "  "; action := None; line := Some 2 |} eq_refl).
Defined.

(** The sample program and the program with another third line and a fourth
    line inherit the same on line 3. *)
Lemma getInheritIndentForLine_looks_above_witness :
  getInheritIndentForLine (host := Sample.host) Sample.service 4
                          Sample.program 3 false
  = getInheritIndentForLine (host := Sample.host) Sample.service 4
                            MoreSample.programEdited 3 false.
Proof.
  apply (getInheritIndentForLine_looks_above (host := Sample.host)).
  split; [reflexivity|]. split; [reflexivity|].
  intros l Hl.
  assert (l = 1 \/ l = 2) as [-> | ->] by lia; split; reflexivity.
Defined.

(** No good indentation in a language without indent rules. *)
Lemma getGoodIndentForLine_null_iff_witness :
  getGoodIndentForLine (host := Sample.host) Sample.service 4 Sample.program
                       "pascal" 2 Sample.twoSpaces = None.
Proof.
  apply (getGoodIndentForLine_null_iff (host := Sample.host)).
  right. left. reflexivity.
Defined.

(** The first line of the sample program. *)
Lemma getGoodIndentForLine_top_witness :
  getGoodIndentForLine (host := Sample.host) Sample.service 4 Sample.program
                       "c" 1 Sample.twoSpaces = Some "".
Proof.
  apply (getGoodIndentForLine_top (host := Sample.host) Sample.service 4
                                  Sample.program "c" 1 Sample.twoSpaces
                                  Sample.braceRules).
  - simpl. lia.
  - reflexivity.
  - discriminate.
  - left. lia.
Defined.

(** Enter in a language without indent rules. *)
Lemma getIndentForEnter_null_iff_witness :
  getIndentForEnter (host := Sample.host) Sample.service 4
                    (Sample.modelOf "pascal" ["begin"]) (Sample.cursor 1 6)
                    Sample.twoSpaces = None.
Proof.
  apply (getIndentForEnter_null_iff (host := Sample.host)).
  right. reflexivity.
Defined.

(** Enter inside the script of the sample page. *)
Lemma getIndentForEnter_embedded_witness :
  exists r,
    getIndentForEnter (host := Sample.pageHost) Sample.service 4 Sample.page
                      (Sample.cursor 1 19) Sample.twoSpaces = Some r
    /\ beforeEnter r = "  ".
Proof.
  destruct (getIndentForEnter (host := Sample.pageHost) Sample.service 4
                              Sample.page (Sample.cursor 1 19) Sample.twoSpaces)
    as [r|] eqn:Hresult; [|discriminate].
  exists r. split; [reflexivity|].
  apply (getIndentForEnter_embedded (host := Sample.pageHost) Sample.service 4
                                    Sample.page (Sample.cursor 1 19)
                                    Sample.twoSpaces r eq_refl Hresult).
Defined.

(** Enter at the end of the second line of the sample program and of the
    program with other lines below. *)
Lemma getIndentForEnter_looks_above_witness :
  getIndentForEnter (host := Sample.host) Sample.service 4 Sample.program
                    (Sample.cursor 2 9) Sample.twoSpaces
  = getIndentForEnter (host := Sample.host) Sample.service 4
                      MoreSample.programEdited (Sample.cursor 2 9)
                      Sample.twoSpaces.
Proof.
  apply (getIndentForEnter_looks_above (host := Sample.host)).
  - reflexivity.
  - split; [reflexivity|]. split; [reflexivity|]. split.
    + intros l Hl. simpl in Hl. simpl.
      assert (Z.to_nat (l - 1) = O \/ Z.to_nat (l - 1) = 1%nat) as [-> | ->]
          by lia; reflexivity.
    + intros l Hl. simpl in Hl. assert (l = 1) as -> by lia. reflexivity.
Defined.

(** A plain line of Pascal is not touched by the word brackets. *)
Lemma stripped_plain_witness :
  getStrippedLineForLineAndTokens
    Sample.service "pascal" "begin x end"
    (Sample.plainLine "pascal" "begin x end")
  = "begin x end".
Proof.
  apply stripped_plain.
  intros i Hi. simpl in Hi.
  assert (i = O) as -> by lia. reflexivity.
Defined.

(** The line of C of the sample under the word brackets of Pascal, which do
    not occur in its string. *)
Lemma stripped_when_lengths_kept_witness :
  getStrippedLineForLineAndTokens Sample.service "pascal" Sample.cLine
                                  Sample.cTokens
  = "a  '{(}{' b ".
Proof.
  rewrite stripped_when_lengths_kept.
  - reflexivity.
  - split.
    + intros i Hi.
      do 6 (destruct i as [|i]; [simpl; unfold JS.length; simpl; lia|]).
      simpl in Hi. lia.
    + reflexivity.
  - intros i Hi Htype.
    do 6 (destruct i as [|i]; [reflexivity|]).
    simpl in Hi. lia.
Defined.

(** A comment that names the brackets. *)
Lemma stripped_comment_line_witness :
  getStrippedLineForLineAndTokens Sample.service "pascal"
                                  MoreSample.commentLine
                                  MoreSample.commentTokens
  = "".
Proof.
  apply stripped_comment_line.
  - split.
    + intros i Hi. simpl in Hi. assert (i = O) as -> by lia.
      simpl. unfold JS.length. simpl. lia.
    + reflexivity.
  - reflexivity.
Defined.

End AutoIndentMore.

(* ===================================================================== *)
(** ** Further properties of the content-hover controller *)
(* ===================================================================== *)

Module ContentHoverMore.

Import ContentHover ContentHoverNotions.

Section More.

Context {anchors : AnchorHost} {widgets : WidgetHost}.

(* --------------------------------------------------------------------- *)
(** *** What the pieces leave alone *)

Lemma _renderHoverParts_keeps (a : HoverAnchor) (hoverParts : list IHoverPart)
      (s : State) :
  let s' := _renderHoverParts a hoverParts s in
  _currentResult s' = _currentResult s
  /\ _computer s' = _computer s
  /\ _hoverOperation s' = _hoverOperation s.
Proof.
  pose proof (ContentHoverFacts._renderHoverPartsInFragment_rendered
                hoverParts s) as Hpass.
  unfold _renderHoverParts.
  destruct (_renderHoverPartsInFragment hoverParts s) as [context s1].
  simpl in Hpass.
  destruct Hpass as (_ & _ & Hcalls & Hcomputer & Hresult & _).
  destruct (fragment context); [auto|].
  destruct (computeHoverRanges (_editor s1) (anchor_range a) hoverParts); auto.
Qed.

(** [_setCurrentResult], case by case. *)
Lemma _setCurrentResult_cases (hoverResult : option HoverResult) (s : State) :
  let s' := _setCurrentResult hoverResult s in
  _computer s' = _computer s
  /\ _hoverOperation s' = _hoverOperation s
  /\ ((sameResult (_currentResult s) hoverResult = true /\ s' = s)
      \/ (sameResult (_currentResult s) hoverResult = false
          /\ match hoverResult with
             | Some r =>
               match messages r with
               | [] => _currentResult s' = None
                       /\ _widget s' = widget_hide (_widget s)
               | _ :: _ => _currentResult s' = Some r
               end
             | None => _currentResult s' = None
                       /\ _widget s' = widget_hide (_widget s)
             end)).
Proof.
  unfold _setCurrentResult.
  destruct (sameResult (_currentResult s) hoverResult).
  - split; [reflexivity|]. split; [reflexivity|]. left. auto.
  - destruct hoverResult as [r|].
    + destruct (messages r) as [|m ms] eqn:Hmessages; simpl.
      * repeat split. right. auto.
      * destruct (_renderHoverParts_keeps (anchor r) (messages r)
                    (set_currentResult (Some r) s))
          as (Hresult & Hcomputer & Hcalls).
        rewrite Hmessages in *.
        split; [exact Hcomputer|]. split; [exact Hcalls|].
        right. split; [reflexivity | exact Hresult].
    + simpl. repeat split. right. auto.
Qed.

Lemma settled_ext (s s' : State) :
  _currentResult s' = _currentResult s ->
  _computer s' = _computer s ->
  _hoverOperation s' = _hoverOperation s ->
  settled s -> settled s'.
Proof.
  unfold settled, idleWithoutAnchor.
  intros -> -> ->. auto.
Qed.

Lemma settled_setCurrentResult (hoverResult : option HoverResult) (s : State) :
  settled s -> settled (_setCurrentResult hoverResult s).
Proof.
  intros [Hmessages Hidle].
  destruct (_setCurrentResult_cases hoverResult s)
    as (Hcomputer & Hcalls & [[_ Hsame] | [_ Hset]]).
  - rewrite Hsame. split; assumption.
  - split.
    + destruct hoverResult as [r|].
      * destruct (messages r) as [|m ms] eqn:Hr.
        -- destruct Hset as [-> _]. exact I.
        -- rewrite Hset. simpl. rewrite Hr. discriminate.
      * destruct Hset as [-> _]. exact I.
    + unfold idleWithoutAnchor. rewrite Hcomputer, Hcalls. exact Hidle.
Qed.

Lemma settled_start (a : HoverAnchor) (mode : HoverStartMode)
      (src : HoverStartSource) (focus insist : bool) (s : State) :
  settled s -> settled (_startHoverOperationIfNecessary a mode src focus insist s).
Proof.
  intros [Hmessages Hidle].
  destruct (ContentHoverFacts._startHoverOperationIfNecessary_cases
              a mode src focus insist s)
    as [[_ Hsame] | (_ & _ & Hanchor & _ & _ & Hresult & _)].
  - rewrite Hsame. split; assumption.
  - split; [rewrite Hresult; exact Hmessages|].
    intros Hnone. rewrite Hanchor in Hnone. discriminate.
Qed.

Lemma isGettingCloser_keeps (mouseEvent : option IEditorMouseEvent) (s : State) :
  let s' := snd (isGettingCloser mouseEvent s) in
  _currentResult s' = _currentResult s
  /\ _computer s' = _computer s
  /\ _hoverOperation s' = _hoverOperation s.
Proof.
  unfold isGettingCloser.
  destruct (hover_sticky (_editor s)); [|auto].
  destruct mouseEvent as [e|]; [|auto].
  destruct (isMouseGettingCloser (_widget s) (posx e) (posy e)). simpl. auto.
Qed.

Lemma settled_startShowing (a : option HoverAnchor) (mode : HoverStartMode)
      (src : HoverStartSource) (focus : bool)
      (mouseEvent : option IEditorMouseEvent) (s : State) :
  settled s ->
  settled (snd (_startShowingOrUpdateHover a mode src focus mouseEvent s)).
Proof.
  intros Hsettled. unfold _startShowingOrUpdateHover.
  destruct (shownResult s) as [current|].
  - destruct (isGettingCloser_keeps mouseEvent s) as (Hr & Hc & Ho).
    destruct (isGettingCloser mouseEvent s) as [closer s1]. simpl in Hr, Hc, Ho.
    assert (Hsettled1 : settled s1) by (eapply settled_ext; eassumption).
    destruct closer.
    + destruct a as [a'|]; simpl; [apply settled_start|]; exact Hsettled1.
    + destruct a as [a'|]; simpl.
      * destruct (equals (anchor current) a'); simpl; [exact Hsettled1|].
        destruct (negb _); simpl;
          apply settled_start, settled_setCurrentResult; exact Hsettled1.
      * apply settled_setCurrentResult. exact Hsettled1.
  - destruct a as [a'|]; simpl; [apply settled_start|]; exact Hsettled.
Qed.

Lemma settled_withResult (hoverResult : HoverResult) (s : State) :
  settled s -> settled (_withResult hoverResult s).
Proof.
  intros Hsettled. unfold _withResult.
  destruct (match shownResult s with
            | Some current => isComplete current
            | None => false
            end).
  - destruct (negb (isComplete hoverResult)); [exact Hsettled|].
    destruct (_ && _); [exact Hsettled|].
    apply settled_setCurrentResult. exact Hsettled.
  - apply settled_setCurrentResult. exact Hsettled.
Qed.

(** [hide], field by field. *)
Lemma hide_fields (s : State) :
  _currentResult (hide s) = None
  /\ computer_anchor (_computer (hide s)) = None
  /\ _hoverOperation (hide s) = (_hoverOperation s ++ [Cancel])%list
  /\ (_currentResult s <> None -> _widget (hide s) = widget_hide (_widget s))
  /\ (_currentResult s = None -> _widget (hide s) = _widget s).
Proof.
  unfold hide. cbv zeta.
  set (s1 := call_hoverOperation Cancel (set_computer _ s)).
  destruct (_setCurrentResult_cases None s1)
    as (Hcomputer & Hcalls & [[Hsame Hkept] | [Hother [Hresult Hwidget]]]).
  - assert (Hnone : _currentResult s = None).
    { change (_currentResult s1) with (_currentResult s) in Hsame.
      destruct (_currentResult s); [discriminate | reflexivity]. }
    rewrite Hkept. simpl. rewrite Hnone. repeat split.
    intros Hsome. contradiction.
  - rewrite Hcomputer, Hcalls, Hresult, Hwidget. simpl.
    repeat split.
    intros Hnone.
    change (_currentResult s1) with (_currentResult s) in Hother.
    rewrite Hnone in Hother. discriminate.
Qed.

Lemma settled_hide (s : State) : settled s -> settled (hide s).
Proof.
  intros _.
  destruct (hide_fields s) as (Hresult & _ & Hcalls & _).
  split.
  - rewrite Hresult. exact I.
  - intros _. rewrite Hcalls.
    rewrite ContentHoverFacts.fetchesInFlight_snoc. reflexivity.
Qed.

Lemma settled_handle (ev : Event) (s : State) : settled s -> settled (handle ev s).
Proof.
  intros Hsettled. destruct ev; simpl.
  - unfold showsOrWillShow.
    destruct (isResizing (_widget s)); [exact Hsettled|].
    destruct (anchorCandidates mouseEvent s);
      apply settled_startShowing; exact Hsettled.
  - apply settled_startShowing. exact Hsettled.
  - apply settled_hide. exact Hsettled.
  - unfold onResult.
    destruct (computer_anchor (_computer s)); [|exact Hsettled].
    apply settled_withResult.
    eapply settled_ext; [| | |exact Hsettled]; reflexivity.
  - unfold onTokenizationChange.
    destruct (isShown s); [apply settled_setCurrentResult|]; exact Hsettled.
  - eapply settled_ext; [| | |exact Hsettled]; reflexivity.
Qed.

Lemma reachable_settled (registry : list ParticipantClass) (s : State) :
  reachable registry s -> settled s.
Proof.
  induction 1 as [editor widget computer | s ev _ IH].
  - split; [exact I|]. intros _. reflexivity.
  - apply settled_handle. exact IH.
Qed.

(* --------------------------------------------------------------------- *)
(** *** Hiding *)

(** X13: after [hide] there is no current result and no anchor to compute
    at, so the hover is not shown; the widget is hidden when there was a
    current result and is not touched when there was none; and the next
    mouse event without anchor candidate is answered with no, unless the
    widget is resizing. *)
Theorem hide_hides (s : State) :
  _currentResult (hide s) = None
  /\ computer_anchor (_computer (hide s)) = None
  /\ isShown (hide s) = false
  /\ (_currentResult s <> None -> _widget (hide s) = widget_hide (_widget s))
  /\ (_currentResult s = None -> _widget (hide s) = _widget s)
  /\ (forall mouseEvent,
         isResizing (_widget (hide s)) = false ->
         anchorCandidates mouseEvent (hide s) = [] ->
         fst (showsOrWillShow mouseEvent (hide s)) = false).
Proof.
  destruct (hide_fields s) as (Hresult & Hanchor & _ & Hhidden & Huntouched).
  assert (Hshown : isShown (hide s) = false).
  { unfold isShown, shownResult. rewrite Hresult.
    destruct (position (_widget (hide s))); reflexivity. }
  repeat (split; [assumption|]).
  intros mouseEvent Hresizing Hcandidates.
  unfold showsOrWillShow. rewrite Hresizing, Hcandidates.
  apply ContentHoverFacts._startShowingOrUpdateHover_false.
  split; [reflexivity|]. left. exact Hshown.
Qed.

(** X14: a result of the hover operation that arrives after [hide] is
    dropped: the listener leaves the controller as [hide] left it. *)
Theorem onResult_after_hide (result : OperationResult) (s : State) :
  onResult result (hide s) = hide s.
Proof.
  unfold onResult.
  destruct (hide_fields s) as (_ & Hanchor & _).
  rewrite Hanchor. reflexivity.
Qed.

(** X15: the listener of the tokenization registry, which is meant to
    render again, changes nothing: it hands [_setCurrentResult] the result
    that is current, and [_setCurrentResult] returns at once for the result
    that is current. *)
Theorem onTokenizationChange_renders_nothing (s : State) :
  onTokenizationChange s = s
  /\ forall current,
      _currentResult s = Some current ->
      _setCurrentResult (Some current) s = s.
Proof.
  assert (Hsame : forall current,
             _currentResult s = Some current ->
             _setCurrentResult (Some current) s = s).
  { intros current Hcurrent. unfold _setCurrentResult.
    rewrite Hcurrent. simpl. rewrite Nat.eqb_refl. reflexivity. }
  split; [|exact Hsame].
  unfold onTokenizationChange, isShown, shownResult.
  destruct (position (_widget s)); [|reflexivity].
  destruct (_currentResult s) as [current|] eqn:Hcurrent; [|reflexivity].
  apply Hsame. reflexivity.
Qed.

(* --------------------------------------------------------------------- *)
(** *** What holds at any time *)

(** X16: at any time in the life of a controller the current result, if
    there is one, has at least one message: a result without messages is
    never kept. *)
Theorem current_result_has_messages (registry : list ParticipantClass)
        (s : State) (current : HoverResult) :
  reachable registry s ->
  _currentResult s = Some current ->
  messages current <> [].
Proof.
  intros Hreachable Hcurrent.
  destruct (reachable_settled registry s Hreachable) as [Hmessages _].
  rewrite Hcurrent in Hmessages. exact Hmessages.
Qed.

(** X17: at any time in the life of a controller, when the computer has no
    anchor, the hover operation was never called or the last call on it was
    [cancel]: a result reaches the listener's test for a missing anchor only
    after the operation that made it was cancelled. *)
Theorem no_anchor_after_cancel (registry : list ParticipantClass) (s : State) :
  reachable registry s ->
  computer_anchor (_computer s) = None ->
  _hoverOperation s = []
  \/ exists calls, _hoverOperation s = (calls ++ [Cancel])%list.
Proof.
  intros Hreachable Hnone.
  destruct (reachable_settled registry s Hreachable) as [_ Hidle].
  specialize (Hidle Hnone).
  destruct (_hoverOperation s) as [|c calls] using rev_ind; [now left|].
  right. exists calls.
  rewrite ContentHoverFacts.fetchesInFlight_snoc in Hidle.
  destruct c; [reflexivity | discriminate].
Qed.

(* --------------------------------------------------------------------- *)
(** *** The participants and what they render *)

Lemma entries_from {A : Type} (l : list A) (start : nat) :
  map snd (combine (seq start (List.length l)) l) = l
  /\ map fst (combine (seq start (List.length l)) l) = seq start (List.length l).
Proof.
  revert start. induction l as [|x l IH]; intros start; simpl.
  - auto.
  - destruct (IH (S start)) as [-> ->]. auto.
Qed.

Lemma instantiate_fields (registry : list ParticipantClass) :
  map class (instantiate registry) = registry
  /\ map ref (instantiate registry) = seq 0 (List.length registry).
Proof.
  unfold instantiate, JSArray.entries.
  rewrite !map_map. simpl.
  exact (entries_from registry 0).
Qed.

Lemma sortedParticipants_fields (registry : list ParticipantClass) :
  Permutation registry (map class (sortedParticipants registry))
  /\ NoDup (map ref (sortedParticipants registry)).
Proof.
  destruct (instantiate_fields registry) as [Hclass Href].
  pose proof (ContentHoverFacts.sortedParticipants_Permutation registry)
    as Hperm.
  split.
  - rewrite <- Hclass at 1. apply Permutation_map. exact Hperm.
  - eapply Permutation_NoDup; [apply Permutation_map; exact Hperm|].
    rewrite Href. apply seq_NoDup.
Qed.

(** X18: at any time the participants of a controller are one instance of
    each registered class, no class left out and none instantiated twice,
    and the instances are different objects. *)
Theorem participants_once (registry : list ParticipantClass) (s : State) :
  reachable registry s ->
  Permutation registry (map class (_participants s))
  /\ NoDup (map ref (_participants s))
  /\ List.length (_participants s) = List.length registry.
Proof.
  intros Hreachable.
  rewrite (ContentHoverFacts.reachable_participants registry s Hreachable).
  destruct (sortedParticipants_fields registry) as [Hperm Hdistinct].
  split; [exact Hperm|]. split; [exact Hdistinct|].
  apply Permutation_length in Hperm. rewrite length_map in Hperm.
  symmetry. exact Hperm.
Qed.

Lemma renderedHoverParts_app (l1 l2 : list RenderedPart) :
  renderedHoverParts (l1 ++ l2)
  = (renderedHoverParts l1 ++ renderedHoverParts l2)%list.
Proof. apply flat_map_app. Qed.

Lemma renderedHoverParts_group (hoverParts : list IHoverPart)
      (participant : IEditorHoverParticipant) (group : list RenderedPart) :
  groupOf hoverParts participant group ->
  renderedHoverParts group = hoverPartsFor participant hoverParts.
Proof.
  intros [elements ->]. unfold renderedFor, JSArray.entries.
  assert (Hparts : forall l : list (nat * IHoverPart),
             renderedHoverParts
               (map (fun e => RenderedHoverPart (nth_error elements (fst e))
                                                (snd e) participant) l)
             = map snd l).
  { induction l as [|e l IH]; simpl; [reflexivity|]. f_equal. exact IH. }
  rewrite Hparts.
  apply (entries_from (hoverPartsFor participant hoverParts) 0).
Qed.

Lemma renderedHoverParts_groups (hoverParts : list IHoverPart)
      (participants : list IEditorHoverParticipant)
      (groups : list (list RenderedPart)) :
  Forall2 (groupOf hoverParts) participants groups ->
  renderedHoverParts (List.concat groups)
  = flat_map (fun p => hoverPartsFor p hoverParts) participants.
Proof.
  induction 1 as [|p g ps gs Hgroup _ IH]; simpl; [reflexivity|].
  rewrite renderedHoverParts_app, IH.
  rewrite (renderedHoverParts_group _ _ _ Hgroup). reflexivity.
Qed.

Lemma filter_either {A : Type} (f g : A -> bool) (l : list A) :
  (forall x, f x = true -> g x = true -> False) ->
  Permutation (List.filter f l ++ List.filter g l)
              (List.filter (fun x => f x || g x) l).
Proof.
  intros Hdisjoint. induction l as [|x l IH]; simpl; [constructor|].
  destruct (f x) eqn:Hf; destruct (g x) eqn:Hg; simpl.
  - exfalso. eapply Hdisjoint; eassumption.
  - apply perm_skip. exact IH.
  - eapply perm_trans; [apply Permutation_sym, Permutation_middle|].
    apply perm_skip. exact IH.
  - exact IH.
Qed.

Lemma owned_once (hoverParts : list IHoverPart)
      (participants : list IEditorHoverParticipant) :
  NoDup (map ref participants) ->
  Permutation (flat_map (fun p => hoverPartsFor p hoverParts) participants)
              (List.filter (isOwned participants) hoverParts).
Proof.
  induction participants as [|p ps IH]; intros Hdistinct; simpl.
  - induction hoverParts as [|m ms IHm]; simpl; [constructor | exact IHm].
  - inversion Hdistinct as [|r rs Hfresh Hrest]; subst.
    eapply perm_trans; [apply Permutation_app_head, IH; exact Hrest|].
    unfold hoverPartsFor.
    apply (filter_either (fun msg => Nat.eqb (owner msg) (ref p))
                         (isOwned ps)).
    intros msg Hp Hps. apply Nat.eqb_eq in Hp.
    unfold isOwned in Hps. apply existsb_exists in Hps.
    destruct Hps as (q & Hq & Heq). apply Nat.eqb_eq in Heq.
    apply Hfresh. rewrite <- Hp, Heq. apply in_map. exact Hq.
Qed.

(** X19: a render pass of a controller renders every message whose owner is
    one of the participants exactly once, and no other message: the hover
    parts it leaves in [_renderedParts] are the owned messages, rearranged. *)
Theorem rendered_once (registry : list ParticipantClass) (s : State)
        (hoverParts : list IHoverPart) :
  reachable registry s ->
  Permutation
    (renderedHoverParts
       (_renderedParts (snd (_renderHoverPartsInFragment hoverParts s))))
    (List.filter (isOwned (_participants s)) hoverParts).
Proof.
  intros Hreachable.
  destruct (ContentHoverFacts._renderHoverPartsInFragment_rendered hoverParts s)
    as [(groups & Hgroups & ->) _].
  rewrite renderedHoverParts_app,
    (renderedHoverParts_groups _ _ _ Hgroups).
  replace (renderedHoverParts
             (if statusBar_hasContent
                   (fst (_renderHoverPartsInFragment hoverParts s))
              then [RenderedHoverStatusBar statusBar_hoverElement]
              else []))
    with (@nil IHoverPart) by (destruct (statusBar_hasContent _); reflexivity).
  rewrite app_nil_r.
  apply owned_once.
  rewrite (ContentHoverFacts.reachable_participants registry s Hreachable).
  apply sortedParticipants_fields.
Qed.

(* --------------------------------------------------------------------- *)
(** *** Loading messages, starting at a range, and results that are taken *)

Lemma firstLoadingMessage_from (a : HoverAnchor)
      (participants : list IEditorHoverParticipant) (m : IHoverPart) :
  firstLoadingMessage a participants = Some m ->
  exists p create,
    In p participants
    /\ createLoadingMessage p = Some create
    /\ create a = Some m.
Proof.
  induction participants as [|p ps IH]; simpl; [discriminate|].
  destruct (createLoadingMessage p) as [create|] eqn:Hcreate.
  - destruct (create a) as [m'|] eqn:Hmade.
    + intros H; injection H as <-. exists p, create. auto.
    + intros H. destruct (IH H) as (q & c & Hq & Hc & Hm).
      exists q, c. auto.
  - intros H. destruct (IH H) as (q & c & Hq & Hc & Hm).
    exists q, c. auto.
Qed.

(** X20: [_addLoadingMessage] keeps the messages it is given, in their
    order, and adds at most one message after them; it adds none when the
    computer has no anchor, and a message it adds is the loading message a
    participant creates for the anchor of the computer. *)
Theorem _addLoadingMessage_appends (result : list IHoverPart) (s : State) :
  exists extra,
    _addLoadingMessage result s = (result ++ extra)%list
    /\ (List.length extra <= 1)%nat
    /\ (computer_anchor (_computer s) = None -> extra = [])
    /\ forall m, In m extra ->
                 exists a p create,
                   computer_anchor (_computer s) = Some a
                   /\ In p (_participants s)
                   /\ createLoadingMessage p = Some create
                   /\ create a = Some m.
Proof.
  unfold _addLoadingMessage.
  destruct (computer_anchor (_computer s)) as [a|].
  - destruct (firstLoadingMessage a (_participants s)) as [m|] eqn:Hfirst.
    + exists [m]. split; [reflexivity|]. split; [simpl; lia|].
      split; [discriminate|].
      intros m' [<- | []].
      destruct (firstLoadingMessage_from _ _ _ Hfirst) as (p & create & H).
      exists a, p, create. split; [reflexivity | exact H].
    + exists []. rewrite app_nil_r. split; [reflexivity|].
      split; [simpl; lia|]. split; [reflexivity|]. intros m' [].
  - exists []. rewrite app_nil_r. split; [reflexivity|].
    split; [simpl; lia|]. split; [reflexivity|]. intros m' [].
Qed.

(** X21: [startShowingAtRange] on a hover that is not shown never renders
    and never hides: either the computer is already at an anchor equal to
    the range anchor and nothing changes, or the hover operation is
    cancelled and started in the given mode and the computer gets the range
    anchor, the given focus and source, and does not insist on keeping the
    hover visible. *)
Theorem startShowingAtRange_hidden (r : Range) (mode : HoverStartMode)
        (src : HoverStartSource) (focus : bool) (s : State) :
  isShown s = false ->
  let a := HoverRangeAnchor 0 r None None in
  let s' := startShowingAtRange r mode src focus s in
  (sameComputerAnchor a s = true /\ s' = s)
  \/ (sameComputerAnchor a s = false
      /\ _computer s' = {| computer_anchor := Some a;
                           shouldFocus := focus;
                           source := src;
                           insistOnKeepingHoverVisible := false |}
      /\ _hoverOperation s' = (_hoverOperation s ++ [Cancel; Start mode])%list
      /\ _currentResult s' = _currentResult s
      /\ _renderedParts s' = _renderedParts s
      /\ _widget s' = _widget s).
Proof.
  intros Hhidden a s'. subst s'.
  unfold startShowingAtRange, _startShowingOrUpdateHover.
  unfold isShown in Hhidden.
  destruct (shownResult s); [discriminate|].
  fold a. simpl. unfold _startHoverOperationIfNecessary.
  destruct (sameComputerAnchor a s).
  - left. auto.
  - right. simpl. rewrite <- app_assoc. repeat split.
Qed.

(** X22: a result that [_withResult] does not hold back becomes the current
    one when it has messages, and hides the hover when it has none.  It is
    not held back when the hover is not shown or shows a result that is not
    complete; the result must be a new object. *)
Theorem _withResult_takes (hoverResult : HoverResult) (s : State) :
  match shownResult s with
  | Some current => isComplete current = false
  | None => True
  end ->
  sameResult (_currentResult s) (Some hoverResult) = false ->
  let s' := _withResult hoverResult s in
  (messages hoverResult <> [] -> _currentResult s' = Some hoverResult)
  /\ (messages hoverResult = [] ->
      _currentResult s' = None /\ _widget s' = widget_hide (_widget s)).
Proof.
  intros Hfree Hnew s'. subst s'. unfold _withResult.
  assert (Htest : match shownResult s with
                  | Some current => isComplete current
                  | None => false
                  end = false).
  { destruct (shownResult s); [exact Hfree | reflexivity]. }
  rewrite Htest.
  destruct (_setCurrentResult_cases (Some hoverResult) s)
    as (_ & _ & [[Hsame _] | [_ Hset]]); [congruence|].
  destruct (messages hoverResult) as [|m ms].
  - split; [intros Hne; contradiction | intros _; exact Hset].
  - split; [intros _; exact Hset | discriminate].
Qed.

(* --------------------------------------------------------------------- *)
(** *** A hover that is shown *)

(** After [_startHoverOperationIfNecessary] the computer is at the anchor
    asked for, or at one equal to it. *)
Lemma _startHoverOperationIfNecessary_anchor (a : HoverAnchor)
      (mode : HoverStartMode) (src : HoverStartSource) (focus insist : bool)
      (s : State) :
  exists c,
    computer_anchor
      (_computer (_startHoverOperationIfNecessary a mode src focus insist s))
    = Some c
    /\ (c = a \/ equals c a = true).
Proof.
  destruct (ContentHoverFacts._startHoverOperationIfNecessary_cases
              a mode src focus insist s)
    as [[Hsame ->] | (_ & _ & Hanchor & _)].
  - unfold sameComputerAnchor in Hsame.
    destruct (computer_anchor (_computer s)) as [c|]; [|discriminate].
    exists c. auto.
  - exists a. auto.
Qed.

(** X24: a hover that is shown is left untouched while the mouse gets
    closer to it, and also when the anchor asked for equals the anchor of
    the result on show: the answer is yes, the current result, the rendered
    parts and the widget stay as they are, and the computer is unchanged or
    insists on keeping the hover visible. *)
Theorem shown_hover_kept (a : option HoverAnchor) (mode : HoverStartMode)
        (src : HoverStartSource) (focus : bool)
        (mouseEvent : option IEditorMouseEvent) (s : State)
        (current : HoverResult) :
  shownResult s = Some current ->
  fst (isGettingCloser mouseEvent s) = true
  \/ (exists a', a = Some a' /\ equals (anchor current) a' = true) ->
  let asked := isGettingCloser mouseEvent s in
  let r := _startShowingOrUpdateHover a mode src focus mouseEvent s in
  fst r = true
  /\ _currentResult (snd r) = Some current
  /\ _renderedParts (snd r) = _renderedParts s
  /\ _widget (snd r) = _widget (snd asked)
  /\ (_computer (snd r) = _computer s
      \/ insistOnKeepingHoverVisible (_computer (snd r)) = true).
Proof.
  intros Hshown Hkept asked r. subst asked r.
  assert (Hcurrent : _currentResult s = Some current).
  { unfold shownResult in Hshown.
    destruct (position (_widget s)); [exact Hshown | discriminate]. }
  unfold _startShowingOrUpdateHover. rewrite Hshown.
  assert (Hasked : _currentResult (snd (isGettingCloser mouseEvent s))
                   = _currentResult s
                   /\ _computer (snd (isGettingCloser mouseEvent s))
                      = _computer s
                   /\ _renderedParts (snd (isGettingCloser mouseEvent s))
                      = _renderedParts s).
  { unfold isGettingCloser.
    destruct (hover_sticky (_editor s)); [|auto].
    destruct mouseEvent as [e|]; [|auto].
    destruct (isMouseGettingCloser (_widget s) (posx e) (posy e)).
    simpl; auto. }
  destruct (isGettingCloser mouseEvent s) as [closer s1].
  simpl in Hasked, Hkept |- *. destruct Hasked as (Hr & Hc & Hp).
  destruct closer.
  - destruct a as [a'|]; simpl.
    + unfold _startHoverOperationIfNecessary.
      destruct (sameComputerAnchor a' s1); simpl.
      * repeat split; try congruence. left. exact Hc.
      * repeat split; try congruence. now right.
    + repeat split; try congruence. left. exact Hc.
  - destruct Hkept as [Hcloser | (a' & -> & Hequal)]; [discriminate|].
    rewrite Hequal. simpl.
    repeat split; try congruence. left. exact Hc.
Qed.

(** X25: when the mouse does not get closer to a hover that is shown and
    the anchor asked for neither equals the anchor of the result on show nor
    can adopt the visible hover, the current result is dropped, the widget
    is hidden and the answer is yes, with the computer at the anchor asked
    for or at one equal to it. *)
Theorem shown_hover_replaced (a' : HoverAnchor) (mode : HoverStartMode)
        (src : HoverStartSource) (focus : bool)
        (mouseEvent : option IEditorMouseEvent) (s : State)
        (current : HoverResult) :
  let asked := isGettingCloser mouseEvent s in
  shownResult s = Some current ->
  fst asked = false ->
  equals (anchor current) a' = false ->
  canAdoptVisibleHover a' (anchor current) (position (_widget (snd asked)))
  = false ->
  let r := _startShowingOrUpdateHover (Some a') mode src focus mouseEvent s in
  fst r = true
  /\ _currentResult (snd r) = None
  /\ _widget (snd r) = widget_hide (_widget (snd asked))
  /\ exists c, computer_anchor (_computer (snd r)) = Some c
               /\ (c = a' \/ equals c a' = true).
Proof.
  intros asked Hshown Hfar Hother Hstrange r. subst asked r.
  assert (Hcurrent : _currentResult s = Some current).
  { unfold shownResult in Hshown.
    destruct (position (_widget s)); [exact Hshown | discriminate]. }
  unfold _startShowingOrUpdateHover. rewrite Hshown.
  destruct (isGettingCloser_keeps mouseEvent s) as (Hr & _ & _).
  destruct (isGettingCloser mouseEvent s) as [closer s1].
  simpl in Hr, Hfar, Hstrange |- *. subst closer.
  rewrite Hother, Hstrange. simpl.
  destruct (_setCurrentResult_cases None s1)
    as (_ & _ & [[Hsame _] | [_ [Hnone Hhidden]]]).
  { rewrite Hr, Hcurrent in Hsame. discriminate. }
  destruct (ContentHoverFacts._startHoverOperationIfNecessary_cases
              a' mode src focus false (_setCurrentResult None s1))
    as [[_ Hkept] | (_ & _ & _ & _ & _ & Hresult & Hwidget)].
  - split; [reflexivity|].
    rewrite Hkept. split; [exact Hnone|]. split; [exact Hhidden|].
    rewrite <- Hkept. apply _startHoverOperationIfNecessary_anchor.
  - split; [reflexivity|].
    rewrite Hresult, Hwidget. split; [exact Hnone|]. split; [exact Hhidden|].
    apply _startHoverOperationIfNecessary_anchor.
Qed.

(* --------------------------------------------------------------------- *)
(** *** The accessible content *)

Section Accessible.

Variable getAccessibleContent : IEditorHoverParticipant -> IHoverPart -> string.

Lemma nth_error_skipn {A : Type} (l : list A) (i : nat) (x : A) :
  nth_error l i = Some x -> skipn i l = x :: skipn (S i) l.
Proof.
  revert i. induction l as [|y l IH]; intros [|i]; simpl;
    try discriminate.
  - intros H; injection H as ->. reflexivity.
  - intros H. apply IH. exact H.
Qed.

Lemma getAccessibleWidgetContentAtIndex_in_range (index : Z) (s : State)
      (part : RenderedPart) :
  0 <= index ->
  nth_error (_renderedParts s) (Z.to_nat index) = Some part ->
  getAccessibleWidgetContentAtIndex getAccessibleContent index s
  = Some (accessibleContentOf getAccessibleContent part).
Proof.
  intros Hindex Hpart. unfold getAccessibleWidgetContentAtIndex.
  rewrite (AutoIndentFacts.ltb_ge _ _ Hindex), Hpart.
  destruct part; reflexivity.
Qed.

Lemma formattedContent_from (s : State) (count : nat) :
  forall i,
    0 <= i ->
    (Z.to_nat i + count = List.length (_renderedParts s))%nat ->
    formattedContent getAccessibleContent s i count
    = Some (map (accessibleContentOf getAccessibleContent)
                (skipn (Z.to_nat i) (_renderedParts s))).
Proof.
  induction count as [|count IH]; intros i Hi Hlength.
  - simpl. rewrite skipn_all2 by lia. reflexivity.
  - destruct (nth_error (_renderedParts s) (Z.to_nat i)) as [part|] eqn:Hpart.
    + cbn [formattedContent].
      rewrite (getAccessibleWidgetContentAtIndex_in_range i s part Hi Hpart).
      rewrite (IH (i + 1)) by lia.
      rewrite (nth_error_skipn _ _ _ Hpart).
      replace (Z.to_nat (i + 1)) with (S (Z.to_nat i)) by lia.
      reflexivity.
    + apply nth_error_None in Hpart. lia.
Qed.

(** X23: [getAccessibleWidgetContentAtIndex] throws exactly for an index
    below 0 or not below the number of rendered parts;
    [getAccessibleWidgetContent] therefore never throws, and returns the
    contents of the rendered parts in their order, a status bar reading as
    a fixed sentence, joined by blank lines. *)
Theorem getAccessibleWidgetContent_total (s : State) :
  (forall index,
      getAccessibleWidgetContentAtIndex getAccessibleContent index s = None
      <-> index < 0 \/ Z.of_nat (List.length (_renderedParts s)) <= index)
  /\ getAccessibleWidgetContent getAccessibleContent s
     = Some (String.concat
               blankLine
               (map (accessibleContentOf getAccessibleContent)
                    (_renderedParts s))).
Proof.
  split.
  - intros index. unfold getAccessibleWidgetContentAtIndex.
    destruct (index <? 0) eqn:Hneg.
    + apply Z.ltb_lt in Hneg. split; auto.
    + apply Z.ltb_ge in Hneg.
      destruct (nth_error (_renderedParts s) (Z.to_nat index)) as [part|]
        eqn:Hpart.
      * assert (Hin : (Z.to_nat index < List.length (_renderedParts s))%nat).
        { apply nth_error_Some. rewrite Hpart. discriminate. }
        destruct part; (split; [discriminate | intros [H | H]; lia]).
      * apply nth_error_None in Hpart. split; [intros _; right; lia | auto].
  - unfold getAccessibleWidgetContent.
    rewrite (formattedContent_from s (List.length (_renderedParts s)) 0)
      by (simpl; lia).
    reflexivity.
Qed.

End Accessible.

End More.

(* --------------------------------------------------------------------- *)
(** *** The further properties on the sample controller *)

(** The sample controller after [hide] is a state of its life. *)
Lemma hidden_reachable :
  reachable (anchors := HoverSample.anchors) (widgets := HoverSample.widgets)
            HoverSample.registry MoreSample.hidden.
Proof.
  unfold MoreSample.hidden.
  apply reachable_step, ContentHoverFacts.showing_reachable.
Qed.

(** After [hide] the mouse away from the text gets a no. *)
Lemma hide_hides_witness :
  fst (showsOrWillShow (anchors := HoverSample.anchors)
                       (widgets := HoverSample.widgets)
                       HoverSample.away (hide HoverSample.showing))
  = false.
Proof.
  destruct (hide_hides (anchors := HoverSample.anchors)
                       (widgets := HoverSample.widgets) HoverSample.showing)
    as (_ & _ & _ & _ & _ & Hnext).
  apply Hnext; reflexivity.
Defined.

(** The result that [showing] shows, set again. *)
Lemma onTokenizationChange_renders_nothing_witness :
  _setCurrentResult (anchors := HoverSample.anchors)
                    (widgets := HoverSample.widgets)
                    (Some HoverSample.shown) HoverSample.showing
  = HoverSample.showing.
Proof.
  apply (proj2 (onTokenizationChange_renders_nothing
                  (anchors := HoverSample.anchors)
                  (widgets := HoverSample.widgets) HoverSample.showing)).
  reflexivity.
Defined.

(** The messages of the result that [showing] shows. *)
Lemma current_result_has_messages_witness :
  messages HoverSample.shown <> [].
Proof.
  apply (current_result_has_messages
           (anchors := HoverSample.anchors) (widgets := HoverSample.widgets)
           HoverSample.registry HoverSample.showing HoverSample.shown).
  - apply ContentHoverFacts.showing_reachable.
  - reflexivity.
Defined.

(** The calls on the hover operation after [hide]. *)
Lemma no_anchor_after_cancel_witness :
  _hoverOperation MoreSample.hidden = []
  \/ exists calls, _hoverOperation MoreSample.hidden = (calls ++ [Cancel])%list.
Proof.
  apply (no_anchor_after_cancel (anchors := HoverSample.anchors)
                                (widgets := HoverSample.widgets)
                                HoverSample.registry MoreSample.hidden).
  - apply hidden_reachable.
  - reflexivity.
Defined.

(** The three participants of [showing]. *)
Lemma participants_once_witness :
  NoDup (map ref (_participants HoverSample.showing))
  /\ List.length (_participants HoverSample.showing) = 3%nat.
Proof.
  destruct (participants_once (anchors := HoverSample.anchors)
                              (widgets := HoverSample.widgets)
                              HoverSample.registry HoverSample.showing
                              ContentHoverFacts.showing_reachable)
    as (_ & Hdistinct & Hlength).
  split; [exact Hdistinct | exact Hlength].
Defined.

(** A render pass of [showing] over the parts of the sample and a part of
    an owner that is no participant. *)
Lemma rendered_once_witness :
  Permutation
    (renderedHoverParts
       (_renderedParts
          (snd (_renderHoverPartsInFragment
                  (anchors := HoverSample.anchors)
                  (widgets := HoverSample.widgets)
                  (HoverSample.part 9 HoverSample.word None 60
                     :: HoverSample.someParts)
                  HoverSample.showing))))
    HoverSample.someParts.
Proof.
  exact (rendered_once (anchors := HoverSample.anchors)
                       (widgets := HoverSample.widgets)
                       HoverSample.registry HoverSample.showing
                       (HoverSample.part 9 HoverSample.word None 60
                          :: HoverSample.someParts)
                       ContentHoverFacts.showing_reachable).
Defined.

(** The loading message of the sample with a loading participant. *)
Lemma _addLoadingMessage_appends_witness :
  exists extra,
    _addLoadingMessage (anchors := HoverSample.anchors)
                       (widgets := HoverSample.widgets)
                       HoverSample.someParts MoreSample.loading
    = (HoverSample.someParts ++ extra)%list
    /\ (List.length extra <= 1)%nat.
Proof.
  destruct (_addLoadingMessage_appends (anchors := HoverSample.anchors)
                                       (widgets := HoverSample.widgets)
                                       HoverSample.someParts MoreSample.loading)
    as (extra & Happended & Hlength & _).
  exists extra. split; assumption.
Defined.

(** Showing at the word from the keyboard, on the fresh controller. *)
Lemma startShowingAtRange_hidden_witness :
  _hoverOperation
    (startShowingAtRange (anchors := HoverSample.anchors)
                         (widgets := HoverSample.widgets)
                         HoverSample.word Immediate Keyboard true
                         HoverSample.fresh)
  = [Cancel; Start Immediate].
Proof.
  destruct (startShowingAtRange_hidden
              (anchors := HoverSample.anchors) (widgets := HoverSample.widgets)
              HoverSample.word Immediate Keyboard true HoverSample.fresh
              eq_refl)
    as [[Hsame _] | (_ & _ & Hcalls & _)].
  - discriminate.
  - exact Hcalls.
Defined.

(** The first result on the fresh controller. *)
Lemma _withResult_takes_witness :
  _currentResult
    (_withResult (anchors := HoverSample.anchors)
                 (widgets := HoverSample.widgets)
                 HoverSample.shown HoverSample.fresh)
  = Some HoverSample.shown.
Proof.
  apply (_withResult_takes (anchors := HoverSample.anchors)
                           (widgets := HoverSample.widgets)
                           HoverSample.shown HoverSample.fresh I eq_refl).
  discriminate.
Defined.

(** The mouse stays over the word whose hover is shown. *)
Lemma shown_hover_kept_witness :
  fst (_startShowingOrUpdateHover
         (anchors := HoverSample.anchors) (widgets := HoverSample.widgets)
         (Some HoverSample.wordAnchor) Delayed Mouse false
         (Some HoverSample.overWord) HoverSample.showing)
  = true.
Proof.
  destruct (shown_hover_kept (anchors := HoverSample.anchors)
                             (widgets := HoverSample.widgets)
                             (Some HoverSample.wordAnchor) Delayed Mouse false
                             (Some HoverSample.overWord) HoverSample.showing
                             HoverSample.shown eq_refl)
    as (Hyes & _).
  - right. exists HoverSample.wordAnchor. split; reflexivity.
  - exact Hyes.
Defined.

(** The mouse moves to the second line while the hover of the word is
    shown. *)
Lemma shown_hover_replaced_witness :
  _currentResult
    (snd (_startShowingOrUpdateHover
            (anchors := HoverSample.anchors) (widgets := HoverSample.widgets)
            (Some MoreSample.elsewhere) Delayed Mouse false
            (Some HoverSample.overWord) HoverSample.showing))
  = None.
Proof.
  apply (shown_hover_replaced (anchors := HoverSample.anchors)
                              (widgets := HoverSample.widgets)
                              MoreSample.elsewhere Delayed Mouse false
                              (Some HoverSample.overWord) HoverSample.showing
                              HoverSample.shown);
    reflexivity.
Defined.

(** [showing] has five rendered parts: there is none at index 5. *)
Lemma getAccessibleWidgetContent_total_witness :
  getAccessibleWidgetContentAtIndex
    (anchors := HoverSample.anchors) (widgets := HoverSample.widgets)
    MoreSample.readOut 5 HoverSample.showing
  = None.
Proof.
  apply (proj1 (getAccessibleWidgetContent_total
                  (anchors := HoverSample.anchors)
                  (widgets := HoverSample.widgets)
                  MoreSample.readOut HoverSample.showing)).
  right. simpl. lia.
Defined.

(** What a screen reader gets of [showing]. *)
Example accessible_sample :
  getAccessibleWidgetContent
    (anchors := HoverSample.anchors) (widgets := HoverSample.widgets)
    MoreSample.readOut HoverSample.showing
  = Some (String.concat blankLine
                        ["part"; "part"; "ten"; "part";
                         "There is a status bar here"]).
Proof. reflexivity. Qed.

(** The loading message comes last. *)
Example loading_sample :
  _addLoadingMessage (anchors := HoverSample.anchors)
                     (widgets := HoverSample.widgets)
                     HoverSample.someParts MoreSample.loading
  = (HoverSample.someParts ++ [HoverSample.part 0 HoverSample.word None 99])%list.
Proof. reflexivity. Qed.

End ContentHoverMore.
